(** * rawr: the target sandbox, the battle core and the web client

    Part I embeds the two programs that make up a target sandbox:
    [entrypoint.sh], the provisioning script run when the container starts,
    and [admin.php], the verification handler served by the web server.
    Part II models the battle core (match coordinator, action log store,
    ranking updater), whose implementation is not among the sources.
    Part III embeds [apiCall], the helper behind every request of the web
    client, with the session handling of the navigation bar and the pages;
    Part IV the terminal of the home page. *)

From Stdlib Require Import ZArith Strings.Ascii Strings.Byte.
From stdpp Require Import gmap strings list fin_maps pretty.

(* ===================================================================== *)
(** * Part I: the target sandbox                                          *)
(* ===================================================================== *)

(** ** PHP values and the builtins used by admin.php *)

Module Php.

(** A request parameter is a string, or an array when the client sends
    [code[]=...]. *)
Inductive value :=
  | PhpString (s : string)
  | PhpArray (items : list string).

#[global] Instance value_eq_dec : EqDecision value.
Proof. solve_decision. Defined.

(** [$a ?? $b]: the left operand when it is set. *)
Definition coalesce (a : option value) (b : value) : value :=
  match a with
  | Some v => v
  | None => b
  end.

(** [$a === $b] against a string: same type and same characters. *)
Definition identical (a : value) (b : string) : bool :=
  match a with
  | PhpString s => String.eqb s b
  | PhpArray _ => false
  end.

(** [empty($v)]: the empty string, the string "0" and the empty array. *)
Definition empty (v : value) : bool :=
  match v with
  | PhpString s => String.eqb s EmptyString || String.eqb s "0"
  | PhpArray items => match items with [] => true | _ => false end
  end.

(** Characters stripped by [trim] when no character list is given:
    space, tab, line feed, carriage return, NUL and vertical tab. *)
Definition is_trimmed (c : ascii) : bool :=
  match Ascii.N_of_ascii c with
  | 32%N | 9%N | 10%N | 13%N | 0%N | 11%N => true
  | _ => false
  end.

Fixpoint ltrim (s : string) : string :=
  match s with
  | EmptyString => EmptyString
  | String c s' => if is_trimmed c then ltrim s' else s
  end.

Fixpoint rtrim (s : string) : string :=
  match s with
  | EmptyString => EmptyString
  | String c s' =>
      match rtrim s' with
      | EmptyString => if is_trimmed c then EmptyString else String c EmptyString
      | t => String c t
      end
  end.

Definition trim (s : string) : string := rtrim (ltrim s).

End Php.

(** ** Random sources of the shell *)

Module Shell.

(** The two random sources the script reads: the state behind bash's
    [$RANDOM] and the byte stream behind [openssl rand], each with the
    number of values already consumed. *)
Record rng := Rng {
  random_src : nat -> Z;
  random_pos : nat;
  openssl_src : nat -> byte;
  openssl_pos : nat;
}.

(** [$RANDOM]: the next value, reduced to 15 bits (0..32767). *)
Definition RANDOM (g : rng) : Z * rng :=
  (Z.land (random_src g (random_pos g)) 32767,
   Rng (random_src g) (S (random_pos g)) (openssl_src g) (openssl_pos g)).

Definition hex_digit (n : N) : ascii :=
  match n with
  | 0%N => "0" | 1%N => "1" | 2%N => "2" | 3%N => "3"
  | 4%N => "4" | 5%N => "5" | 6%N => "6" | 7%N => "7"
  | 8%N => "8" | 9%N => "9" | 10%N => "a" | 11%N => "b"
  | 12%N => "c" | 13%N => "d" | 14%N => "e" | _ => "f"
  end%char.

Definition hex_byte (b : byte) : string :=
  let n := Byte.to_N b in
  String (hex_digit (n / 16)) (String (hex_digit (n mod 16)) EmptyString).

Fixpoint hex_encode (bs : list byte) : string :=
  match bs with
  | [] => EmptyString
  | b :: bs' => hex_byte b +:+ hex_encode bs'
  end.

(** The next [n] bytes of the openssl stream. *)
Definition take_bytes (n : nat) (g : rng) : list byte :=
  map (fun i => openssl_src g (openssl_pos g + i)%nat) (seq 0 n).

(** [openssl rand -hex n]: [n] fresh bytes, printed as 2n lowercase hex
    digits. *)
Definition openssl_rand_hex (n : nat) (g : rng) : string * rng :=
  (hex_encode (take_bytes n g),
   Rng (random_src g) (random_pos g) (openssl_src g) (openssl_pos g + n)%nat).

(** Value of a hex digit, used only to invert the encoding in proofs. *)
Definition hex_value (c : ascii) : N :=
  let n := Ascii.N_of_ascii c in
  if (n <? 58)%N then (n - 48)%N else (n - 87)%N.

End Shell.

(** ** The sandbox: filesystem, services, accounts *)

Module Target.
Import Php Shell.

Definition LF : string := String "010"%char EmptyString.

Record file := File {
  f_content : string;
  f_mode : Z;
}.

(** What the script and the handler can observe or change inside one
    container. *)
Record sandbox := Sandbox {
  sb_files : gmap string file;
  sb_dirs : gset string;
  sb_umask : Z;
  sb_root_password : option string;
  sb_services : gset string;
  sb_mysql : list string;
  sb_stdout : list string;
}.

Definition with_files (f : gmap string file -> gmap string file) (sb : sandbox) : sandbox :=
  Sandbox (f (sb_files sb)) (sb_dirs sb) (sb_umask sb) (sb_root_password sb)
          (sb_services sb) (sb_mysql sb) (sb_stdout sb).

(** Octal 0644 and 0666. *)
Definition mode_644 : Z := 6 * 64 + 4 * 8 + 4.
Definition mode_666 : Z := 6 * 64 + 6 * 8 + 6.

(** Mode of a file created by a redirection: 0666 without the umask bits. *)
Definition creation_mode (sb : sandbox) : Z := Z.land mode_666 (Z.lnot (sb_umask sb)).

(** [echo "line" > path]: the file holds the line and a line feed; an
    existing file keeps its mode. *)
Definition redirect (line path : string) (sb : sandbox) : sandbox :=
  let m := match sb_files sb !! path with
           | Some f => f_mode f
           | None => creation_mode sb
           end in
  with_files (fun fs => <[path := File (line +:+ LF) m]> fs) sb.

(** [echo "line" >> path]. *)
Definition redirect_append (line path : string) (sb : sandbox) : sandbox :=
  match sb_files sb !! path with
  | Some f => with_files (fun fs => <[path := File (f_content f +:+ line +:+ LF) (f_mode f)]> fs) sb
  | None => redirect line path sb
  end.

(** [chmod m path] on an existing file. *)
Definition chmod (m : Z) (path : string) (sb : sandbox) : sandbox :=
  with_files (alter (fun f => File (f_content f) m) path) sb.

Definition mkdir_p (path : string) (sb : sandbox) : sandbox :=
  Sandbox (sb_files sb) ({[path]} ∪ sb_dirs sb) (sb_umask sb) (sb_root_password sb)
          (sb_services sb) (sb_mysql sb) (sb_stdout sb).

(** [echo "root:pw" | chpasswd]. *)
Definition chpasswd_root (pw : string) (sb : sandbox) : sandbox :=
  Sandbox (sb_files sb) (sb_dirs sb) (sb_umask sb) (Some pw)
          (sb_services sb) (sb_mysql sb) (sb_stdout sb).

(** [service name start]. *)
Definition service_start (name : string) (sb : sandbox) : sandbox :=
  Sandbox (sb_files sb) (sb_dirs sb) (sb_umask sb) (sb_root_password sb)
          ({[name]} ∪ sb_services sb) (sb_mysql sb) (sb_stdout sb).

(** [mysql -e "stmt"]: the statements sent to the database, in order. *)
Definition mysql_e (stmt : string) (sb : sandbox) : sandbox :=
  Sandbox (sb_files sb) (sb_dirs sb) (sb_umask sb) (sb_root_password sb)
          (sb_services sb) (sb_mysql sb ++ [stmt]) (sb_stdout sb).

Definition echo (line : string) (sb : sandbox) : sandbox :=
  Sandbox (sb_files sb) (sb_dirs sb) (sb_umask sb) (sb_root_password sb)
          (sb_services sb) (sb_mysql sb) (sb_stdout sb ++ [line]).

(** ** The script monad: a sandbox and the random sources, threaded
    through the commands in order. Every command is taken to succeed
    (the script runs under [set -e] and stops otherwise). *)

Definition Sh (A : Type) : Type := sandbox * rng -> A * (sandbox * rng).

Definition sh_ret {A} (a : A) : Sh A := fun s => (a, s).

Definition sh_bind {A B} (c : Sh A) (k : A -> Sh B) : Sh B :=
  fun s => let r := c s in k (fst r) (snd r).

Notation "x <- c ;; k" := (sh_bind c (fun x => k))
  (at level 60, c at next level, right associativity).
Notation "c ;;; k" := (sh_bind c (fun _ => k))
  (at level 60, right associativity).

(** A command that only changes the sandbox. *)
Definition run (f : sandbox -> sandbox) : Sh unit :=
  fun s => (tt, (f (fst s), snd s)).

(** A command substitution that reads a random source. *)
Definition draw {A} (f : rng -> A * rng) : Sh A :=
  fun s => let r := f (snd s) in (fst r, (fst s, snd r)).

(** ** entrypoint.sh *)

Definition secret_path : string := "/var/www/html/admin_code.secret".
Definition flag_path : string := "/flag.txt".

Definition PASSWORDS : list string :=
  ["password"; "123456"; "dragon"; "admin"; "root"; "toor"; "letmein"; "qwerty"].

(** [${PASSWORDS[i]}]: an unset index expands to the empty string. *)
Definition array_get (arr : list string) (i : Z) : string :=
  nth (Z.to_nat i) arr EmptyString.

(** Lines 4-11: the admin code and the flag, before the profile is drawn. *)
Definition init_secrets : Sh string :=
  ADMIN_CODE <- draw (openssl_rand_hex 8) ;;
  run (redirect ADMIN_CODE secret_path) ;;;
  run (chmod mode_644 secret_path) ;;;
  run (redirect "CAPTURE THIS FLAG" flag_path) ;;;
  run (chmod mode_666 flag_path) ;;;
  sh_ret ADMIN_CODE.

(** Line 14: [PROFILE=$((1 + RANDOM % 3))]. *)
Definition profile_of (r : Z) : Z := 1 + Z.rem r 3.

Definition select_profile : Sh Z :=
  r <- draw RANDOM ;;
  sh_ret (profile_of r).

(** Lines 17-66: the [case $PROFILE] statement. *)
Definition profile_setup (ADMIN_CODE : string) (PROFILE : Z) : Sh unit :=
  match PROFILE with
  | 1%Z =>
      run (echo "Initializing Profile 1: Weak SSH") ;;;
      r <- draw RANDOM ;;
      let SELECTED_PASS := array_get PASSWORDS (Z.rem r (Z.of_nat (length PASSWORDS))) in
      run (chpasswd_root SELECTED_PASS) ;;;
      run (redirect_append "PermitRootLogin yes" "/etc/ssh/sshd_config") ;;;
      run (redirect_append "PasswordAuthentication yes" "/etc/ssh/sshd_config") ;;;
      run (service_start "ssh")
  | 2%Z =>
      run (echo "Initializing Profile 2: SQL Injection") ;;;
      run (service_start "mariadb") ;;;
      run (service_start "apache2") ;;;
      run (mysql_e "CREATE DATABASE secrets;") ;;;
      run (mysql_e "CREATE TABLE secrets.users (id INT AUTO_INCREMENT PRIMARY KEY, username VARCHAR(255), password VARCHAR(255));") ;;;
      run (mysql_e "CREATE TABLE secrets.config (key_name VARCHAR(255), value VARCHAR(255));") ;;;
      run (mysql_e ("INSERT INTO secrets.config VALUES ('admin_code', '" +:+ ADMIN_CODE +:+ "');")) ;;;
      run (mysql_e "INSERT INTO secrets.users (username, password) VALUES ('admin', 'uncrackable'), ('guest', 'guest');") ;;;
      pw <- draw (openssl_rand_hex 12) ;;
      run (chpasswd_root pw) ;;;
      run (service_start "ssh")
  | 3%Z =>
      run (echo "Initializing Profile 3: Hidden Web File") ;;;
      run (service_start "apache2") ;;;
      run (mkdir_p "/var/www/html/secret_ops") ;;;
      run (redirect ("The admin code is: " +:+ ADMIN_CODE) "/var/www/html/secret_ops/keys.txt") ;;;
      pw <- draw (openssl_rand_hex 12) ;;
      run (chpasswd_root pw) ;;;
      run (service_start "ssh")
  | _ => sh_ret tt
  end.

(** The whole script, up to the final [tail -f /dev/null] that keeps the
    container alive. It returns the admin code and the profile number. *)
Definition entrypoint : Sh (string * Z) :=
  ADMIN_CODE <- init_secrets ;;
  PROFILE <- select_profile ;;
  run (redirect ("Selected Profile: " +:+ pretty PROFILE) "/profile.info") ;;;
  profile_setup ADMIN_CODE PROFILE ;;;
  run (echo ("Container Ready. Profile " +:+ pretty PROFILE +:+ " active.")) ;;;
  sh_ret (ADMIN_CODE, PROFILE).

(** The sandbox, the admin code and the profile a run of the script
    leaves behind, started on image [img] with random sources [g]. *)
Definition provision (img : sandbox) (g : rng) : sandbox :=
  fst (snd (entrypoint (img, g))).

Definition admin_code (img : sandbox) (g : rng) : string :=
  fst (fst (entrypoint (img, g))).

Definition profile (img : sandbox) (g : rng) : Z :=
  snd (fst (entrypoint (img, g))).

(** ** admin.php *)

Record request := Request {
  POST_code : option value;
  GET_code : option value;
}.

Definition file_get_contents (path : string) (sb : sandbox) : option string :=
  f_content <$> sb_files sb !! path.

Definition file_exists (path : string) (sb : sandbox) : bool :=
  bool_decide (is_Some (sb_files sb !! path)).

(** [unlink]: the file goes away when the system permits the deletion
    ([permitted], decided by the owner and mode of the directory and the
    user the web server runs as); otherwise it returns false. *)
Definition unlink (permitted : bool) (path : string) (sb : sandbox) : bool * sandbox :=
  if permitted && file_exists path sb
  then (true, with_files (delete path) sb)
  else (false, sb).

(** The four response bodies. *)
Definition MSG_SUCCESS : string := "SUCCESS: Flag deleted. You have conquered this node.".
Definition MSG_ERROR : string := "ERROR: Could not delete flag (permission denied?)".
Definition MSG_ALREADY : string := "Flag already deleted.".
Definition MSG_DENIED : string := "Access Denied. Invalid Code.".

(** [$_POST['code'] ?? $_GET['code'] ?? '']: the code the client presents. *)
Definition presented (req : request) : value :=
  coalesce (POST_code req) (coalesce (GET_code req) (PhpString EmptyString)).

(** The handler: the response body and the sandbox after the request. *)
Definition admin_php (permitted : bool) (req : request) (sb : sandbox) : string * sandbox :=
  let code := presented req in
  (* a missing secret file reads as false, which trim turns into the
     empty string *)
  let actual_code := trim (default EmptyString (file_get_contents secret_path sb)) in
  if identical code actual_code && negb (empty code) then
    if file_exists flag_path sb then
      let r := unlink permitted flag_path sb in
      if fst r then (MSG_SUCCESS, snd r) else (MSG_ERROR, snd r)
    else (MSG_ALREADY, sb)
  else (MSG_DENIED, sb).

(** A request from outside reaches the handler only when the web server
    runs; otherwise the connection is refused. *)
Definition http_request (permitted : bool) (req : request) (sb : sandbox)
  : option (string * sandbox) :=
  if bool_decide ("apache2" ∈ sb_services sb)
  then Some (admin_php permitted req sb)
  else None.

(** A history of requests to the handler, each with the system's answer to
    the deletion; the responses in order and the final sandbox. *)
Fixpoint serve (h : list (bool * request)) (sb : sandbox) : list string * sandbox :=
  match h with
  | [] => ([], sb)
  | (permitted, req) :: h' =>
      let (resp, sb') := admin_php permitted req sb in
      let (resps, sb'') := serve h' sb' in
      (resp :: resps, sb'')
  end.

Definition flag_present (sb : sandbox) : bool := file_exists flag_path sb.

(** ** Vocabulary of the statements about the sandbox *)

(** The state and random sources after lines 4-11. *)
Definition after_init (img : sandbox) (g : rng) : sandbox * rng :=
  snd (init_secrets (img, g)).

(** The value of [$RANDOM] read on line 14, and the one read inside the
    case statement of profile 1. *)
Definition first_draw (g : rng) : Z := fst (RANDOM g).
Definition second_draw (g : rng) : Z := fst (RANDOM (snd (RANDOM g))).

Definition sshd_config_path : string := "/etc/ssh/sshd_config".
Definition keys_path : string := "/var/www/html/secret_ops/keys.txt".

(** The flag file as line 10 and 11 leave it. *)
Definition flag_file : file := File ("CAPTURE THIS FLAG" +:+ LF) mode_666.

(** The secret file of the sandbox holds the line written for [code]. *)
Definition holds_secret (code : string) (sb : sandbox) : Prop :=
  sb_files sb !! secret_path = Some (File (code +:+ LF) mode_644).

(** The request presents [code], and [code] is not the empty string. *)
Definition correct_code (code : string) (req : request) : Prop :=
  presented req = PhpString code /\ code <> EmptyString.

(** The request clears the flag: present before, gone after. *)
Definition clears (permitted : bool) (req : request) (sb : sandbox) : Prop :=
  flag_present sb = true /\ flag_present (snd (admin_php permitted req sb)) = false.

(** An outside actor who presents the admin code of the run to the
    sandbox gets an answer from the endpoint, and the flag is gone. *)
Definition endpoint_clears (img : sandbox) (g : rng) : Prop :=
  forall req, presented req = PhpString (admin_code img g) ->
    exists resp sb', http_request true req (provision img g) = Some (resp, sb') /\
                     flag_present sb' = false.

Definition is_success (resp : string) : bool := String.eqb resp MSG_SUCCESS.

(** Every value [$RANDOM] can yield, and those that select profile [k]. *)
Fixpoint count_up (n : nat) (r : Z) : list Z :=
  match n with
  | O => []
  | S n' => r :: count_up n' (r + 1)
  end.

Definition RANDOM_values : list Z := count_up (Z.to_nat 32768) 0.

Definition draws_selecting (k : Z) : list Z :=
  filter (fun r => profile_of r = k) RANDOM_values.

(** Each profile has probability exactly 1/3 over the values of
    [$RANDOM]: three times the count of its draws is the number of
    values. *)
Definition uniform_selection : Prop :=
  forall k : Z, (k = 1 \/ k = 2 \/ k = 3)%Z ->
    (3 * Z.of_nat (length (draws_selecting k)) = 32768)%Z.

(** Two runs that read different random values never bind the same
    secret: the admin codes differ, and so do the root passwords of two
    weak-credential runs. *)
Definition secrets_never_reused : Prop :=
  forall (img : sandbox) (g1 g2 : rng),
    first_draw g1 <> first_draw g2 ->
    second_draw g1 <> second_draw g2 ->
    take_bytes 8 g1 <> take_bytes 8 g2 ->
    admin_code img g1 <> admin_code img g2 /\
    (profile img g1 = 1%Z -> profile img g2 = 1%Z ->
       sb_root_password (provision img g1) <> sb_root_password (provision img g2)).

(** A bare image (no file, no service, umask 022) and fixed random
    sources, used in the examples. *)
Definition bare_image : sandbox := Sandbox ∅ ∅ 18 None ∅ [] [].

Definition fixed_rng (r1 r2 : Z) (b : byte) : rng :=
  Rng (fun i => match i with O => r1 | _ => r2 end) 0 (fun _ => b) 0.

(** Three runs on the bare image, one per profile, a second
    weak-credential run that shares no random value with the first, and
    two requests. *)
Definition run_ssh : rng := fixed_rng 0 0 x2a.
Definition run_sqli : rng := fixed_rng 1 0 x2a.
Definition run_hidden : rng := fixed_rng 2 0 x2a.
Definition run_ssh_again : rng := fixed_rng 3 8 x2b.

Definition good_request : request := Request (Some (PhpString "2a2a2a2a2a2a2a2a")) None.
Definition bad_request : request := Request None (Some (PhpString "letmein")).

End Target.

(* ===================================================================== *)
(** * Part II: the battle core                                            *)
(* ===================================================================== *)

(** The match coordinator, the action log store and the ranking updater
    are not among the sources: only the database schema that declares
    their tables is. Their definitions below follow the specification. *)

Module Core.

(** ** Data model *)

(** Modelled from the spec: the coordinator that writes [matches.status]
    is missing; the four values of [Match.status] (section 3). *)
Inductive MatchStatus := lobby | ongoing | completed | aborted.

#[global] Instance MatchStatus_eq_dec : EqDecision MatchStatus.
Proof. solve_decision. Defined.

(** The text stored in the column [status VARCHAR(20) DEFAULT 'lobby'] of
    the [matches] table. *)
Definition status_column (s : MatchStatus) : string :=
  match s with
  | lobby => "lobby"
  | ongoing => "ongoing"
  | completed => "completed"
  | aborted => "aborted"
  end.

(** The edges lobby -> ongoing -> {completed, aborted}. *)
Inductive status_edge : MatchStatus -> MatchStatus -> Prop :=
  | edge_start : status_edge lobby ongoing
  | edge_complete : status_edge ongoing completed
  | edge_abort : status_edge ongoing aborted.

Definition terminal (s : MatchStatus) : bool :=
  match s with
  | completed | aborted => true
  | lobby | ongoing => false
  end.

(** Modelled from the spec: the participant of section 3 (a row of
    [match_participants]), with the user who owns its agent. *)
Record Participant := mkParticipant {
  participantId : nat;
  agentRef : nat;
  ownerUser : nat;
  internalIP : Z;
  isAlive : bool;
}.

(** Modelled from the spec: the match of section 3 (a row of [matches]),
    with the ranking-applied marker of section 4.6. *)
Record Match := mkMatch {
  status : MatchStatus;
  winner : option nat;
  participants : list Participant;
  durationBudget : Z;
  rankingApplied : bool;
}.

(** Modelled from the spec: the totals of section 4.6 (a row of
    [user_stats]). *)
Record UserStats := mkStats {
  wins : Z;
  losses : Z;
  matchesPlayed : Z;
  rankPoints : Z;
}.

(** Modelled from the spec: the action log entry of section 3. *)
Record ActionLogEntry := mkEntry {
  entryParticipant : nat;
  sequenceNumber : nat;
  command : string;
  output : string;
  wasSuccessful : bool;
  timestamp : Z;
}.

(** What the core owns: the matches, the next match identity, every
    status written so far (match and new status, oldest first), and the
    shared user statistics. *)
Record State := mkState {
  matches : gmap nat Match;
  next_match : nat;
  status_log : list (nat * MatchStatus);
  user_stats : gmap nat UserStats;
}.

Definition initial : State := mkState ∅ 0 [] ∅.

Inductive Error := ValidationError.

Inductive Outcome :=
  | Victory (winnerId : nat)
  | Draw.

(** ** Match coordinator *)

Section Coordinator.

(** The AgentConfig provider: the user who owns an agent, or nothing for
    a reference that is not valid. *)
Variable agent_owner : nat -> option nat.

(** Rank points added on a win and on a loss; the specification leaves
    the amounts open. *)
Variables win_points loss_points : Z.

(** The duration budget [StartBattle] passes on. *)
Variable default_budget : Z.

(** Modelled from the spec: the participant records of section 3, one
    per agent reference, with the address 10.5.0.(10 + index) of section
    4.2; nothing when a reference is not valid. *)
Fixpoint enroll (index : nat) (refs : list nat) : option (list Participant) :=
  match refs with
  | [] => Some []
  | a :: refs' =>
      match agent_owner a, enroll (S index) refs' with
      | Some u, Some ps =>
          Some (mkParticipant index a u (10 + Z.of_nat index) true :: ps)
      | _, _ => None
      end
  end.

(** Modelled from the spec: the single writer of [Match.status]
    (section 4.1); every write is recorded. *)
Definition write_status (m : nat) (new : MatchStatus) (st : State) : State :=
  match matches st !! m with
  | Some r =>
      mkState (<[m := mkMatch new (winner r) (participants r) (durationBudget r)
                           (rankingApplied r)]> (matches st))
              (next_match st) (status_log st ++ [(m, new)]) (user_stats st)
  | None => st
  end.

(** Modelled from the spec: the coordinator is missing; [StartMatch] as
    section 4.1 states it. It rejects a participant count outside
    [minParticipants, maxParticipants] and any invalid agent reference;
    on accept the match is created in [lobby] and moved to [ongoing]. *)
Definition StartMatch (refs : list nat) (maxDurationBudget : Z)
    (maxParticipants minParticipants : nat) (st : State) : Error + nat * State :=
  let n := length refs in
  if (n <? minParticipants)%nat || (maxParticipants <? n)%nat then inl ValidationError
  else match enroll 0 refs with
       | None => inl ValidationError
       | Some ps =>
           let m := next_match st in
           let created :=
             mkState (<[m := mkMatch lobby None ps maxDurationBudget false]> (matches st))
                     (S m) (status_log st) (user_stats st) in
           inr (m, write_status m ongoing created)
       end.

(** Modelled from the spec: the exposed [StartBattle] of section 6, which
    starts a match with the default bounds 10 and 2. *)
Definition StartBattle (participantAgentIds : list nat) (st : State)
  : Error + nat * State :=
  StartMatch participantAgentIds default_budget 10 2 st.

(** Modelled from the spec: a terminal transition of section 4.1, taken
    only by a match that is ongoing; a terminal match is left as it is. *)
Definition conclude (m : nat) (new : MatchStatus) (w : option nat) (st : State) : State :=
  match matches st !! m with
  | Some r =>
      if decide (status r = ongoing) then
        write_status m new
          (mkState (<[m := mkMatch (status r) w (participants r) (durationBudget r)
                               (rankingApplied r)]> (matches st))
                   (next_match st) (status_log st) (user_stats st))
      else st
  | None => st
  end.

Definition alive_ids (r : Match) : list nat :=
  participantId <$> filter (fun p => isAlive p = true) (participants r).

Definition eliminate (p : nat) (ps : list Participant) : list Participant :=
  (fun q => if decide (participantId q = p)
            then mkParticipant (participantId q) (agentRef q) (ownerUser q)
                               (internalIP q) false
            else q) <$> ps.

(** Modelled from the spec: section 4.5, the first victory reported for
    an ongoing match decides it. *)
Definition ReportVictory (m p : nat) (st : State) : State :=
  match matches st !! m with
  | Some r => if bool_decide (p ∈ alive_ids r) then conclude m completed (Some p) st else st
  | None => st
  end.

(** Modelled from the spec: sections 4.1 and 4.4, a participant is
    eliminated; when none is left alive the match completes without a
    winner. *)
Definition ReportEliminated (m p : nat) (st : State) : State :=
  match matches st !! m with
  | Some r =>
      if decide (status r = ongoing) then
        let r' := mkMatch (status r) (winner r) (eliminate p (participants r))
                          (durationBudget r) (rankingApplied r) in
        let st' := mkState (<[m := r']> (matches st)) (next_match st)
                           (status_log st) (user_stats st) in
        match alive_ids r' with
        | [] => conclude m completed None st'
        | _ => st'
        end
      else st
  | None => st
  end.

(** Modelled from the spec: section 4.5, the time budget elapses with no
    victory: a draw. *)
Definition TimeBudgetElapsed (m : nat) (st : State) : State :=
  conclude m completed None st.

(** Modelled from the spec: section 7, a provisioning error aborts the
    match. *)
Definition ProvisioningFailed (m : nat) (st : State) : State :=
  conclude m aborted None st.

(** Modelled from the spec: [Abort] of section 4.1, with no effect on a
    match that is already terminal. *)
Definition Abort (m : nat) (st : State) : State :=
  conclude m aborted None st.

(** ** Ranking updater *)

Definition zero_stats : UserStats := mkStats 0 0 0 0.

(** Modelled from the spec: section 4.6, a win or a loss with its points
    for a decided match, and only a match played on a draw. *)
Definition delta (o : Outcome) (p : Participant) (s : UserStats) : UserStats :=
  match o with
  | Draw => mkStats (wins s) (losses s) (matchesPlayed s + 1) (rankPoints s)
  | Victory w =>
      if decide (participantId p = w)
      then mkStats (wins s + 1) (losses s) (matchesPlayed s + 1) (rankPoints s + win_points)
      else mkStats (wins s) (losses s + 1) (matchesPlayed s + 1) (rankPoints s + loss_points)
  end.

(** The row of the owning user, updated for one participant. *)
Definition credit (o : Outcome) (stats : gmap nat UserStats) (p : Participant)
  : gmap nat UserStats :=
  <[ownerUser p := delta o p (default zero_stats (stats !! ownerUser p))]> stats.

(** The update without the marker, for comparison. *)
Definition apply_deltas (o : Outcome) (r : Match) (stats : gmap nat UserStats)
  : gmap nat UserStats :=
  foldl (credit o) stats (participants r).

(** Modelled from the spec: the ranking updater is missing; [Apply] as
    section 4.6 states it, guarded by the per-match marker. *)
Definition Apply (m : nat) (o : Outcome) (st : State) : State :=
  match matches st !! m with
  | Some r =>
      if rankingApplied r then st
      else mkState (<[m := mkMatch (status r) (winner r) (participants r)
                                   (durationBudget r) true]> (matches st))
                   (next_match st) (status_log st)
                   (apply_deltas o r (user_stats st))
  | None => st
  end.

(** ** Operations of the core, and their runs *)

Inductive Op :=
  | OpStartMatch (refs : list nat) (budget : Z) (maxParticipants minParticipants : nat)
  | OpStartBattle (refs : list nat)
  | OpReportVictory (m p : nat)
  | OpReportEliminated (m p : nat)
  | OpTimeBudgetElapsed (m : nat)
  | OpProvisioningFailed (m : nat)
  | OpAbort (m : nat)
  | OpApply (m : nat) (o : Outcome).

Definition started (res : Error + nat * State) (st : State) : State :=
  match res with
  | inl _ => st
  | inr (_, st') => st'
  end.

Definition step (st : State) (op : Op) : State :=
  match op with
  | OpStartMatch refs budget maxP minP => started (StartMatch refs budget maxP minP st) st
  | OpStartBattle refs => started (StartBattle refs st) st
  | OpReportVictory m p => ReportVictory m p st
  | OpReportEliminated m p => ReportEliminated m p st
  | OpTimeBudgetElapsed m => TimeBudgetElapsed m st
  | OpProvisioningFailed m => ProvisioningFailed m st
  | OpAbort m => Abort m st
  | OpApply m o => Apply m o st
  end.

Definition run_ops (ops : list Op) : State := foldl step initial ops.

End Coordinator.

(** The statuses a match has had: [lobby] at creation, then every status
    written for it. *)
Definition history (m : nat) (log : list (nat * MatchStatus)) : list MatchStatus :=
  lobby :: (snd <$> filter (fun w => fst w = m) log).

(** Every two consecutive statuses are joined by an edge. *)
Fixpoint follows_edges (h : list MatchStatus) : Prop :=
  match h with
  | a :: (b :: _) as t => status_edge a b /\ follows_edges t
  | _ => True
  end.

(** The status of every stored match. *)
Definition statuses (st : State) : gmap nat MatchStatus := status <$> matches st.

(** What one operation of the core does to the statuses: nothing, one
    write along an edge, or the creation of a match that goes from lobby
    to ongoing. *)
Inductive status_step (st st' : State) : Prop :=
  | step_neutral :
      statuses st' = statuses st ->
      status_log st' = status_log st ->
      next_match st' = next_match st ->
      status_step st st'
  | step_write (m : nat) (a b : MatchStatus) :
      statuses st !! m = Some a ->
      status_edge a b ->
      statuses st' = <[m := b]> (statuses st) ->
      status_log st' = status_log st ++ [(m, b)] ->
      next_match st' = next_match st ->
      status_step st st'
  | step_start :
      statuses st' = <[next_match st := ongoing]> (statuses st) ->
      status_log st' = status_log st ++ [(next_match st, ongoing)] ->
      next_match st' = S (next_match st) ->
      status_step st st'.

(** The log is the history of the stored statuses: the statuses written
    for a stored match form a path along the edges that ends in its
    current status, and nothing was written for an identity not yet
    given out. *)
Definition coherent (st : State) : Prop :=
  (forall (m : nat) (s : MatchStatus), statuses st !! m = Some s ->
     follows_edges (history m (status_log st)) /\
     last (history m (status_log st)) = Some s) /\
  (forall m : nat, next_match st <= m ->
     statuses st !! m = None /\ history m (status_log st) = [lobby]).

(** ** Action log store *)

Definition entries_of (p : nat) (log : list ActionLogEntry) : list ActionLogEntry :=
  filter (fun e => entryParticipant e = p) log.

(** Modelled from the spec: the action log store is missing; the append
    of section 4.4, step 5: the sequence number is the count of this
    participant's prior entries plus 1. *)
Definition AppendEntry (p : nat) (cmd out : string) (ok : bool) (ts : Z)
    (log : list ActionLogEntry) : list ActionLogEntry :=
  log ++ [mkEntry p (length (entries_of p log) + 1) cmd out ok ts].

(** One append request: participant, command, output, success, time. *)
Definition append_request : Type := nat * string * string * bool * Z.

Definition append_all (reqs : list append_request) : list ActionLogEntry :=
  foldl (fun log '(p, cmd, out, ok, ts) => AppendEntry p cmd out ok ts log) [] reqs.

(** ** Sample data for the examples *)

(** Agents 0..99 exist; agent a belongs to user a / 2. *)
Definition demo_owner (a : nat) : option nat :=
  if decide (a < 100) then Some (a / 2) else None.

Definition demo_core (ops : list Op) : State := run_ops demo_owner 25 (-10) 600 ops.

(** A battle of three agents, won by the participant with index 1, then
    an abort that comes too late and the ranking delivered twice. *)
Definition demo_battle : list Op :=
  [OpStartBattle [4; 7; 9]; OpReportEliminated 0 2; OpReportVictory 0 1;
   OpAbort 0; OpApply 0 (Victory 1); OpApply 0 (Victory 1)].

(** Two participants appending at the same instants. *)
Definition demo_appends : list append_request :=
  [(1, "id", "uid=0", true, 100%Z); (2, "ls", "flag.txt", true, 100%Z);
   (1, "pwd", "/", true, 100%Z); (1, "nmap 10.5.0.11", "timeout", false, 101%Z)].

End Core.

(* ===================================================================== *)
(** * Further vocabulary for the sandbox                                  *)
(* ===================================================================== *)

Module TargetMore.
Import Php Shell Target.

(** Line 6 of admin.php: the code the handler compares against. *)
Definition actual_code (sb : sandbox) : string :=
  trim (default EmptyString (file_get_contents secret_path sb)).

(** Strings made of the characters [trim] strips. *)
Fixpoint all_trimmed (s : string) : bool :=
  match s with
  | EmptyString => true
  | String c s' => is_trimmed c && all_trimmed s'
  end.

(** The first, and the last, character of a string is not one [trim]
    strips (true of the empty string). *)
Definition first_kept (s : string) : bool :=
  match s with
  | EmptyString => true
  | String c _ => negb (is_trimmed c)
  end.

Fixpoint last_kept (s : string) : bool :=
  match s with
  | EmptyString => true
  | String c EmptyString => negb (is_trimmed c)
  | String _ s' => last_kept s'
  end.

(** The files a run that selects profile [p] writes. *)
Definition written_paths (p : Z) : list string :=
  [secret_path; flag_path; "/profile.info"] ++
  (if decide (p = 1%Z) then [sshd_config_path]
   else if decide (p = 3%Z) then [keys_path] else []).

(** The statement of profile 2 that stores the admin code. *)
Definition insert_admin_code (code : string) : string :=
  "INSERT INTO secrets.config VALUES ('admin_code', '" +:+ code +:+ "');".

(** The two lines profile 1 appends to the ssh configuration. *)
Definition sshd_lines : string :=
  "PermitRootLogin yes" +:+ LF +:+ "PasswordAuthentication yes" +:+ LF.

(** The number of requests of a history answered with the success
    message. *)
Definition successes (resps : list string) : nat :=
  length (filter (fun resp => is_success resp = true) resps).

(** A sandbox whose secret file was written by hand, with a carriage
    return and spaces around the code. *)
Definition padded_secret : sandbox :=
  Sandbox {[secret_path := File (" c0ffee" +:+ String "013"%char LF) mode_644;
            flag_path := flag_file]}
          ∅ 18 None {["apache2"]} [] [].

End TargetMore.

(* ===================================================================== *)
(** * The script with the programs it calls                               *)
(* ===================================================================== *)

(** The script again, with what the programs it calls write to the
    container's files on their own account. In [Target] these programs
    act on the account, the services and the database only; here each
    of them may also write files and directories, which are not known. *)

Module TargetPrograms.
Import Php Shell Target TargetMore.

(** The files and directories of the container. *)
Definition tree : Type := gmap string file * gset string.

(** What a program writes, creates or removes while it runs. *)
Definition effect : Type := tree -> tree.

(** The programs the script calls and that are no part of the
    repository. What each writes on its own account (chpasswd the
    account database, service the pid, socket and log files of the
    daemon, mysql through the server the data directory, openssl its
    seed file) is not known here: it is a parameter, indexed by the
    arguments of the call. *)
Record programs := Programs {
  openssl_writes : nat -> effect;
  chpasswd_writes : string -> effect;
  service_writes : string -> effect;
  mysql_writes : string -> effect;
}.

Definition writes (e : effect) (sb : sandbox) : sandbox :=
  let t := e (sb_files sb, sb_dirs sb) in
  Sandbox (fst t) (snd t) (sb_umask sb) (sb_root_password sb)
          (sb_services sb) (sb_mysql sb) (sb_stdout sb).

(** Programs that write nothing. *)
Definition silent : programs :=
  Programs (fun _ t => t) (fun _ t => t) (fun _ t => t) (fun _ t => t).

Section Script.

Variable P : programs.

(** [$(openssl rand -hex n)]. *)
Definition openssl_rand_hex_with (n : nat) : Sh string :=
  x <- draw (openssl_rand_hex n) ;;
  run (writes (openssl_writes P n)) ;;;
  sh_ret x.

(** [echo "root:pw" | chpasswd]. *)
Definition chpasswd_root_with (pw : string) : Sh unit :=
  run (chpasswd_root pw) ;;;
  run (writes (chpasswd_writes P pw)).

(** [service name start]. *)
Definition service_start_with (name : string) : Sh unit :=
  run (service_start name) ;;;
  run (writes (service_writes P name)).

(** [mysql -e "stmt"]. *)
Definition mysql_e_with (stmt : string) : Sh unit :=
  run (mysql_e stmt) ;;;
  run (writes (mysql_writes P stmt)).

(** Lines 4-11. *)
Definition init_secrets_with : Sh string :=
  ADMIN_CODE <- openssl_rand_hex_with 8 ;;
  run (redirect ADMIN_CODE secret_path) ;;;
  run (chmod mode_644 secret_path) ;;;
  run (redirect "CAPTURE THIS FLAG" flag_path) ;;;
  run (chmod mode_666 flag_path) ;;;
  sh_ret ADMIN_CODE.

(** Lines 17-66. *)
Definition profile_setup_with (ADMIN_CODE : string) (PROFILE : Z) : Sh unit :=
  match PROFILE with
  | 1%Z =>
      run (echo "Initializing Profile 1: Weak SSH") ;;;
      r <- draw RANDOM ;;
      let SELECTED_PASS := array_get PASSWORDS (Z.rem r (Z.of_nat (length PASSWORDS))) in
      chpasswd_root_with SELECTED_PASS ;;;
      run (redirect_append "PermitRootLogin yes" "/etc/ssh/sshd_config") ;;;
      run (redirect_append "PasswordAuthentication yes" "/etc/ssh/sshd_config") ;;;
      service_start_with "ssh"
  | 2%Z =>
      run (echo "Initializing Profile 2: SQL Injection") ;;;
      service_start_with "mariadb" ;;;
      service_start_with "apache2" ;;;
      mysql_e_with "CREATE DATABASE secrets;" ;;;
      mysql_e_with "CREATE TABLE secrets.users (id INT AUTO_INCREMENT PRIMARY KEY, username VARCHAR(255), password VARCHAR(255));" ;;;
      mysql_e_with "CREATE TABLE secrets.config (key_name VARCHAR(255), value VARCHAR(255));" ;;;
      mysql_e_with ("INSERT INTO secrets.config VALUES ('admin_code', '" +:+ ADMIN_CODE +:+ "');") ;;;
      mysql_e_with "INSERT INTO secrets.users (username, password) VALUES ('admin', 'uncrackable'), ('guest', 'guest');" ;;;
      pw <- openssl_rand_hex_with 12 ;;
      chpasswd_root_with pw ;;;
      service_start_with "ssh"
  | 3%Z =>
      run (echo "Initializing Profile 3: Hidden Web File") ;;;
      service_start_with "apache2" ;;;
      run (mkdir_p "/var/www/html/secret_ops") ;;;
      run (redirect ("The admin code is: " +:+ ADMIN_CODE) "/var/www/html/secret_ops/keys.txt") ;;;
      pw <- openssl_rand_hex_with 12 ;;
      chpasswd_root_with pw ;;;
      service_start_with "ssh"
  | _ => sh_ret tt
  end.

(** The whole script. *)
Definition entrypoint_with : Sh (string * Z) :=
  ADMIN_CODE <- init_secrets_with ;;
  PROFILE <- select_profile ;;
  run (redirect ("Selected Profile: " +:+ pretty PROFILE) "/profile.info") ;;;
  profile_setup_with ADMIN_CODE PROFILE ;;;
  run (echo ("Container Ready. Profile " +:+ pretty PROFILE +:+ " active.")) ;;;
  sh_ret (ADMIN_CODE, PROFILE).

Definition provision_with (img : sandbox) (g : rng) : sandbox :=
  fst (snd (entrypoint_with (img, g))).

End Script.

(** ** Vocabulary *)

(** A program that does not write, create or remove the file at [q]. *)
Definition leaves_file (q : string) (e : effect) : Prop :=
  forall t : tree, fst (e t) !! q = fst t !! q.

Definition programs_leave_file (q : string) (P : programs) : Prop :=
  (forall n, leaves_file q (openssl_writes P n)) /\
  (forall pw, leaves_file q (chpasswd_writes P pw)) /\
  (forall name, leaves_file q (service_writes P name)) /\
  (forall stmt, leaves_file q (mysql_writes P stmt)).

(** A command of the script that leaves the file at [q] as it was. *)
Definition keeps_file {A} (q : string) (c : Sh A) : Prop :=
  forall s, sb_files (fst (snd (c s))) !! q = sb_files (fst s) !! q.

Definition keeps_umask {A} (c : Sh A) : Prop :=
  forall s, sb_umask (fst (snd (c s))) = sb_umask (fst s).

(** Two sandboxes that differ in their files and directories at most. *)
Definition same_outside_tree (sb sb' : sandbox) : Prop :=
  sb_umask sb = sb_umask sb' /\ sb_root_password sb = sb_root_password sb' /\
  sb_services sb = sb_services sb' /\ sb_mysql sb = sb_mysql sb' /\
  sb_stdout sb = sb_stdout sb'.

(** Two commands that, run on such sandboxes with the same random
    sources, return the same value and leave such sandboxes and the same
    random sources. *)
Definition same_but_tree {A} (c c' : Sh A) : Prop :=
  forall s s', snd s = snd s' -> same_outside_tree (fst s) (fst s') ->
    fst (c s) = fst (c' s') /\ snd (snd (c s)) = snd (snd (c' s')) /\
    same_outside_tree (fst (snd (c s))) (fst (snd (c' s'))).

(** Two commands with the same result on every state. *)
Definition same_command {A} (c c' : Sh A) : Prop := forall s, c s = c' s.

(** Sample programs: chpasswd rewrites /etc/shadow, a service leaves a
    pid file, the database server makes its data directory. *)
Definition sample_programs : programs :=
  Programs
    (fun _ t => t)
    (fun pw t => (<["/etc/shadow" := File ("root:" +:+ pw +:+ LF) 416]> (fst t), snd t))
    (fun name t => (<["/run/" +:+ name +:+ ".pid" := File ("1" +:+ LF) mode_644]> (fst t), snd t))
    (fun _ t => (fst t, {["/var/lib/mysql/secrets"]} ∪ snd t)).

End TargetPrograms.

(* ===================================================================== *)
(** * Part III: the web client                                            *)
(* ===================================================================== *)

(** The helper [apiCall] through which every page of the front end talks
    to the API, with the pieces of the pages that read and clear the
    stored token. *)

Module Client.

(** ** JavaScript values *)

(** What a response body parses to. A number is kept as the two things
    the client can observe of it: whether it is zero, and how it prints. *)
#[warnings="-register-all"]
Inductive json :=
  | JNull
  | JBool (b : bool)
  | JNum (zero : bool) (shown : string)
  | JStr (s : string)
  | JArr (items : list json)
  | JObj (fields : list (string * json)).

(** [v.name] on an object that came from JSON.parse, for a name no
    prototype defines (such as [detail]): the last field of that name,
    or undefined. *)
Fixpoint field (name : string) (fields : list (string * json)) : option json :=
  match fields with
  | [] => None
  | (k, v) :: rest =>
      match field name rest with
      | Some later => Some later
      | None => if String.eqb k name then Some v else None
      end
  end.

(** Truthiness, [None] standing for undefined. *)
Definition truthy (v : option json) : bool :=
  match v with
  | None | Some JNull => false
  | Some (JBool b) => b
  | Some (JNum zero _) => negb zero
  | Some (JStr s) => negb (String.eqb s EmptyString)
  | Some (JArr _) | Some (JObj _) => true
  end.

Fixpoint join (sep : string) (parts : list string) : string :=
  match parts with
  | [] => EmptyString
  | [x] => x
  | x :: rest => x +:+ sep +:+ join sep rest
  end.

(** String(v): an array prints its elements separated by commas, with
    null as the empty string; an object prints as [object Object]. (An
    object that has a key toString of its own, for which the conversion
    throws instead, is outside this model.) *)
Fixpoint to_string (v : json) : string :=
  match v with
  | JNull => "null"
  | JBool true => "true"
  | JBool false => "false"
  | JNum _ shown => shown
  | JStr s => s
  | JArr items =>
      join "," (map (fun x => match x with JNull => EmptyString | _ => to_string x end) items)
  | JObj _ => "[object Object]"
  end.

(** What a promise can reject with here. *)
Inductive exn :=
  | Error (message : string)
  | TypeError_null
  | SyntaxError
  | FetchError (reason : string).

Inductive outcome :=
  | Resolved (v : json)
  | Rejected (e : exn).

(** ** The browser and the network *)

(** [localStorage] and [window.location.href]. *)
Record browser := Browser {
  storage : gmap string string;
  href : string;
}.

(** A response: its status and what [response.json()] settles to, the
    parsed body or the rejection (a SyntaxError when the body is not
    JSON). *)
Record response := Response {
  status : Z;
  body : exn + json;
}.

(** [response.ok]: a status from 200 to 299. *)
Definition ok (r : response) : bool := (200 <=? status r)%Z && (status r <=? 299)%Z.

(** The options of a call: [throwOnError], and what is handed on to
    fetch. *)
Record options := Options {
  throwOnError : option bool;
  method : option string;
  payload : option string;
  headers : option (gmap string string);
}.

Definition no_options : options := Options None None None None.

Record fetch_request := FetchRequest {
  fr_url : string;
  fr_method : option string;
  fr_payload : option string;
  fr_headers : gmap string string;
}.

(** [process.env.NEXT_PUBLIC_API_URL || "http://localhost:8000/api/v1"]. *)
Definition API_BASE_URL (configured : option string) : string :=
  match configured with
  | Some url => if String.eqb url EmptyString then "http://localhost:8000/api/v1" else url
  | None => "http://localhost:8000/api/v1"
  end.

(** [localStorage.getItem("token")] when it is set and not empty. *)
Definition stored_token (w : option browser) : option string :=
  match w with
  | Some b =>
      match storage b !! "token" with
      | Some t => if String.eqb t EmptyString then None else Some t
      | None => None
      end
  | None => None
  end.

(** ** apiCall *)

Section ApiCall.

(** The path a 401 sends the browser to: /auth/login in the current
    client, /login in the older copy. *)
Variable login_path : string.

(** NEXT_PUBLIC_API_URL, and the network: what fetch gives for a
    request, a rejection or a response. *)
Variable configured_url : option string.
Variable fetch : fetch_request -> exn + response.

(** The headers: the JSON content type, then the caller's headers over
    it, then the bearer token over both. *)
Definition call_headers (opts : options) (w : option browser) : gmap string string :=
  let headers0 : gmap string string := {["Content-Type" := "application/json"]} in
  let headers1 :=
    match headers opts with
    | Some existing => existing ∪ headers0
    | None => headers0
    end in
  match stored_token w with
  | Some token => <["Authorization" := "Bearer " +:+ token]> headers1
  | None => headers1
  end.

Definition call_request (endpoint : string) (opts : options) (w : option browser)
  : fetch_request :=
  FetchRequest (API_BASE_URL configured_url +:+ endpoint) (method opts) (payload opts)
               (call_headers opts w).

(** The 401 branch: in a browser, the token is dropped and the page
    leaves for the login path. *)
Definition on_status (r : response) (w : option browser) : option browser :=
  if (status r =? 401)%Z then
    match w with
    | Some b => Some (Browser (delete "token" (storage b)) login_path)
    | None => None
    end
  else w.

(** [throw new Error(error.detail || `HTTP ${response.status}`)], for the
    parsed body [error]; reading [detail] of null throws instead. *)
Definition error_of (error : json) (r : response) : exn :=
  match error with
  | JNull => TypeError_null
  | _ =>
      let detail := match error with
                    | JObj fields => field "detail" fields
                    | _ => None
                    end in
      if truthy detail
      then Error (match detail with Some d => to_string d | None => EmptyString end)
      else Error ("HTTP " +:+ pretty (status r))
  end.

(** The call: the promise's outcome and the browser afterwards. *)
Definition apiCall (endpoint : string) (opts : options) (w : option browser)
  : outcome * option browser :=
  let throws := default true (throwOnError opts) in
  match fetch (call_request endpoint opts w) with
  | inl e =>
      (* the catch block *)
      (if throws then Rejected e else Resolved JNull, w)
  | inr r =>
      let w' := on_status r w in
      if negb (ok r) && throws then
        let error := match body r with
                     | inr v => v
                     | inl _ => JObj [("detail", JStr "Unknown error")]
                     end in
        (* thrown inside the try, caught, and thrown again *)
        (Rejected (error_of error r), w')
      else if (status r =? 204)%Z then (Resolved JNull, w')
      else
        (* [return response.json()] is not awaited: a body that does not
           parse rejects the call, past the catch block *)
        match body r with
        | inr v => (Resolved v, w')
        | inl e => (Rejected e, w')
        end
  end.

End ApiCall.

(** ** The pages' use of the stored token *)

(** NavBar on mount: [!!token] and [user || ""]. *)
Definition navbar_state (b : browser) : bool * string :=
  (match stored_token (Some b) with Some _ => true | None => false end,
   default EmptyString (storage b !! "username")).

(** NavBar's logout. *)
Definition handleLogout (b : browser) : browser :=
  Browser (delete "username" (delete "token" (storage b))) "/".

(** The guard of the community and profile pages: without a token the
    router is sent to the login page and nothing is loaded. *)
Definition page_guard (b : browser) : option string :=
  match stored_token (Some b) with
  | Some _ => None
  | None => Some "/auth/login"
  end.

(** The login page, once the login call has resolved with a token and
    a user name: both are stored. *)
Definition store_session (token username : string) (b : browser) : browser :=
  Browser (<["username" := username]> (<["token" := token]> (storage b))) (href b).

(** A network that answers every request with the same response, and a
    browser holding a token, for the examples. *)
Definition always (r : response) : fetch_request -> exn + response := fun _ => inr r.

Definition signed_in : browser :=
  Browser {["token" := "abc.def.ghi"; "username" := "ghost_in_shell"]} "/community".

Definition quiet : options := Options (Some false) None None None.

Definition pong : response := Response 200 (inr (JObj [("status", JStr "ok")])).

Definition not_found : response :=
  Response 404 (inr (JObj [("detail", JStr "Post not found")])).

Definition bad_gateway : response := Response 502 (inl SyntaxError).

End Client.

(* ===================================================================== *)
(** * Part IV: the terminal of the home page                              *)
(* ===================================================================== *)

(** The command line of the home page: [processCommand] and the key
    handler around it. Input is ASCII text: [trim] and [toLowerCase] are
    given on ASCII characters, and the statements about them are made
    for inputs that hold no other character. *)

Module Terminal.

Definition is_ascii_char (c : ascii) : bool := (N_of_ascii c <? 128)%N.

Fixpoint is_ascii (s : string) : bool :=
  match s with
  | EmptyString => true
  | String c s' => is_ascii_char c && is_ascii s'
  end.

(** ** String methods *)

(** The ASCII characters [trim] removes: tab, line feed, vertical tab,
    form feed, carriage return and space. *)
Definition white_space (c : ascii) : bool :=
  match N_of_ascii c with
  | 9%N | 10%N | 11%N | 12%N | 13%N | 32%N => true
  | _ => false
  end.

Fixpoint trimStart (s : string) : string :=
  match s with
  | EmptyString => EmptyString
  | String c s' => if white_space c then trimStart s' else s
  end.

Fixpoint trimEnd (s : string) : string :=
  match s with
  | EmptyString => EmptyString
  | String c s' =>
      match trimEnd s' with
      | EmptyString => if white_space c then EmptyString else String c EmptyString
      | t => String c t
      end
  end.

Definition trim (s : string) : string := trimEnd (trimStart s).

(** [s.split(sep)] for a separator of one character. *)
Fixpoint split (sep : ascii) (s : string) : list string :=
  match s with
  | EmptyString => [EmptyString]
  | String c s' =>
      if Ascii.eqb c sep then EmptyString :: split sep s'
      else match split sep s' with
           | w :: ws => String c w :: ws
           | [] => [String c EmptyString]
           end
  end.

(** [Boolean] on a string: false on the empty string only. *)
Definition Boolean (s : string) : bool := negb (String.eqb s EmptyString).

Definition lower (c : ascii) : ascii :=
  let n := N_of_ascii c in
  if ((65 <=? n) && (n <=? 90))%N then ascii_of_N (n + 32) else c.

Fixpoint toLowerCase (s : string) : string :=
  match s with
  | EmptyString => EmptyString
  | String c s' => String (lower c) (toLowerCase s')
  end.

(** [s.replace(/\/$/, "")]: one slash at the very end is dropped. *)
Fixpoint replace_trailing_slash (s : string) : string :=
  match s with
  | EmptyString => EmptyString
  | String c EmptyString => if Ascii.eqb c "/" then EmptyString else s
  | String c s' => String c (replace_trailing_slash s')
  end.

Definition includes (items : list string) (x : string) : bool :=
  existsb (String.eqb x) items.

(** ** processCommand *)

Definition availablePages : list string :=
  ["play"; "community"; "leaderboard"; "profile"; "login"; "register"].

Definition dinosaur : list string :=
  ["               __ ";
   "              / _)";
   "     _/\/\/\_/ /  ";
   "   _|         /   ";
   " _|  (  | (  |    ";
   "/__.-'|_|--|_|    "].

(** The React node a command gives, one constructor for each element
    the function returns:
    - [Help]: the list of commands;
    - [Listing]: the pages, each followed by a slash;
    - [AtHome]: already at home directory;
    - [Navigating t]: navigating to /t...;
    - [PermissionDenied]: permission denied;
    - [NoSuchDirectory t]: cd: t: No such file or directory;
    - [Whoami]: guest_user;
    - [Art]: the dinosaur, its lines joined by line feeds;
    - [NotFound c]: c: command not found. Type 'help' to see available
      commands. *)
Inductive node :=
  | Help
  | Listing (pages : list string)
  | AtHome
  | Navigating (cleanTarget : string)
  | PermissionDenied
  | NoSuchDirectory (target : string)
  | Whoami
  | Art (lines : string)
  | NotFound (command : string).

(** A call returns an element or null, having pushed at most one route
    to the router; or it throws (reading [toLowerCase] of undefined). *)
Inductive result :=
  | Threw
  | Returned (element : option node) (pushed : option string).

Definition processCommand (cmdStr : string) : result :=
  let trimmed := trim cmdStr in
  if negb (Boolean trimmed) then Returned None None
  else
    let args := filter (fun a => Boolean a = true) (split " " trimmed) in
    match args with
    | [] => Threw
    | first :: rest =>
        let command := toLowerCase first in
        if String.eqb command "help" then Returned (Some Help) None
        else if String.eqb command "ls" then Returned (Some (Listing availablePages)) None
        else if String.eqb command "cd" then
          match rest with
          | [] => Returned (Some AtHome) None
          | target :: _ =>
              if negb (Boolean target) || String.eqb target "~"
              then Returned (Some AtHome) None
              else
                let cleanTarget := replace_trailing_slash target in
                if includes availablePages cleanTarget
                then Returned (Some (Navigating cleanTarget)) (Some ("/" +:+ cleanTarget))
                else if String.eqb cleanTarget ".."
                then Returned (Some PermissionDenied) None
                else Returned (Some (NoSuchDirectory target)) None
          end
        else if String.eqb command "whoami" then Returned (Some Whoami) None
        else if String.eqb command "rawr"
        then Returned (Some (Art (Client.join Target.LF dinosaur))) None
        else Returned (Some (NotFound command)) None
    end.

(** ** The key handler *)

Record HistoryItem := Item {
  command : string;
  output : option node;
}.

(** The state of the component: the history shown and the text in the
    input line. *)
Record terminal := Terminal {
  history : list HistoryItem;
  input : string;
}.

Definition initial : terminal := Terminal [] EmptyString.

(** A handler finishes with the next state and the route pushed, if
    any; or it throws, and no state is set. *)
Inductive handled :=
  | Crashed
  | Done (t : terminal) (pushed : option string).

Definition handleKeyDown (key : string) (t : terminal) : handled :=
  if String.eqb key "Enter" then
    let trimmedInput := trim (input t) in
    if String.eqb (toLowerCase trimmedInput) "clear" then
      Done (Terminal [] EmptyString) None
    else if Boolean trimmedInput then
      match processCommand trimmedInput with
      | Threw => Crashed
      | Returned output pushed =>
          Done (Terminal (history t ++ [Item (input t) output]) EmptyString) pushed
      end
    else Done (Terminal (history t) EmptyString) None
  else Done t None.

(** The input line's [onChange]. *)
Definition onChange (value : string) (t : terminal) : handled :=
  Done (Terminal (history t) value) None.

Inductive event :=
  | Change (value : string)
  | KeyDown (key : string).

Definition handle (ev : event) (t : terminal) : handled :=
  match ev with
  | Change value => onChange value t
  | KeyDown key => handleKeyDown key t
  end.

(** A session: the events in order, with the routes pushed so far;
    nothing when a handler threw. *)
Fixpoint run (events : list event) (t : terminal) (routes : list string)
  : option (terminal * list string) :=
  match events with
  | [] => Some (t, routes)
  | ev :: rest =>
      match handle ev t with
      | Crashed => None
      | Done t' pushed => run rest t' (routes ++ option_list pushed)
      end
  end.

(** ** Vocabulary of the statements *)

Definition ascii_event (ev : event) : bool :=
  match ev with
  | Change value => is_ascii value
  | KeyDown _ => true
  end.

Fixpoint all_white_space (s : string) : bool :=
  match s with
  | EmptyString => true
  | String c s' => white_space c && all_white_space s'
  end.

(** The first character is kept by [trim]; the last one is. *)
Definition first_visible (s : string) : bool :=
  match s with
  | EmptyString => false
  | String c _ => negb (white_space c)
  end.

Fixpoint last_visible (s : string) : bool :=
  match s with
  | EmptyString => false
  | String c EmptyString => negb (white_space c)
  | String _ s' => last_visible s'
  end.

Fixpoint no_space (s : string) : bool :=
  match s with
  | EmptyString => true
  | String c s' => negb (Ascii.eqb c " ") && no_space s'
  end.

(** The routes of the pages. *)
Definition page_routes : list string := map (fun page => "/" +:+ page) availablePages.

(** An item of the history as the handler builds them: the command is
    not blank and is not the clear command, and the output is the
    element [processCommand] returns for it, never null. *)
Definition item_shown (it : HistoryItem) : Prop :=
  Boolean (trim (command it)) = true /\
  toLowerCase (trim (command it)) <> "clear" /\
  output it <> None /\
  exists pushed : option string, processCommand (command it) = Returned (output it) pushed.

(** [n] spaces. *)
Fixpoint spaces (n : nat) : string :=
  match n with
  | O => EmptyString
  | S n' => String " " (spaces n')
  end.

(** The words of an input: what [processCommand] calls args. *)
Definition words (s : string) : list string :=
  filter (fun a => Boolean a = true) (split " " (trim s)).

(** Typing a line and pressing Enter. *)
Definition enter (line : string) : list event := [Change line; KeyDown "Enter"].

(** A session at the terminal, and a terminal with a line typed, for
    the examples. *)
Definition demo_session : list event :=
  enter "help" ++ enter " CD   leaderboard/ " ++ enter "clear" ++
  enter "   " ++ enter "clear now" ++ [KeyDown "Escape"] ++ enter "cd ..".

Definition typed_clear : terminal :=
  Terminal [Item "ls" (Some (Listing availablePages))] " CLEAR ".

End Terminal.

(* ===================================================================== *)
(** * Facts about the sandbox                                             *)
(* ===================================================================== *)

Module TargetFacts.
Import Php Shell Target.

(** *** Hex encoding *)

Lemma hex_digit_kept (n : N) : is_trimmed (hex_digit n) = false.
Proof.
  destruct n as [|p]; [reflexivity|].
  do 5 (destruct p as [p|p|]; try reflexivity).
Qed.

Lemma hex_encode_cons (b : byte) (bs : list byte) :
  hex_encode (b :: bs) =
  String (hex_digit (Byte.to_N b / 16))
         (String (hex_digit (Byte.to_N b mod 16)) (hex_encode bs)).
Proof. reflexivity. Qed.

Lemma hex_byte_inv (b : byte) :
  Byte.of_N (16 * hex_value (hex_digit (Byte.to_N b / 16))
             + hex_value (hex_digit (Byte.to_N b mod 16))) = Some b.
Proof. destruct b; reflexivity. Qed.

Lemma hex_encode_inj (bs1 bs2 : list byte) :
  length bs1 = length bs2 -> hex_encode bs1 = hex_encode bs2 -> bs1 = bs2.
Proof.
  revert bs2; induction bs1 as [|b1 bs1 IH]; intros [|b2 bs2] Hlen Heq;
    try discriminate; [reflexivity|].
  rewrite !hex_encode_cons in Heq.
  injection Heq as Hhi Hlo Hrest.
  assert (Some b1 = Some b2) as Hb.
  { rewrite <- (hex_byte_inv b1), <- (hex_byte_inv b2), Hhi, Hlo. reflexivity. }
  injection Hb as ->. f_equal. apply IH; [|assumption].
  simpl in Hlen. congruence.
Qed.

Lemma hex_encode_length (bs : list byte) :
  String.length (hex_encode bs) = (2 * length bs)%nat.
Proof.
  induction bs as [|b bs IH]; [reflexivity|].
  rewrite hex_encode_cons. simpl. rewrite IH. lia.
Qed.

(** *** [trim] and [empty] on an encoded secret *)

Lemma append_cons (c : ascii) (s t : string) :
  String c s +:+ t = String c (s +:+ t).
Proof. reflexivity. Qed.

Lemma rtrim_kept (c : ascii) (s : string) :
  is_trimmed c = false -> rtrim (String c s) = String c (rtrim s).
Proof.
  intros Hc. simpl. destruct (rtrim s); [rewrite Hc|]; reflexivity.
Qed.

Lemma rtrim_hex_line (bs : list byte) :
  rtrim (hex_encode bs +:+ LF) = hex_encode bs.
Proof.
  induction bs as [|b bs IH]; [reflexivity|].
  rewrite hex_encode_cons, !append_cons.
  rewrite !rtrim_kept by apply hex_digit_kept.
  rewrite IH. reflexivity.
Qed.

Lemma ltrim_hex_line (bs : list byte) :
  ltrim (hex_encode bs +:+ LF) = match bs with [] => EmptyString | _ => hex_encode bs +:+ LF end.
Proof.
  destruct bs as [|b bs]; [reflexivity|].
  rewrite hex_encode_cons, !append_cons. cbn [ltrim].
  rewrite hex_digit_kept. reflexivity.
Qed.

(** The secret file holds the code and a line feed; [trim] gives the code
    back. *)
Lemma trim_hex_line (bs : list byte) : trim (hex_encode bs +:+ LF) = hex_encode bs.
Proof.
  unfold trim. rewrite ltrim_hex_line.
  destruct bs; [reflexivity|]. apply rtrim_hex_line.
Qed.

Lemma hex_not_empty (b : byte) (bs : list byte) :
  empty (PhpString (hex_encode (b :: bs))) = false.
Proof.
  rewrite hex_encode_cons. cbn [empty String.eqb orb].
  destruct (Ascii.eqb _ _); reflexivity.
Qed.

Lemma identical_spec (v : value) (s : string) :
  identical v s = true <-> v = PhpString s.
Proof.
  destruct v as [t|items]; simpl.
  - rewrite String.eqb_eq. split; congruence.
  - split; discriminate.
Qed.

(** *** The profile drawn *)

Lemma RANDOM_range (g : rng) : (0 <= fst (RANDOM g) < 32768)%Z.
Proof.
  unfold RANDOM; simpl.
  change 32767%Z with (Z.ones 15). rewrite Z.land_ones by lia.
  apply Z.mod_pos_bound. reflexivity.
Qed.

Lemma profile_of_cases (r : Z) :
  (0 <= r)%Z -> profile_of r = 1%Z \/ profile_of r = 2%Z \/ profile_of r = 3%Z.
Proof.
  intros Hr. unfold profile_of.
  pose proof (Z.rem_bound_pos r 3 Hr ltac:(lia)). lia.
Qed.

(** The case statement runs a branch only for 1, 2 and 3. *)
Lemma profile_setup_other (code : string) (p : Z) :
  p <> 1%Z -> p <> 2%Z -> p <> 3%Z -> profile_setup code p = sh_ret tt.
Proof.
  intros H1 H2 H3. destruct p as [|p|p]; try reflexivity.
  do 3 (destruct p as [p|p|]; try reflexivity; try congruence).
Qed.

(** *** The script, step by step *)

Lemma init_secrets_code img g :
  fst (init_secrets (img, g)) = hex_encode (take_bytes 8 g).
Proof. reflexivity. Qed.

Lemma admin_code_eq img g : admin_code img g = hex_encode (take_bytes 8 g).
Proof. reflexivity. Qed.

Lemma profile_eq img g : profile img g = profile_of (first_draw g).
Proof. reflexivity. Qed.

Lemma profile_cases img g :
  profile img g = 1%Z \/ profile img g = 2%Z \/ profile img g = 3%Z.
Proof. rewrite profile_eq. apply profile_of_cases, RANDOM_range. Qed.

Lemma provision_eq img g :
  provision img g =
  let s1 := after_init img g in
  let s2 := snd (draw RANDOM s1) in
  let p := profile img g in
  let s3 := (redirect ("Selected Profile: " +:+ pretty p) "/profile.info" (fst s2), snd s2) in
  let s4 := snd (profile_setup (admin_code img g) p s3) in
  echo ("Container Ready. Profile " +:+ pretty p +:+ " active.") (fst s4).
Proof. reflexivity. Qed.

(** *** Files written by the script *)

Lemma lookup_redirect line path sb q :
  sb_files (redirect line path sb) !! q =
  if decide (path = q)
  then Some (File (line +:+ LF)
               (match sb_files sb !! path with
                | Some f => f_mode f
                | None => creation_mode sb
                end))
  else sb_files sb !! q.
Proof. unfold redirect, with_files. cbn [sb_files]. apply lookup_insert. Qed.

Lemma lookup_redirect_append_ne line path sb q :
  path <> q -> sb_files (redirect_append line path sb) !! q = sb_files sb !! q.
Proof.
  intros Hne. unfold redirect_append.
  destruct (sb_files sb !! path).
  - unfold with_files. cbn [sb_files]. apply lookup_insert_ne, Hne.
  - rewrite lookup_redirect. destruct (decide (path = q)); [contradiction|reflexivity].
Qed.

Lemma lookup_chmod m path sb q :
  sb_files (chmod m path sb) !! q =
  if decide (path = q)
  then (fun f => File (f_content f) m) <$> sb_files sb !! path
  else sb_files sb !! q.
Proof.
  unfold chmod, with_files. cbn [sb_files]. rewrite lookup_alter.
  destruct (decide (path = q)) as [->|]; reflexivity.
Qed.

Lemma after_init_flag img g :
  sb_files (fst (after_init img g)) !! flag_path = Some flag_file.
Proof.
  unfold after_init, init_secrets, sh_bind, run, draw, sh_ret. cbn [fst snd].
  rewrite lookup_chmod, decide_True by reflexivity.
  rewrite lookup_redirect, decide_True by reflexivity.
  reflexivity.
Qed.

Lemma after_init_secret img g :
  sb_files (fst (after_init img g)) !! secret_path =
  Some (File (admin_code img g +:+ LF) mode_644).
Proof.
  unfold after_init, init_secrets, sh_bind, run, draw, sh_ret. cbn [fst snd].
  rewrite lookup_chmod, decide_False by discriminate.
  rewrite lookup_redirect, decide_False by discriminate.
  rewrite lookup_chmod, decide_True by reflexivity.
  rewrite lookup_redirect, decide_True by reflexivity.
  reflexivity.
Qed.

Lemma after_init_services img g :
  sb_services (fst (after_init img g)) = sb_services img.
Proof. reflexivity. Qed.

Lemma bind_run {B} (f : sandbox -> sandbox) (k : Sh B) (s : sandbox * rng) :
  (run f ;;; k) s = k (f (fst s), snd s).
Proof. reflexivity. Qed.

Lemma bind_draw {A B} (f : rng -> A * rng) (k : A -> Sh B) (s : sandbox * rng) :
  (x <- draw f ;; k x) s = k (fst (f (snd s))) (fst s, snd (f (snd s))).
Proof. reflexivity. Qed.

Lemma run_state (f : sandbox -> sandbox) (s : sandbox * rng) :
  snd (run f s) = (f (fst s), snd s).
Proof. reflexivity. Qed.

(** What each command leaves alone. *)
Lemma files_service_start n sb : sb_files (service_start n sb) = sb_files sb.
Proof. reflexivity. Qed.
Lemma files_chpasswd_root pw sb : sb_files (chpasswd_root pw sb) = sb_files sb.
Proof. reflexivity. Qed.
Lemma files_mysql_e q sb : sb_files (mysql_e q sb) = sb_files sb.
Proof. reflexivity. Qed.
Lemma files_echo l sb : sb_files (echo l sb) = sb_files sb.
Proof. reflexivity. Qed.
Lemma files_mkdir_p d sb : sb_files (mkdir_p d sb) = sb_files sb.
Proof. reflexivity. Qed.

Lemma services_service_start n sb :
  sb_services (service_start n sb) = {[n]} ∪ sb_services sb.
Proof. reflexivity. Qed.
Lemma services_chpasswd_root pw sb : sb_services (chpasswd_root pw sb) = sb_services sb.
Proof. reflexivity. Qed.
Lemma services_mysql_e q sb : sb_services (mysql_e q sb) = sb_services sb.
Proof. reflexivity. Qed.
Lemma services_echo l sb : sb_services (echo l sb) = sb_services sb.
Proof. reflexivity. Qed.
Lemma services_mkdir_p d sb : sb_services (mkdir_p d sb) = sb_services sb.
Proof. reflexivity. Qed.
Lemma services_redirect l path sb : sb_services (redirect l path sb) = sb_services sb.
Proof. reflexivity. Qed.
Lemma services_redirect_append l path sb :
  sb_services (redirect_append l path sb) = sb_services sb.
Proof. unfold redirect_append. destruct (sb_files sb !! path); reflexivity. Qed.

Lemma password_service_start n sb :
  sb_root_password (service_start n sb) = sb_root_password sb.
Proof. reflexivity. Qed.
Lemma password_chpasswd_root pw sb : sb_root_password (chpasswd_root pw sb) = Some pw.
Proof. reflexivity. Qed.
Lemma password_echo l sb : sb_root_password (echo l sb) = sb_root_password sb.
Proof. reflexivity. Qed.
Lemma password_redirect_append l path sb :
  sb_root_password (redirect_append l path sb) = sb_root_password sb.
Proof. unfold redirect_append. destruct (sb_files sb !! path); reflexivity. Qed.

Create Rewrite HintDb sandbox.
#[local] Hint Rewrite files_service_start files_chpasswd_root files_mysql_e
  files_echo files_mkdir_p services_service_start services_chpasswd_root
  services_mysql_e services_echo services_mkdir_p services_redirect
  services_redirect_append password_service_start password_chpasswd_root
  password_echo password_redirect_append : sandbox.

(** Run a branch of the script one command at a time. *)
Ltac script_step :=
  lazymatch goal with
  | |- context [sh_bind (run _) _ _] => rewrite bind_run
  | |- context [sh_bind (draw _) _ _] => rewrite bind_draw
  end.

Ltac script_steps :=
  cbv beta iota;
  repeat (script_step; cbn [fst snd]);
  lazymatch goal with
  | |- context [snd (run _ _)] => rewrite run_state; cbn [fst snd]
  | _ => idtac
  end;
  autorewrite with sandbox.

(** The case statement writes no file but the ssh configuration
    (profile 1) and the hidden key file (profile 3). *)
Lemma profile_setup_files code p s q :
  q <> sshd_config_path -> q <> keys_path ->
  sb_files (fst (snd (profile_setup code p s))) !! q = sb_files (fst s) !! q.
Proof.
  intros Hssh Hkeys.
  destruct (decide (p = 1%Z)) as [->|H1];
    [|destruct (decide (p = 2%Z)) as [->|H2];
      [|destruct (decide (p = 3%Z)) as [->|H3]]].
  - unfold profile_setup. script_steps.
    rewrite !lookup_redirect_append_ne by (intros <-; apply Hssh; reflexivity).
    reflexivity.
  - unfold profile_setup. script_steps. reflexivity.
  - unfold profile_setup. script_steps.
    rewrite lookup_redirect, decide_False by (intros <-; apply Hkeys; reflexivity).
    reflexivity.
  - rewrite profile_setup_other by assumption. reflexivity.
Qed.

Lemma profile_setup_services code p s :
  sb_services (fst (snd (profile_setup code p s))) =
  if decide (p = 1%Z) then {["ssh"]} ∪ sb_services (fst s)
  else if decide (p = 2%Z)
       then {["ssh"]} ∪ ({["apache2"]} ∪ ({["mariadb"]} ∪ sb_services (fst s)))
  else if decide (p = 3%Z) then {["ssh"]} ∪ ({["apache2"]} ∪ sb_services (fst s))
  else sb_services (fst s).
Proof.
  destruct (decide (p = 1%Z)) as [->|H1];
    [|destruct (decide (p = 2%Z)) as [->|H2];
      [|destruct (decide (p = 3%Z)) as [->|H3]]].
  - unfold profile_setup. script_steps. reflexivity.
  - unfold profile_setup. script_steps. reflexivity.
  - unfold profile_setup. script_steps. reflexivity.
  - rewrite profile_setup_other by assumption. reflexivity.
Qed.

Lemma provision_files img g q :
  q <> sshd_config_path -> q <> keys_path -> q <> "/profile.info" ->
  sb_files (provision img g) !! q = sb_files (fst (after_init img g)) !! q.
Proof.
  intros Hssh Hkeys Hinfo. rewrite provision_eq. cbv zeta.
  rewrite files_echo.
  rewrite profile_setup_files by assumption. cbn [fst].
  rewrite lookup_redirect, decide_False by (intros <-; apply Hinfo; reflexivity).
  reflexivity.
Qed.

Lemma provision_flag img g : sb_files (provision img g) !! flag_path = Some flag_file.
Proof. rewrite provision_files by discriminate. apply after_init_flag. Qed.

Lemma provision_secret img g :
  sb_files (provision img g) !! secret_path =
  Some (File (admin_code img g +:+ LF) mode_644).
Proof. rewrite provision_files by discriminate. apply after_init_secret. Qed.

Lemma provision_services img g :
  sb_services (provision img g) =
  if decide (profile img g = 1%Z) then {["ssh"]} ∪ sb_services img
  else if decide (profile img g = 2%Z)
       then {["ssh"]} ∪ ({["apache2"]} ∪ ({["mariadb"]} ∪ sb_services img))
  else {["ssh"]} ∪ ({["apache2"]} ∪ sb_services img).
Proof.
  rewrite provision_eq. cbv zeta. rewrite services_echo.
  rewrite profile_setup_services. cbn [fst]. rewrite services_redirect.
  destruct (decide (profile img g = 1%Z)); [reflexivity|].
  destruct (decide (profile img g = 2%Z)); [reflexivity|].
  destruct (decide (profile img g = 3%Z)); [reflexivity|].
  pose proof (profile_cases img g). lia.
Qed.

Lemma provision_password img g :
  profile img g = 1%Z ->
  sb_root_password (provision img g) =
  Some (array_get PASSWORDS (Z.rem (second_draw g) 8)).
Proof.
  intros Hp. rewrite provision_eq. cbv zeta. rewrite Hp.
  rewrite password_echo.
  unfold profile_setup. script_steps. reflexivity.
Qed.

(** *** The handler on a provisioned secret *)

Lemma admin_php_provisioned permitted req sb b bs :
  holds_secret (hex_encode (b :: bs)) sb ->
  admin_php permitted req sb =
  if decide (presented req = PhpString (hex_encode (b :: bs))) then
    if flag_present sb then
      if permitted then (MSG_SUCCESS, with_files (delete flag_path) sb)
      else (MSG_ERROR, sb)
    else (MSG_ALREADY, sb)
  else (MSG_DENIED, sb).
Proof.
  intros Hsec. unfold admin_php, file_get_contents. rewrite Hsec.
  cbn [fmap option_fmap option_map from_option f_content]. unfold id.
  rewrite trim_hex_line.
  destruct (decide (presented req = PhpString (hex_encode (b :: bs)))) as [Heq|Hne].
  - rewrite Heq, hex_not_empty.
    rewrite (proj2 (identical_spec _ _)) by reflexivity. cbn [andb negb].
    unfold flag_present, unlink.
    destruct (file_exists flag_path sb); [|reflexivity].
    destruct permitted; reflexivity.
  - destruct (identical (presented req) _) eqn:Hid; [|reflexivity].
    apply identical_spec in Hid. contradiction.
Qed.

Lemma flag_present_deleted sb : flag_present (with_files (delete flag_path) sb) = false.
Proof.
  unfold flag_present, file_exists, with_files. cbn [sb_files].
  rewrite lookup_delete_eq. apply bool_decide_eq_false. intros [? ?]; discriminate.
Qed.

Lemma holds_secret_deleted code sb :
  holds_secret code sb -> holds_secret code (with_files (delete flag_path) sb).
Proof.
  unfold holds_secret, with_files. cbn [sb_files]. intros H.
  rewrite lookup_delete_ne by discriminate. exact H.
Qed.

Lemma flag_present_true sb :
  flag_present sb = true <-> is_Some (sb_files sb !! flag_path).
Proof. unfold flag_present, file_exists. apply bool_decide_eq_true. Qed.

(** One request keeps the secret, and never brings the flag back. *)
Lemma admin_php_keeps permitted req sb b bs :
  holds_secret (hex_encode (b :: bs)) sb ->
  holds_secret (hex_encode (b :: bs)) (snd (admin_php permitted req sb)) /\
  (flag_present sb = false -> flag_present (snd (admin_php permitted req sb)) = false).
Proof.
  intros Hsec. rewrite (admin_php_provisioned _ _ _ _ _ Hsec).
  destruct (decide _); [|split; [exact Hsec|auto]].
  destruct (flag_present sb) eqn:Hf; [|split; [exact Hsec|auto]].
  destruct permitted; cbn [snd].
  - split; [apply holds_secret_deleted, Hsec|discriminate].
  - split; [exact Hsec|discriminate].
Qed.

Lemma serve_cons permitted req h sb :
  serve ((permitted, req) :: h) sb =
  (fst (admin_php permitted req sb) :: fst (serve h (snd (admin_php permitted req sb))),
   snd (serve h (snd (admin_php permitted req sb)))).
Proof.
  cbn [serve]. destruct (admin_php permitted req sb) as [resp sb']. cbn [fst snd].
  destruct (serve h sb') as [resps sb'']. reflexivity.
Qed.

Lemma serve_keeps h sb b bs :
  holds_secret (hex_encode (b :: bs)) sb ->
  holds_secret (hex_encode (b :: bs)) (snd (serve h sb)) /\
  (flag_present sb = false -> flag_present (snd (serve h sb)) = false).
Proof.
  revert sb; induction h as [|[permitted req] h IH]; intros sb Hsec.
  - split; [exact Hsec|auto].
  - rewrite serve_cons. cbn [snd].
    destruct (admin_php_keeps permitted req sb b bs Hsec) as [Hsec' Hflag'].
    destruct (IH _ Hsec') as [Hsec'' Hflag'']. split; auto.
Qed.

Lemma take_bytes_length n g : length (take_bytes n g) = n.
Proof. unfold take_bytes. rewrite length_map, length_seq. reflexivity. Qed.

Lemma take_bytes_8 g : exists b bs, take_bytes 8 g = b :: bs.
Proof. eexists _, _. reflexivity. Qed.

Lemma provision_holds_secret img g : holds_secret (admin_code img g) (provision img g).
Proof. apply provision_secret. Qed.

End TargetFacts.

(* ===================================================================== *)
(** * Statements about the sandbox                                        *)
(* ===================================================================== *)

Module TargetClaims.
Import Php Shell Target TargetFacts.

Lemma serve_flag h sb b bs :
  holds_secret (hex_encode (b :: bs)) sb ->
  flag_present (snd (serve h sb)) =
  flag_present sb && negb (existsb is_success (fst (serve h sb))).
Proof.
  revert sb; induction h as [|[permitted req] h IH]; intros sb Hsec.
  - cbn [serve fst snd existsb negb]. rewrite andb_true_r. reflexivity.
  - rewrite serve_cons. cbn [fst snd existsb].
    destruct (admin_php_keeps permitted req sb b bs Hsec) as [Hsec' _].
    rewrite (IH _ Hsec').
    rewrite (admin_php_provisioned _ _ _ _ _ Hsec).
    destruct (decide _); [|reflexivity].
    destruct (flag_present sb) eqn:Hf; [|cbn [fst snd]; rewrite Hf; reflexivity].
    destruct permitted; cbn [fst snd].
    + rewrite flag_present_deleted. reflexivity.
    + rewrite Hf. reflexivity.
Qed.

(** C10: every run of the provisioning script leaves the flag file in
    place. Lines 10-11 write it, with the fixed content and mode 0666
    (the write bit for others is set), before the profile is drawn; the
    run then takes one of the three profiles, and none of them touches
    the file. Under any history of requests to the verification handler
    the flag is present exactly as long as no request was answered with
    the success message. *)
Theorem flag_initialised (img : sandbox) (g : rng) :
  sb_files (fst (after_init img g)) !! flag_path = Some flag_file /\
  (profile img g = 1 \/ profile img g = 2 \/ profile img g = 3)%Z /\
  sb_files (provision img g) !! flag_path = Some flag_file /\
  f_content flag_file = "CAPTURE THIS FLAG" +:+ LF /\
  f_mode flag_file = 438%Z /\
  Z.testbit (f_mode flag_file) 1 = true /\
  forall h : list (bool * request),
    flag_present (snd (serve h (provision img g))) =
    negb (existsb is_success (fst (serve h (provision img g)))).
Proof.
  split; [apply after_init_flag|].
  split; [apply profile_cases|].
  split; [apply provision_flag|].
  do 3 (split; [reflexivity|]).
  intros h. destruct (take_bytes_8 g) as (b & bs & Hbs).
  pose proof (provision_holds_secret img g) as Hsec.
  rewrite admin_code_eq, Hbs in Hsec.
  rewrite (serve_flag h _ b bs Hsec).
  replace (flag_present (provision img g)) with true; [reflexivity|].
  symmetry. apply flag_present_true. rewrite provision_flag. eauto.
Qed.

(** States the handler can be in: provisioned, then any requests. *)
Lemma reachable_holds_secret img g h :
  exists b bs, admin_code img g = hex_encode (b :: bs) /\
    holds_secret (hex_encode (b :: bs)) (snd (serve h (provision img g))).
Proof.
  destruct (take_bytes_8 g) as (b & bs & Hbs). exists b, bs.
  rewrite admin_code_eq, Hbs. split; [reflexivity|].
  apply serve_keeps. rewrite <- Hbs, <- (admin_code_eq img). apply provision_holds_secret.
Qed.

Lemma admin_code_nonempty img g : admin_code img g <> EmptyString.
Proof.
  destruct (take_bytes_8 g) as (b & bs & Hbs).
  rewrite admin_code_eq, Hbs, hex_encode_cons. discriminate.
Qed.

(** C1 (as amended): on every sandbox the script provisioned, after any
    history of requests, one request to the handler clears the flag if
    and only if the flag is present, the presented code is the admin
    code (which is never empty), and the system permits the deletion.
    The response is the success message in that case, the error message
    with the flag left in place when the deletion is refused, the
    already-deleted message when the flag is gone, and the denial with
    the sandbox unchanged for every other presented code. *)
Theorem verification_outcome (img : sandbox) (g : rng)
    (h : list (bool * request)) (permitted : bool) (req : request) :
  let code := admin_code img g in
  let sb := snd (serve h (provision img g)) in
  (clears permitted req sb <->
     flag_present sb = true /\ correct_code code req /\ permitted = true) /\
  admin_php permitted req sb =
    (if decide (presented req = PhpString code) then
       if flag_present sb then
         if permitted then (MSG_SUCCESS, with_files (delete flag_path) sb)
         else (MSG_ERROR, sb)
       else (MSG_ALREADY, sb)
     else (MSG_DENIED, sb)) /\
  (~ correct_code code req -> admin_php permitted req sb = (MSG_DENIED, sb)) /\
  code <> EmptyString.
Proof.
  intros code sb.
  destruct (reachable_holds_secret img g h) as (b & bs & Hcode & Hsec).
  fold code in Hcode. fold sb in Hsec.
  assert (Hne : code <> EmptyString) by apply admin_code_nonempty.
  pose proof (admin_php_provisioned permitted req sb b bs Hsec) as Hphp.
  rewrite <- Hcode in Hphp.
  split; [|split; [exact Hphp|split; [|exact Hne]]];
    [|intros Hwrong; rewrite Hphp; rewrite decide_False; [reflexivity|];
      intros Heq; apply Hwrong; split; assumption].
  unfold clears, correct_code. rewrite Hphp.
  destruct (decide (presented req = PhpString code)) as [Heq|Hneq].
  - destruct (flag_present sb) eqn:Hf.
    + destruct permitted; cbn [snd].
      * rewrite flag_present_deleted. tauto.
      * rewrite Hf. split; [intros [_ ?]; discriminate|intros (_ & _ & ?); discriminate].
    + split; [intros [? _]; discriminate|intros (? & _); discriminate].
  - cbn [snd]. split.
    + intros [H1 H2]. rewrite H1 in H2. discriminate.
    + intros (_ & [Heq _] & _). contradiction.
Qed.

(** C2: once the flag file is gone it stays gone under every further
    history of requests, whatever the codes presented and whether or not
    deletions are permitted; a later request with the correct code is
    answered with the already-deleted message and changes nothing. *)
Theorem flag_clearing_irreversible (img : sandbox) (g : rng)
    (h1 h2 : list (bool * request)) (permitted : bool) (req : request) :
  let code := admin_code img g in
  let sb1 := snd (serve h1 (provision img g)) in
  let sb2 := snd (serve h2 sb1) in
  flag_present sb1 = false ->
  correct_code code req ->
  flag_present sb2 = false /\
  admin_php permitted req sb2 = (MSG_ALREADY, sb2).
Proof.
  intros code sb1 sb2 Hgone [Hreq _].
  destruct (reachable_holds_secret img g h1) as (b & bs & Hcode & Hsec).
  fold code in Hcode. fold sb1 in Hsec.
  destruct (serve_keeps h2 sb1 b bs Hsec) as [Hsec2 Hflag2]. fold sb2 in Hsec2, Hflag2.
  specialize (Hflag2 Hgone). split; [exact Hflag2|].
  rewrite (admin_php_provisioned _ _ _ _ _ Hsec2), <- Hcode, Hflag2.
  rewrite decide_True by exact Hreq. reflexivity.
Qed.

(** C4 (as amended): in the sql-injection and hidden-file profiles (2 and
    3) the provisioned sandbox runs the web server, so a request reaches
    the verification handler, and presenting the admin code clears the
    flag when the system permits the deletion. In the weak-credential
    profile (1) the script starts only the ssh service: the web server
    is off and a request to the endpoint is refused. *)
Theorem endpoint_by_profile (img : sandbox) (g : rng) (permitted : bool) (req : request) :
  sb_services img = ∅ ->
  presented req = PhpString (admin_code img g) ->
  let sb := provision img g in
  ((profile img g = 2 \/ profile img g = 3)%Z ->
     http_request permitted req sb = Some (admin_php permitted req sb) /\
     (permitted = true ->
        http_request permitted req sb =
          Some (MSG_SUCCESS, with_files (delete flag_path) sb) /\
        flag_present (with_files (delete flag_path) sb) = false)) /\
  (profile img g = 1%Z ->
     http_request permitted req sb = None /\
     sb_services sb = {["ssh"]} /\
     flag_present sb = true).
Proof.
  intros Himg Hreq sb.
  assert (Hflag : flag_present sb = true).
  { apply flag_present_true. unfold sb. rewrite provision_flag. eauto. }
  split.
  - intros Hp.
    assert (Hweb : http_request permitted req sb = Some (admin_php permitted req sb)).
    { unfold http_request, sb. rewrite provision_services.
      rewrite bool_decide_eq_true_2; [reflexivity|].
      destruct Hp as [Hp|Hp]; rewrite Hp; cbn -[elem_of union singleton];
        apply elem_of_union_r, elem_of_union_l, elem_of_singleton; reflexivity. }
    split; [exact Hweb|]. intros ->. rewrite Hweb.
    destruct (take_bytes_8 g) as (b & bs & Hbs).
    pose proof (provision_holds_secret img g) as Hsec. fold sb in Hsec.
    rewrite admin_code_eq, Hbs in Hsec.
    rewrite (admin_php_provisioned _ _ _ _ _ Hsec), <- Hbs, <- (admin_code_eq img).
    rewrite decide_True by exact Hreq. rewrite Hflag.
    split; [reflexivity|apply flag_present_deleted].
  - intros Hp. unfold http_request, sb. rewrite provision_services, Hp, Himg.
    rewrite decide_True by reflexivity. rewrite union_empty_r_L. fold sb.
    split; [|split; [reflexivity|exact Hflag]].
    rewrite bool_decide_eq_false_2; [reflexivity|].
    rewrite elem_of_singleton. discriminate.
Qed.

(** X1: the admin code is the hex encoding of the eight bytes the run
    draws first, sixteen characters long, and the handler reads it back
    from the secret file the script wrote. *)
Lemma admin_code_shape (img : sandbox) (g : rng) :
  admin_code img g = hex_encode (take_bytes 8 g) /\
  String.length (admin_code img g) = 16 /\
  file_get_contents secret_path (provision img g) = Some (admin_code img g +:+ LF) /\
  trim (admin_code img g +:+ LF) = admin_code img g.
Proof.
  rewrite admin_code_eq. split; [reflexivity|]. split; [|split].
  - rewrite hex_encode_length, take_bytes_length. reflexivity.
  - unfold file_get_contents. rewrite provision_secret, admin_code_eq. reflexivity.
  - apply trim_hex_line.
Qed.

(** X2: without a secret file the handler denies every request: the
    missing file reads as the empty code, and an empty presented code
    is rejected. *)
Lemma missing_secret_denies (permitted : bool) (req : request) (sb : sandbox) :
  admin_php permitted req (with_files (delete secret_path) sb) =
  (MSG_DENIED, with_files (delete secret_path) sb).
Proof.
  unfold admin_php, file_get_contents, with_files. cbn [sb_files].
  rewrite lookup_delete_eq. cbn [fmap option_fmap option_map from_option].
  change (trim EmptyString) with EmptyString.
  destruct (presented req) as [[|c s]|items]; reflexivity.
Qed.

(** *** The random draws *)

Lemma count_up_spec (n : nat) (r x : Z) :
  In x (count_up n r) <-> (r <= x < r + Z.of_nat n)%Z.
Proof.
  revert r; induction n as [|n IH]; intros r.
  - simpl. lia.
  - cbn [count_up In]. rewrite IH. lia.
Qed.

Lemma RANDOM_values_spec (r : Z) : In r RANDOM_values <-> (0 <= r < 32768)%Z.
Proof. unfold RANDOM_values. rewrite count_up_spec. lia. Qed.

Lemma RANDOM_onto (r : Z) :
  (0 <= r < 32768)%Z -> first_draw (Rng (fun _ => r) 0 (fun _ => x00) 0) = r.
Proof.
  intros Hr. unfold first_draw, RANDOM. cbn [fst random_src random_pos].
  change 32767%Z with (Z.ones 15). rewrite Z.land_ones by lia.
  apply Z.mod_small. exact Hr.
Qed.

(** C3 (as amended): the profile is 1 + r mod 3 for the value r that the
    shell's own [$RANDOM] yields on line 14, whatever the image and the
    other random values of the run, so runs that read the same value
    select the same profile. [$RANDOM] ranges over the 32768 values
    0..32767, all of which occur; 10923 of them select profile 1, 10923
    profile 2 and 10922 profile 3. *)
Theorem profile_selection_distribution :
  (forall (img : sandbox) (g : rng),
     profile img g = (1 + first_draw g mod 3)%Z /\
     (0 <= first_draw g < 32768)%Z) /\
  (forall r : Z, (0 <= r < 32768)%Z -> exists g, first_draw g = r) /\
  (forall r : Z, In r RANDOM_values <-> (0 <= r < 32768)%Z) /\
  Z.of_nat (length (draws_selecting 1)) = 10923%Z /\
  Z.of_nat (length (draws_selecting 2)) = 10923%Z /\
  Z.of_nat (length (draws_selecting 3)) = 10922%Z.
Proof.
  split.
  { intros img g. pose proof (RANDOM_range g) as Hr. fold (first_draw g) in Hr.
    split; [|exact Hr]. rewrite profile_eq. unfold profile_of.
    rewrite Z.rem_mod_nonneg by lia. reflexivity. }
  split.
  { intros r Hr. eexists. apply RANDOM_onto, Hr. }
  split; [exact RANDOM_values_spec|].
  split; [|split]; vm_compute; reflexivity.
Qed.

(** *** Secrets of two runs *)

Lemma second_draw_range g : (0 <= second_draw g < 32768)%Z.
Proof. apply RANDOM_range. Qed.

Lemma PASSWORDS_inj (i j : Z) :
  (0 <= i < 8)%Z -> (0 <= j < 8)%Z ->
  array_get PASSWORDS i = array_get PASSWORDS j -> i = j.
Proof.
  intros Hi Hj.
  assert (i = 0 \/ i = 1 \/ i = 2 \/ i = 3 \/ i = 4 \/ i = 5 \/ i = 6 \/ i = 7)%Z
    as Ci by lia.
  assert (j = 0 \/ j = 1 \/ j = 2 \/ j = 3 \/ j = 4 \/ j = 5 \/ j = 6 \/ j = 7)%Z
    as Cj by lia.
  destruct Ci as [->|[->|[->|[->|[->|[->|[->| ->]]]]]]];
    destruct Cj as [->|[->|[->|[->|[->|[->|[->| ->]]]]]]];
    vm_compute; first [intros _; reflexivity | discriminate].
Qed.

Lemma PASSWORDS_in (i : Z) : (0 <= i < 8)%Z -> In (array_get PASSWORDS i) PASSWORDS.
Proof.
  intros Hi.
  assert (i = 0 \/ i = 1 \/ i = 2 \/ i = 3 \/ i = 4 \/ i = 5 \/ i = 6 \/ i = 7)%Z
    as Ci by lia.
  destruct Ci as [->|[->|[->|[->|[->|[->|[->| ->]]]]]]]; vm_compute; tauto.
Qed.

(** C9 (as amended): each run generates its secrets from its own random
    values and checks them against no earlier run. Two runs bind the
    same admin code exactly when their eight random bytes coincide. In
    the weak-credential profile the root password is the dictionary word
    at index r mod 8, for the value r of [$RANDOM] read in the case
    statement, so it is one of eight words and two such runs bind the
    same password exactly when their values agree modulo 8. *)
Theorem secrets_per_run (img1 img2 : sandbox) (g1 g2 : rng) :
  (admin_code img1 g1 = admin_code img2 g2 <-> take_bytes 8 g1 = take_bytes 8 g2) /\
  (profile img1 g1 = 1%Z -> profile img2 g2 = 1%Z ->
     sb_root_password (provision img1 g1) =
       Some (array_get PASSWORDS (second_draw g1 mod 8)) /\
     In (array_get PASSWORDS (second_draw g1 mod 8)) PASSWORDS /\
     (sb_root_password (provision img1 g1) = sb_root_password (provision img2 g2) <->
      (second_draw g1 mod 8 = second_draw g2 mod 8)%Z)).
Proof.
  split.
  - rewrite !admin_code_eq. split.
    + apply hex_encode_inj. rewrite !take_bytes_length. reflexivity.
    + intros ->. reflexivity.
  - intros Hp1 Hp2.
    pose proof (second_draw_range g1) as Hr1. pose proof (second_draw_range g2) as Hr2.
    rewrite (provision_password _ _ Hp1), (provision_password _ _ Hp2).
    rewrite !Z.rem_mod_nonneg by lia.
    pose proof (Z.mod_pos_bound (second_draw g1) 8 ltac:(lia)) as Hm1.
    pose proof (Z.mod_pos_bound (second_draw g2) 8 ltac:(lia)) as Hm2.
    split; [reflexivity|]. split; [apply PASSWORDS_in, Hm1|].
    split.
    + intros [= H]. apply PASSWORDS_inj; assumption.
    + intros ->. reflexivity.
Qed.

End TargetClaims.

Module TargetExamples.
Import Php Shell Target TargetFacts TargetClaims.

Example run_profiles :
  profile bare_image run_ssh = 1%Z /\ profile bare_image run_sqli = 2%Z /\
  profile bare_image run_hidden = 3%Z /\ admin_code bare_image run_sqli = "2a2a2a2a2a2a2a2a".
Proof. repeat split; reflexivity. Qed.

(** C1, counterexample: a freshly provisioned sandbox, the correct
    non-empty code presented, and the deletion refused by the system:
    the handler answers with its error message and the flag stays. *)
Lemma correct_code_without_clearing :
  correct_code (admin_code bare_image run_sqli) good_request /\
  flag_present (provision bare_image run_sqli) = true /\
  admin_php false good_request (provision bare_image run_sqli) =
    (MSG_ERROR, provision bare_image run_sqli) /\
  ~ (clears false good_request (provision bare_image run_sqli) <->
     correct_code (admin_code bare_image run_sqli) good_request).
Proof.
  assert (Hc : correct_code (admin_code bare_image run_sqli) good_request).
  { split; [reflexivity|discriminate]. }
  split; [exact Hc|]. split; [vm_compute; reflexivity|].
  split; [vm_compute; reflexivity|].
  intros [_ H]. destruct (H Hc) as [_ Hgone].
  vm_compute in Hgone. discriminate.
Qed.

(** C1, instance of the amended statement: the same sandbox after one
    denied request; the deletion refused, then permitted. *)
Lemma verification_outcome_witness :
  admin_php false good_request (snd (serve [(true, bad_request)] (provision bare_image run_sqli)))
    = (MSG_ERROR, snd (serve [(true, bad_request)] (provision bare_image run_sqli))) /\
  clears true good_request (snd (serve [(true, bad_request)] (provision bare_image run_sqli))).
Proof.
  split.
  - rewrite (proj1 (proj2 (verification_outcome bare_image run_sqli
                             [(true, bad_request)] false good_request))).
    reflexivity.
  - apply (proj1 (verification_outcome bare_image run_sqli
                    [(true, bad_request)] true good_request)).
    split; [reflexivity|]. split; [|reflexivity].
    split; [reflexivity|discriminate].
Defined.

(** C2, instance: the flag cleared by the first request, then a denied
    request and a refused deletion; the correct code is answered with the
    already-deleted message. *)
Lemma flag_clearing_irreversible_witness :
  flag_present (snd (serve [(false, bad_request); (false, good_request)]
                       (snd (serve [(true, good_request)] (provision bare_image run_sqli))))) = false /\
  admin_php true good_request
    (snd (serve [(false, bad_request); (false, good_request)]
            (snd (serve [(true, good_request)] (provision bare_image run_sqli))))) =
  (MSG_ALREADY,
   snd (serve [(false, bad_request); (false, good_request)]
          (snd (serve [(true, good_request)] (provision bare_image run_sqli))))).
Proof.
  apply (flag_clearing_irreversible bare_image run_sqli
           [(true, good_request)] [(false, bad_request); (false, good_request)]
           true good_request).
  - vm_compute. reflexivity.
  - split; [reflexivity|discriminate].
Defined.

(** C4, counterexample: the run that draws profile 1 leaves no web
    server running, so the correct code cannot be presented to the
    endpoint. *)
Lemma no_endpoint_in_weak_credential_profile :
  profile bare_image run_ssh = 1%Z /\
  http_request true good_request (provision bare_image run_ssh) = None /\
  ~ endpoint_clears bare_image run_ssh.
Proof.
  split; [reflexivity|]. split; [vm_compute; reflexivity|].
  intros H. destruct (H good_request eq_refl) as (resp & sb' & Hhttp & _).
  vm_compute in Hhttp. discriminate.
Qed.

(** C4, instances of the amended statement: a profile 3 run, where the
    request is served and clears the flag, and the profile 1 run, where
    it is refused. *)
Lemma endpoint_by_profile_witness :
  (http_request true good_request (provision bare_image run_hidden) =
     Some (MSG_SUCCESS, with_files (delete flag_path) (provision bare_image run_hidden))) /\
  http_request true good_request (provision bare_image run_ssh) = None.
Proof.
  split.
  - apply (proj1 (endpoint_by_profile bare_image run_hidden true good_request
                    eq_refl eq_refl)); [right; reflexivity|reflexivity].
  - apply (proj2 (endpoint_by_profile bare_image run_ssh true good_request
                    eq_refl eq_refl)). reflexivity.
Defined.

(** C3, counterexample: 10922 of the 32768 values of [$RANDOM] select
    profile 3, and three times 10922 is not 32768. *)
Lemma selection_not_uniform :
  Z.of_nat (length (draws_selecting 3)) = 10922%Z /\ ~ uniform_selection.
Proof.
  assert (H3 : Z.of_nat (length (draws_selecting 3)) = 10922%Z)
    by (vm_compute; reflexivity).
  split; [exact H3|].
  intros H. specialize (H 3%Z ltac:(tauto)). rewrite H3 in H. discriminate H.
Qed.

(** C9, counterexample: two weak-credential runs that have no random
    value in common, with different admin codes, and the same root
    password. *)
Lemma weak_password_reused :
  profile bare_image run_ssh = 1%Z /\ profile bare_image run_ssh_again = 1%Z /\
  admin_code bare_image run_ssh <> admin_code bare_image run_ssh_again /\
  sb_root_password (provision bare_image run_ssh) = Some "password" /\
  sb_root_password (provision bare_image run_ssh_again) = Some "password" /\
  ~ secrets_never_reused.
Proof.
  do 2 (split; [reflexivity|]). split; [discriminate|].
  do 2 (split; [reflexivity|]).
  intros H.
  destruct (H bare_image run_ssh run_ssh_again) as [_ Hpw]; try discriminate.
  apply Hpw; reflexivity.
Qed.

(** C9, instance of the amended statement on the same two runs: the
    values 0 and 8 agree modulo 8. *)
Lemma secrets_per_run_witness :
  sb_root_password (provision bare_image run_ssh) =
  sb_root_password (provision bare_image run_ssh_again).
Proof.
  apply (proj2 (secrets_per_run bare_image bare_image run_ssh run_ssh_again));
    reflexivity.
Defined.

End TargetExamples.

(* ===================================================================== *)
(** * Statements about the battle core                                    *)
(* ===================================================================== *)

Module CoreClaims.
Import Core.

(** *** Starting a battle *)

Section Start.
Variable agent_owner : nat -> option nat.
Variable default_budget : Z.

Lemma enroll_valid (refs : list nat) (index : nat) :
  Forall (fun a => is_Some (agent_owner a)) refs ->
  is_Some (enroll agent_owner index refs).
Proof.
  intros Hall. revert index. induction Hall as [|a refs [u Hu] _ IH]; intros index.
  - eexists. reflexivity.
  - cbn [enroll]. rewrite Hu. destruct (IH (S index)) as [ps ->]. eexists. reflexivity.
Qed.

Lemma StartMatch_result (refs : list nat) (budget : Z) (maxP minP : nat) (st : State) :
  Forall (fun a => is_Some (agent_owner a)) refs ->
  if decide (minP <= length refs <= maxP)
  then exists ps, enroll agent_owner 0 refs = Some ps /\
         StartMatch agent_owner refs budget maxP minP st =
         inr (next_match st,
              write_status (next_match st) ongoing
                (mkState (<[next_match st := mkMatch lobby None ps budget false]> (matches st))
                         (S (next_match st)) (status_log st) (user_stats st)))
  else StartMatch agent_owner refs budget maxP minP st = inl ValidationError.
Proof.
  intros Hall. unfold StartMatch.
  destruct (decide (minP <= length refs <= maxP)) as [Hin|Hout].
  - destruct (enroll_valid refs 0 Hall) as [ps Hps]. exists ps. split; [exact Hps|].
    rewrite Hps.
    replace (length refs <? minP)%nat with false by (symmetry; apply Nat.ltb_ge; lia).
    replace (maxP <? length refs)%nat with false by (symmetry; apply Nat.ltb_ge; lia).
    reflexivity.
  - destruct (length refs <? minP)%nat eqn:E1; [reflexivity|].
    destruct (maxP <? length refs)%nat eqn:E2; [reflexivity|].
    apply Nat.ltb_ge in E1, E2. lia.
Qed.

Lemma enroll_invalid (refs : list nat) (index : nat) :
  enroll agent_owner index refs = None <->
  Exists (fun a => agent_owner a = None) refs.
Proof.
  revert index. induction refs as [|a refs IH]; intros index.
  - cbn [enroll]. split; [discriminate|]. intros H. inversion H.
  - cbn [enroll]. rewrite Exists_cons, <- (IH (S index)).
    destruct (agent_owner a) as [u|]; [|tauto].
    destruct (enroll agent_owner (S index) refs) as [ps|].
    + split; [discriminate|]. intros [H|H]; discriminate.
    + tauto.
Qed.

Lemma StartMatch_rejects (refs : list nat) (budget : Z) (maxP minP : nat) (st : State) :
  StartMatch agent_owner refs budget maxP minP st = inl ValidationError <->
  ~ (minP <= length refs <= maxP) \/ Exists (fun a => agent_owner a = None) refs.
Proof.
  rewrite <- (enroll_invalid refs 0). unfold StartMatch.
  destruct (length refs <? minP)%nat eqn:E1.
  { apply Nat.ltb_lt in E1. split; [|reflexivity]. intros _. left. lia. }
  destruct (maxP <? length refs)%nat eqn:E2.
  { apply Nat.ltb_lt in E2. split; [|reflexivity]. intros _. left. lia. }
  apply Nat.ltb_ge in E1, E2. cbn [orb].
  destruct (enroll agent_owner 0 refs) as [ps|].
  - split; [discriminate|]. intros [H|H]; [lia|discriminate].
  - split; [|reflexivity]. intros _. right. reflexivity.
Qed.

End Start.

(** C5, as amended: [StartBattle] with n participant agent IDs fails with
    [ValidationError] if and only if n is outside [2,10] or one of the
    IDs is not a valid agent reference. It fails for n = 1 and n = 11;
    with 2 or with 10 valid agent references it returns the identity of
    a new match, which is ongoing. *)
Theorem StartBattle_participant_count (agent_owner : nat -> option nat)
    (default_budget : Z) (refs : list nat) (st : State) :
  let res := StartBattle agent_owner default_budget refs st in
  (res = inl ValidationError <->
     ~ (2 <= length refs <= 10) \/ Exists (fun a => agent_owner a = None) refs) /\
  (length refs = 1 \/ length refs = 11 -> res = inl ValidationError) /\
  (length refs = 2 \/ length refs = 10 ->
   Forall (fun a => is_Some (agent_owner a)) refs ->
     exists m st' r, res = inr (m, st') /\ matches st' !! m = Some r /\
                     status r = ongoing /\ length (participants r) = length refs).
Proof.
  intros res.
  assert (Hrej : res = inl ValidationError <->
     ~ (2 <= length refs <= 10) \/ Exists (fun a => agent_owner a = None) refs).
  { apply StartMatch_rejects. }
  split; [exact Hrej|split].
  - intros Hn. apply Hrej. left. lia.
  - intros Hn Hall.
    pose proof (StartMatch_result agent_owner refs default_budget 10 2 st Hall) as H.
    fold (StartBattle agent_owner default_budget refs st) in H. fold res in H.
    rewrite decide_True in H by lia.
    destruct H as (ps & Hps & ->).
    eexists _, _, _. split; [reflexivity|].
    unfold write_status. cbn [matches]. rewrite lookup_insert_eq. cbn [matches].
    rewrite lookup_insert_eq. split; [reflexivity|]. split; [reflexivity|].
    cbn [participants]. clear -Hps. revert ps Hps. generalize 0%nat.
    induction refs as [|a refs IH]; intros i ps Hps.
    + injection Hps as <-. reflexivity.
    + cbn [enroll] in Hps. destruct (agent_owner a); [|discriminate].
      destruct (enroll agent_owner (S i) refs) as [ps'|] eqn:E; [|discriminate].
      injection Hps as <-. cbn [length]. f_equal. eapply IH, E.
Qed.

(** *** The status of a match *)

Lemma follows_edges_snoc (h : list MatchStatus) (a b : MatchStatus) :
  follows_edges h -> last h = Some a -> status_edge a b -> follows_edges (h ++ [b]).
Proof.
  induction h as [|x [|y h] IH]; intros Hh Hlast Hedge.
  - discriminate.
  - injection Hlast as ->. split; [exact Hedge|exact I].
  - destruct Hh as [Hxy Hh]. split; [exact Hxy|]. apply IH; assumption.
Qed.

Lemma history_snoc (m m' : nat) (b : MatchStatus) (log : list (nat * MatchStatus)) :
  history m (log ++ [(m', b)]) =
  history m log ++ (if decide (m' = m) then [b] else []).
Proof.
  unfold history. rewrite filter_app, fmap_app, app_comm_cons. f_equal.
  rewrite filter_cons, filter_nil. cbn [fst].
  destruct (decide (m' = m)); reflexivity.
Qed.

Lemma status_step_coherent (st st' : State) :
  status_step st st' -> coherent st -> coherent st'.
Proof.
  intros Hstep [Hpath Hfresh].
  destruct Hstep as [Hs Hl Hn | m a b Hm Hedge Hs Hl Hn | Hs Hl Hn].
  - split; intros m; rewrite Hs, Hl, ?Hn; [apply Hpath|apply Hfresh].
  - assert (Hlt : m < next_match st).
    { destruct (decide (m < next_match st)) as [|Hge]; [assumption|].
      destruct (Hfresh m ltac:(lia)) as [Hnone _]. congruence. }
    split.
    + intros m0 s. rewrite Hs, Hl, history_snoc.
      destruct (decide (m = m0)) as [<-|Hne].
      * rewrite lookup_insert_eq. intros [= <-].
        destruct (Hpath m a Hm) as [Hf Hlast].
        split; [eapply follows_edges_snoc; eassumption|apply last_snoc].
      * rewrite lookup_insert_ne by exact Hne. rewrite app_nil_r. apply Hpath.
    + intros m0 Hge. rewrite Hn in Hge. rewrite Hs, Hl, history_snoc.
      rewrite decide_False by lia. rewrite lookup_insert_ne by lia.
      rewrite app_nil_r. apply Hfresh, Hge.
  - split.
    + intros m0 s. rewrite Hs, Hl, history_snoc.
      destruct (decide (next_match st = m0)) as [<-|Hne].
      * rewrite lookup_insert_eq. intros [= <-].
        destruct (Hfresh (next_match st) ltac:(lia)) as [_ ->].
        split; [split; [constructor|exact I]|reflexivity].
      * rewrite lookup_insert_ne by exact Hne. rewrite app_nil_r. apply Hpath.
    + intros m0 Hge. rewrite Hn in Hge. rewrite Hs, Hl, history_snoc.
      rewrite decide_False by lia. rewrite lookup_insert_ne by lia.
      rewrite app_nil_r. apply Hfresh. lia.
Qed.

Lemma status_step_local (st st' : State) (m : nat) (a b : MatchStatus) :
  coherent st -> status_step st st' ->
  statuses st !! m = Some a -> statuses st' !! m = Some b ->
  b = a \/ status_edge a b.
Proof.
  intros [_ Hfresh] Hstep Ha Hb.
  destruct Hstep as [Hs _ _ | m0 a0 b0 Hm Hedge Hs _ _ | Hs _ _]; rewrite Hs in Hb.
  - left. congruence.
  - destruct (decide (m0 = m)) as [->|Hne].
    + rewrite lookup_insert_eq in Hb. right. congruence.
    + rewrite lookup_insert_ne in Hb by exact Hne. left. congruence.
  - destruct (decide (next_match st = m)) as [<-|Hne].
    + destruct (Hfresh (next_match st) ltac:(lia)) as [Hnone _]. congruence.
    + rewrite lookup_insert_ne in Hb by exact Hne. left. congruence.
Qed.

(** A step seen from a state with the same statuses, log and counter. *)
Lemma status_step_from (st0 st st' : State) :
  statuses st = statuses st0 -> status_log st = status_log st0 ->
  next_match st = next_match st0 ->
  status_step st st' -> status_step st0 st'.
Proof.
  intros Hs Hl Hn Hstep.
  destruct Hstep as [Hs' Hl' Hn' | m a b Hm Hedge Hs' Hl' Hn' | Hs' Hl' Hn'].
  - apply step_neutral; congruence.
  - apply (step_write _ _ m a b); congruence.
  - apply step_start; congruence.
Qed.

Lemma statuses_replace (ms : gmap nat Match) (m : nat) (r r' : Match) :
  ms !! m = Some r -> status r' = status r ->
  status <$> <[m := r']> ms = status <$> ms.
Proof.
  intros Hm Hr. rewrite fmap_insert. apply insert_id.
  rewrite lookup_fmap, Hm, Hr. reflexivity.
Qed.

Lemma conclude_step (m : nat) (new : MatchStatus) (w : option nat) (st : State) :
  status_edge ongoing new -> status_step st (conclude m new w st).
Proof.
  intros Hedge. unfold conclude.
  destruct (matches st !! m) as [r|] eqn:Hm; [|apply step_neutral; reflexivity].
  destruct (decide (status r = ongoing)) as [Hr|]; [|apply step_neutral; reflexivity].
  apply (step_write _ _ m ongoing new).
  - unfold statuses. rewrite lookup_fmap, Hm, <- Hr. reflexivity.
  - exact Hedge.
  - unfold write_status, statuses. cbn [matches]. rewrite lookup_insert_eq. cbn [matches].
    rewrite insert_insert_eq, fmap_insert. reflexivity.
  - unfold write_status. cbn [matches]. rewrite lookup_insert_eq. reflexivity.
  - unfold write_status. cbn [matches]. rewrite lookup_insert_eq. reflexivity.
Qed.

Section Steps.
Variable agent_owner : nat -> option nat.
Variables win_points loss_points : Z.
Variable default_budget : Z.

Lemma StartMatch_step refs budget maxP minP st :
  status_step st (started (StartMatch agent_owner refs budget maxP minP st) st).
Proof.
  unfold StartMatch.
  destruct (_ || _); [apply step_neutral; reflexivity|].
  destruct (enroll agent_owner 0 refs) as [ps|]; [|apply step_neutral; reflexivity].
  cbn [started]. unfold write_status. cbn [matches]. rewrite lookup_insert_eq.
  apply step_start; cbn [matches status_log next_match]; [|reflexivity..].
  unfold statuses. cbn [matches]. rewrite insert_insert_eq, fmap_insert. reflexivity.
Qed.

Lemma step_status_step (st : State) (op : Op) :
  status_step st (step agent_owner win_points loss_points default_budget st op).
Proof.
  destruct op as [refs budget maxP minP | refs | m p | m p | m | m | m | m o];
    cbn [step].
  - apply StartMatch_step.
  - apply StartMatch_step.
  - unfold ReportVictory.
    destruct (matches st !! m) as [r|]; [|apply step_neutral; reflexivity].
    destruct (bool_decide _); [|apply step_neutral; reflexivity].
    apply conclude_step. constructor.
  - unfold ReportEliminated.
    destruct (matches st !! m) as [r|] eqn:Hm; [|apply step_neutral; reflexivity].
    destruct (decide (status r = ongoing)); [|apply step_neutral; reflexivity].
    set (r' := mkMatch _ _ _ _ _).
    assert (Hs : status <$> <[m := r']> (matches st) = status <$> matches st)
      by (eapply statuses_replace; [exact Hm|reflexivity]).
    destruct (alive_ids r').
    + eapply status_step_from; [| | |apply conclude_step; constructor];
        [exact Hs|reflexivity..].
    + apply step_neutral; [exact Hs|reflexivity..].
  - apply conclude_step. constructor.
  - apply conclude_step. constructor.
  - apply conclude_step. constructor.
  - unfold Apply.
    destruct (matches st !! m) as [r|] eqn:Hm; [|apply step_neutral; reflexivity].
    destruct (rankingApplied r); apply step_neutral; try reflexivity.
    eapply statuses_replace; [exact Hm|reflexivity].
Qed.

Lemma initial_coherent : coherent initial.
Proof.
  split.
  - intros m s. unfold statuses, initial. cbn [matches].
    rewrite fmap_empty, lookup_empty. discriminate.
  - intros m _. split; [|reflexivity].
    unfold statuses, initial. cbn [matches]. rewrite fmap_empty. apply lookup_empty.
Qed.

Lemma run_ops_coherent (ops : list Op) :
  coherent (run_ops agent_owner win_points loss_points default_budget ops).
Proof.
  unfold run_ops. induction ops as [|op ops IH] using rev_ind.
  - apply initial_coherent.
  - rewrite foldl_app. cbn [foldl].
    eapply status_step_coherent; [apply step_status_step|exact IH].
Qed.

End Steps.

(** C7: a match status is one of lobby, ongoing, completed and aborted,
    each stored as a text that fits the status column. After any
    sequence of operations of the core, the statuses a stored match has
    had, from lobby at its creation to its current status, are joined by
    the edges lobby -> ongoing, ongoing -> completed and
    ongoing -> aborted only; any further operation leaves the status of
    a stored match as it is or moves it along one of these edges, and
    never changes a terminal status. *)
Theorem match_status_edges (agent_owner : nat -> option nat)
    (win_points loss_points default_budget : Z) (ops : list Op) :
  let st := run_ops agent_owner win_points loss_points default_budget ops in
  (forall s : MatchStatus,
     (s = lobby \/ s = ongoing \/ s = completed \/ s = aborted) /\
     String.length (status_column s) <= 20) /\
  (forall (m : nat) (r : Match), matches st !! m = Some r ->
     follows_edges (history m (status_log st)) /\
     last (history m (status_log st)) = Some (status r)) /\
  (forall (op : Op) (m : nat) (r r' : Match),
     matches st !! m = Some r ->
     matches (step agent_owner win_points loss_points default_budget st op) !! m = Some r' ->
     (status r' = status r \/ status_edge (status r) (status r')) /\
     (terminal (status r) = true -> status r' = status r)).
Proof.
  intros st.
  pose proof (run_ops_coherent agent_owner win_points loss_points default_budget ops)
    as Hco. fold st in Hco.
  split; [intros []; (split; [tauto|cbn; lia])|]. split.
  - intros m r Hm. apply (proj1 Hco). unfold statuses. rewrite lookup_fmap, Hm. reflexivity.
  - intros op m r r' Hm Hm'.
    assert (Hlocal : status r' = status r \/ status_edge (status r) (status r')).
    { eapply (status_step_local st _ m); [exact Hco|apply step_status_step| |].
      - unfold statuses. rewrite lookup_fmap, Hm. reflexivity.
      - unfold statuses. rewrite lookup_fmap, Hm'. reflexivity. }
    split; [exact Hlocal|]. intros Hterm.
    destruct Hlocal as [Heq|Hedge]; [exact Heq|].
    destruct Hedge; discriminate Hterm.
Qed.

(** *** The action log *)





(** *** The ranking updater *)

Section Ranking.
Variables win_points loss_points : Z.

Lemma Apply_marked (m : nat) (o : Outcome) (st : State) (r : Match) :
  matches st !! m = Some r -> rankingApplied r = true ->
  Apply win_points loss_points m o st = st.
Proof. intros Hm Hr. unfold Apply. rewrite Hm, Hr. reflexivity. Qed.

Lemma Apply_sets_marker (m : nat) (o : Outcome) (st : State) (r : Match) :
  matches (Apply win_points loss_points m o st) !! m = Some r -> rankingApplied r = true.
Proof.
  unfold Apply. destruct (matches st !! m) as [r0|] eqn:Hm.
  - destruct (rankingApplied r0) eqn:Hr.
    + rewrite Hm. intros [= <-]. exact Hr.
    + cbn [matches]. rewrite lookup_insert_eq. intros [= <-]. reflexivity.
  - rewrite Hm. discriminate.
Qed.

End Ranking.

(** C8: [Apply] is idempotent per match. A second delivery for the same
    match, with the same or any other outcome, leaves the whole state as
    the first left it, so the wins, losses, matches played and rank
    points of every user are those of a single application. The guard is
    the marker of the match: it is set once [Apply] has run, and the
    first application of an unmarked match credits every participant's
    owning user. *)
Theorem Apply_idempotent (win_points loss_points : Z) (m : nat) (o o' : Outcome)
    (st : State) :
  let once := Apply win_points loss_points m o st in
  let twice := Apply win_points loss_points m o' once in
  twice = once /\
  user_stats twice = user_stats once /\
  (forall r : Match, matches once !! m = Some r -> rankingApplied r = true) /\
  (forall r : Match, matches st !! m = Some r -> rankingApplied r = false ->
     user_stats once = apply_deltas win_points loss_points o r (user_stats st)).
Proof.
  intros once twice.
  assert (Hmark : forall r, matches once !! m = Some r -> rankingApplied r = true)
    by (intros r; apply Apply_sets_marker).
  assert (Heq : twice = once).
  { unfold twice. destruct (matches once !! m) as [r|] eqn:Hm.
    - eapply Apply_marked; [exact Hm|]. apply Hmark. reflexivity.
    - unfold Apply at 1. rewrite Hm. reflexivity. }
  split; [exact Heq|]. split; [rewrite Heq; reflexivity|]. split; [exact Hmark|].
  intros r Hm Hr. unfold once, Apply. rewrite Hm, Hr. reflexivity.
Qed.

End CoreClaims.

Module CoreExamples.
Import Core CoreClaims.

(** C5, instances: a single agent is rejected, two agents start match 0. *)
Lemma StartBattle_participant_count_witness :
  StartBattle demo_owner 600 [7] initial = inl ValidationError /\
  exists m st' r, StartBattle demo_owner 600 [4; 7] initial = inr (m, st') /\
                  matches st' !! m = Some r /\ status r = ongoing /\
                  length (participants r) = length [4; 7].
Proof.
  split.
  - apply (StartBattle_participant_count demo_owner 600 [7] initial).
    left. reflexivity.
  - apply (StartBattle_participant_count demo_owner 600 [4; 7] initial).
    + left. reflexivity.
    + repeat constructor; eexists; reflexivity.
Defined.

(** An agent reference that is not valid is rejected whatever the count. *)
Example StartBattle_invalid_reference :
  StartBattle demo_owner 600 [4; 100] initial = inl ValidationError.
Proof. reflexivity. Qed.

(** C5 as claimed fails: two IDs, a count inside [2,10], are rejected
    with [ValidationError] when one of them is no agent. *)
Lemma count_in_range_rejected :
  ~ (StartBattle demo_owner 600 [4; 100] initial = inl ValidationError <->
     ~ (2 <= length [4; 100] <= 10)).
Proof.
  intros [Hfails _]. apply Hfails.
  - reflexivity.
  - cbn [length]. lia.
Qed.

(** The sample battle: the statuses written, the winner, and the
    statistics of the three owners after the ranking was delivered
    twice. *)
Example demo_battle_result :
  history 0 (status_log (demo_core demo_battle)) = [lobby; ongoing; completed] /\
  (status <$> matches (demo_core demo_battle) !! 0%nat) = Some completed /\
  (winner <$> matches (demo_core demo_battle) !! 0%nat) = Some (Some 1%nat) /\
  user_stats (demo_core demo_battle) !! 3%nat = Some (mkStats 1 0 1 25) /\
  user_stats (demo_core demo_battle) !! 2%nat = Some (mkStats 0 1 1 (-10)) /\
  user_stats (demo_core demo_battle) !! 4%nat = Some (mkStats 0 1 1 (-10)).
Proof. vm_compute. repeat split; reflexivity. Qed.

(** Without the marker a second delivery would count the match twice. *)
Example unguarded_update_counts_twice :
  let r := mkMatch completed (Some 1%nat)
             [mkParticipant 0 4 2 10 true; mkParticipant 1 7 3 11 true] 600 false in
  apply_deltas 25 (-10) (Victory 1) r (apply_deltas 25 (-10) (Victory 1) r ∅) !! 3%nat
    = Some (mkStats 2 0 2 50) /\
  apply_deltas 25 (-10) (Victory 1) r ∅ !! 3%nat = Some (mkStats 1 0 1 25).
Proof. vm_compute. split; reflexivity. Qed.

(** The sample appends: participant 1 gets 1, 2, 3 and participant 2 gets
    1, although the first three entries carry the same timestamp. *)
Example demo_sequence_numbers :
  (fun e => (sequenceNumber e, timestamp e)) <$> entries_of 1 (append_all demo_appends)
    = [(1%nat, 100%Z); (2%nat, 100%Z); (3%nat, 101%Z)] /\
  sequenceNumber <$> entries_of 2 (append_all demo_appends) = [1%nat].
Proof. vm_compute. split; reflexivity. Qed.

End CoreExamples.

(* ===================================================================== *)
(** * Further statements about the verification handler                  *)
(* ===================================================================== *)

Module HandlerExtras.
Import Php Shell Target TargetMore TargetFacts.

Lemma messages_distinct :
  MSG_SUCCESS <> MSG_ERROR /\ MSG_SUCCESS <> MSG_ALREADY /\ MSG_SUCCESS <> MSG_DENIED /\
  MSG_ERROR <> MSG_ALREADY /\ MSG_ERROR <> MSG_DENIED /\ MSG_ALREADY <> MSG_DENIED.
Proof. repeat split; discriminate. Qed.

Lemma empty_spec (s : string) :
  empty (PhpString s) = false <-> s <> EmptyString /\ s <> "0".
Proof.
  cbn [empty]. rewrite orb_false_iff, !String.eqb_neq. reflexivity.
Qed.

(** The handler on any sandbox, whatever its secret file holds. *)
Lemma admin_php_general (permitted : bool) (req : request) (sb : sandbox) :
  admin_php permitted req sb =
  if decide (presented req = PhpString (actual_code sb) /\
             actual_code sb <> EmptyString /\ actual_code sb <> "0")
  then if flag_present sb
       then if permitted then (MSG_SUCCESS, with_files (delete flag_path) sb)
            else (MSG_ERROR, sb)
       else (MSG_ALREADY, sb)
  else (MSG_DENIED, sb).
Proof.
  unfold admin_php. fold (actual_code sb).
  destruct (decide _) as [(Heq & Hne)|Hno].
  - rewrite Heq. rewrite (proj2 (identical_spec _ _)) by reflexivity.
    rewrite (proj2 (empty_spec _) Hne). cbn [andb negb].
    unfold flag_present, unlink. destruct (file_exists flag_path sb); [|reflexivity].
    destruct permitted; reflexivity.
  - destruct (identical (presented req) (actual_code sb)) eqn:Hid; [|reflexivity].
    apply identical_spec in Hid. rewrite Hid.
    destruct (empty (PhpString (actual_code sb))) eqn:He; [reflexivity|].
    apply empty_spec in He. exfalso. apply Hno. split; assumption.
Qed.

(** X3: on any sandbox, a request is denied unless it presents, as a
    string, exactly the trimmed content of the secret file, and that
    content is neither empty nor the string 0 (which PHP's empty()
    rejects). So an array parameter is always denied, and so is the code
    0, even when the secret file holds 0. *)
Theorem access_condition (permitted : bool) (req : request) (sb : sandbox) :
  (fst (admin_php permitted req sb) = MSG_DENIED <->
   ~ (presented req = PhpString (actual_code sb) /\
      actual_code sb <> EmptyString /\ actual_code sb <> "0")) /\
  (forall (items : list string) (get : option value),
     admin_php permitted (Request (Some (PhpArray items)) get) sb = (MSG_DENIED, sb)) /\
  (forall get : option value,
     admin_php permitted (Request (Some (PhpString "0")) get) sb = (MSG_DENIED, sb)).
Proof.
  split; [|split].
  - rewrite admin_php_general. destruct (decide _) as [Hyes|Hno].
    + split; [|intros H; contradiction].
      destruct (flag_present sb); [destruct permitted|]; discriminate.
    + split; [intros _; exact Hno|reflexivity].
  - intros items get. rewrite admin_php_general.
    rewrite decide_False; [reflexivity|]. intros [H _]. discriminate H.
  - intros get. rewrite admin_php_general.
    rewrite decide_False; [reflexivity|]. intros (H & _ & Hz).
    apply Hz. cbn in H. congruence.
Qed.

(** X4: a request with no code field, or with an empty one in the POST
    body, is denied on any sandbox; an empty POST field shadows whatever
    the query string carries, and the query string is read only when the
    POST body has no code field. *)
Theorem missing_code_denied (permitted : bool) (sb : sandbox) :
  admin_php permitted (Request None None) sb = (MSG_DENIED, sb) /\
  (forall get : option value,
     admin_php permitted (Request (Some (PhpString EmptyString)) get) sb = (MSG_DENIED, sb)) /\
  (forall (v : value) (get : option value),
     admin_php permitted (Request (Some v) get) sb =
     admin_php permitted (Request None (Some v)) sb).
Proof.
  split; [|split].
  - rewrite admin_php_general. rewrite decide_False; [reflexivity|].
    intros (H & Hne & _). apply Hne. cbn in H. congruence.
  - intros get. rewrite admin_php_general. rewrite decide_False; [reflexivity|].
    intros (H & Hne & _). apply Hne. cbn in H. congruence.
  - intros v get. reflexivity.
Qed.

(** X5: the response tells what the request did. The sandbox after a
    request is the sandbox before it, except after the success message,
    when exactly the flag file is gone; the error message is given only
    with the flag present and the deletion refused, and the
    already-deleted message only with the flag absent. No other file,
    service or account is touched. *)
Theorem response_reflects_effect (permitted : bool) (req : request) (sb : sandbox) :
  let r := admin_php permitted req sb in
  (fst r = MSG_SUCCESS /\ permitted = true /\ flag_present sb = true /\
   snd r = with_files (delete flag_path) sb /\ flag_present (snd r) = false) \/
  (fst r = MSG_ERROR /\ permitted = false /\ flag_present sb = true /\ snd r = sb) \/
  (fst r = MSG_ALREADY /\ flag_present sb = false /\ snd r = sb) \/
  (fst r = MSG_DENIED /\ snd r = sb).
Proof.
  intros r. unfold r. rewrite admin_php_general.
  destruct (decide _); [|right; right; right; split; reflexivity].
  destruct (flag_present sb) eqn:Hf; [|right; right; left; repeat split; reflexivity].
  destruct permitted.
  - left. cbn [fst snd]. repeat split. apply flag_present_deleted.
  - right; left. repeat split.
Qed.

Lemma successes_cons (resp : string) (resps : list string) :
  successes (resp :: resps) = (if is_success resp then 1 else 0) + successes resps.
Proof.
  unfold successes. rewrite filter_cons.
  destruct (is_success resp); [rewrite decide_True by reflexivity|
                               rewrite decide_False by discriminate]; reflexivity.
Qed.

Lemma admin_php_effect (permitted : bool) (req : request) (sb : sandbox) :
  (is_success (fst (admin_php permitted req sb)) = true /\ flag_present sb = true /\
   flag_present (snd (admin_php permitted req sb)) = false) \/
  (is_success (fst (admin_php permitted req sb)) = false /\
   snd (admin_php permitted req sb) = sb).
Proof.
  rewrite admin_php_general.
  destruct (decide _); [|right; split; reflexivity].
  destruct (flag_present sb) eqn:Hf; [|right; split; reflexivity].
  destruct permitted; [left|right; split; reflexivity].
  cbn [fst snd]. split; [reflexivity|]. split; [reflexivity|apply flag_present_deleted].
Qed.

Lemma serve_without_flag (h : list (bool * request)) (sb : sandbox) :
  flag_present sb = false ->
  snd (serve h sb) = sb /\ successes (fst (serve h sb)) = 0.
Proof.
  intros Hf. induction h as [|[permitted req] h [IH1 IH2]]; [split; reflexivity|].
  rewrite serve_cons. cbn [fst snd]. rewrite successes_cons.
  destruct (admin_php_effect permitted req sb) as [(_ & Hp & _)|[Hr Hs]]; [congruence|].
  rewrite Hs, Hr. split; assumption.
Qed.

(** X6: in any history of requests, on any sandbox, at most one request
    is answered with the success message, and none when the flag is
    absent at the start; the flag is present at the end exactly when it
    was present at the start and no request succeeded. *)
Theorem at_most_one_success (h : list (bool * request)) (sb : sandbox) :
  successes (fst (serve h sb)) <= (if flag_present sb then 1 else 0) /\
  flag_present (snd (serve h sb)) =
    flag_present sb && Nat.eqb (successes (fst (serve h sb))) 0.
Proof.
  revert sb. induction h as [|[permitted req] h IH]; intros sb.
  { cbn. rewrite andb_true_r. split; [destruct (flag_present sb); lia|reflexivity]. }
  rewrite serve_cons. cbn [fst snd]. rewrite successes_cons.
  destruct (admin_php_effect permitted req sb) as [(Hr & Hp & Hgone)|[Hr Hs]].
  - destruct (serve_without_flag h _ Hgone) as [Hsame Hzero].
    rewrite Hsame, Hgone, Hp, Hr, Hzero. split; [lia|reflexivity].
  - rewrite Hs, Hr. apply IH.
Qed.

(** *** [trim] *)

Lemma ltrim_app_trimmed (l s : string) :
  all_trimmed l = true -> ltrim (l +:+ s) = ltrim s.
Proof.
  induction l as [|c l IH]; [reflexivity|]. cbn [all_trimmed].
  intros [Hc Hl]%andb_true_iff. rewrite append_cons. cbn [ltrim]. rewrite Hc. auto.
Qed.

Lemma ltrim_first_kept (s : string) : first_kept s = true -> ltrim s = s.
Proof.
  destruct s as [|c s]; [reflexivity|]. cbn [first_kept ltrim].
  intros Hc%negb_true_iff. rewrite Hc. reflexivity.
Qed.

Lemma ltrim_all_trimmed (r : string) : all_trimmed r = true -> ltrim r = EmptyString.
Proof.
  induction r as [|c r IH]; [reflexivity|]. cbn [all_trimmed ltrim].
  intros [Hc Hr]%andb_true_iff. rewrite Hc. auto.
Qed.

Lemma rtrim_all_trimmed (r : string) : all_trimmed r = true -> rtrim r = EmptyString.
Proof.
  induction r as [|c r IH]; [reflexivity|]. cbn [all_trimmed rtrim].
  intros [Hc Hr]%andb_true_iff. rewrite (IH Hr), Hc. reflexivity.
Qed.

Lemma rtrim_app_trimmed (s r : string) :
  all_trimmed r = true -> rtrim (s +:+ r) = rtrim s.
Proof.
  intros Hr. induction s as [|c s IH]; [apply rtrim_all_trimmed, Hr|].
  rewrite append_cons. cbn [rtrim]. rewrite IH. reflexivity.
Qed.

Lemma rtrim_last_kept (s : string) : last_kept s = true -> rtrim s = s.
Proof.
  induction s as [|c [|c' s] IH]; [reflexivity| |].
  - cbn. intros Hc%negb_true_iff. rewrite Hc. reflexivity.
  - intros Hs. change (last_kept (String c (String c' s))) with (last_kept (String c' s)) in Hs.
    change (rtrim (String c (String c' s)))
      with (match rtrim (String c' s) with
            | EmptyString => if is_trimmed c then EmptyString else String c EmptyString
            | t => String c t
            end).
    rewrite (IH Hs). reflexivity.
Qed.

Lemma trim_spec (l core r : string) :
  all_trimmed l = true -> all_trimmed r = true ->
  first_kept core = true -> last_kept core = true ->
  trim (l +:+ core +:+ r) = core.
Proof.
  intros Hl Hr Hfirst Hlast. unfold trim. rewrite ltrim_app_trimmed by exact Hl.
  destruct core as [|c core].
  - change (EmptyString +:+ r) with r. rewrite ltrim_all_trimmed by exact Hr. reflexivity.
  - rewrite ltrim_first_kept.
    + rewrite rtrim_app_trimmed by exact Hr. apply rtrim_last_kept, Hlast.
    + rewrite append_cons. exact Hfirst.
Qed.

(** X7: the code the handler compares against is the content of the
    secret file without the whitespace (space, tab, line feed, carriage
    return, NUL, vertical tab) at its two ends; whitespace inside the
    code is kept. A secret file written with a carriage return or with
    padding still verifies the same code. *)
Theorem secret_file_whitespace (sb : sandbox) (l core r : string) (m : Z) :
  sb_files sb !! secret_path = Some (File (l +:+ core +:+ r) m) ->
  all_trimmed l = true -> all_trimmed r = true ->
  first_kept core = true -> last_kept core = true ->
  actual_code sb = core /\
  (core <> EmptyString -> core <> "0" ->
   forall permitted : bool,
     fst (admin_php permitted (Request (Some (PhpString core)) None) sb) <> MSG_DENIED).
Proof.
  intros Hfile Hl Hr Hfirst Hlast.
  assert (Hcode : actual_code sb = core).
  { unfold actual_code, file_get_contents. rewrite Hfile.
    cbn [fmap option_fmap option_map from_option f_content]. unfold id.
    apply trim_spec; assumption. }
  split; [exact Hcode|]. intros Hne Hz permitted.
  rewrite admin_php_general, Hcode.
  rewrite decide_True by (repeat split; assumption).
  destruct (flag_present sb); [destruct permitted|]; discriminate.
Qed.

End HandlerExtras.

(* ===================================================================== *)
(** * Further statements about the provisioning script                   *)
(* ===================================================================== *)

Module ProvisionExtras.
Import Php Shell Target TargetMore TargetFacts.

(** What each command leaves alone, for the remaining components. *)
Lemma mysql_redirect l path sb : sb_mysql (redirect l path sb) = sb_mysql sb.
Proof. reflexivity. Qed.
Lemma mysql_redirect_append l path sb : sb_mysql (redirect_append l path sb) = sb_mysql sb.
Proof. unfold redirect_append. destruct (sb_files sb !! path); reflexivity. Qed.
Lemma mysql_chmod m path sb : sb_mysql (chmod m path sb) = sb_mysql sb.
Proof. reflexivity. Qed.
Lemma mysql_mkdir_p d sb : sb_mysql (mkdir_p d sb) = sb_mysql sb.
Proof. reflexivity. Qed.
Lemma mysql_chpasswd_root pw sb : sb_mysql (chpasswd_root pw sb) = sb_mysql sb.
Proof. reflexivity. Qed.
Lemma mysql_service_start n sb : sb_mysql (service_start n sb) = sb_mysql sb.
Proof. reflexivity. Qed.
Lemma mysql_mysql_e q sb : sb_mysql (mysql_e q sb) = sb_mysql sb ++ [q].
Proof. reflexivity. Qed.
Lemma mysql_echo l sb : sb_mysql (echo l sb) = sb_mysql sb.
Proof. reflexivity. Qed.
Lemma dirs_redirect l path sb : sb_dirs (redirect l path sb) = sb_dirs sb.
Proof. reflexivity. Qed.
Lemma dirs_redirect_append l path sb : sb_dirs (redirect_append l path sb) = sb_dirs sb.
Proof. unfold redirect_append. destruct (sb_files sb !! path); reflexivity. Qed.
Lemma dirs_chmod m path sb : sb_dirs (chmod m path sb) = sb_dirs sb.
Proof. reflexivity. Qed.
Lemma dirs_mkdir_p d sb : sb_dirs (mkdir_p d sb) = {[d]} ∪ sb_dirs sb.
Proof. reflexivity. Qed.
Lemma dirs_chpasswd_root pw sb : sb_dirs (chpasswd_root pw sb) = sb_dirs sb.
Proof. reflexivity. Qed.
Lemma dirs_service_start n sb : sb_dirs (service_start n sb) = sb_dirs sb.
Proof. reflexivity. Qed.
Lemma dirs_mysql_e q sb : sb_dirs (mysql_e q sb) = sb_dirs sb.
Proof. reflexivity. Qed.
Lemma dirs_echo l sb : sb_dirs (echo l sb) = sb_dirs sb.
Proof. reflexivity. Qed.
Lemma umask_redirect l path sb : sb_umask (redirect l path sb) = sb_umask sb.
Proof. reflexivity. Qed.
Lemma umask_redirect_append l path sb : sb_umask (redirect_append l path sb) = sb_umask sb.
Proof. unfold redirect_append. destruct (sb_files sb !! path); reflexivity. Qed.
Lemma umask_chmod m path sb : sb_umask (chmod m path sb) = sb_umask sb.
Proof. reflexivity. Qed.
Lemma umask_mkdir_p d sb : sb_umask (mkdir_p d sb) = sb_umask sb.
Proof. reflexivity. Qed.
Lemma umask_chpasswd_root pw sb : sb_umask (chpasswd_root pw sb) = sb_umask sb.
Proof. reflexivity. Qed.
Lemma umask_service_start n sb : sb_umask (service_start n sb) = sb_umask sb.
Proof. reflexivity. Qed.
Lemma umask_mysql_e q sb : sb_umask (mysql_e q sb) = sb_umask sb.
Proof. reflexivity. Qed.
Lemma umask_echo l sb : sb_umask (echo l sb) = sb_umask sb.
Proof. reflexivity. Qed.
Lemma password_redirect l path sb : sb_root_password (redirect l path sb) = sb_root_password sb.
Proof. reflexivity. Qed.
Lemma password_chmod m path sb : sb_root_password (chmod m path sb) = sb_root_password sb.
Proof. reflexivity. Qed.
Lemma password_mkdir_p d sb : sb_root_password (mkdir_p d sb) = sb_root_password sb.
Proof. reflexivity. Qed.
Lemma password_mysql_e q sb : sb_root_password (mysql_e q sb) = sb_root_password sb.
Proof. reflexivity. Qed.

#[local] Hint Rewrite mysql_redirect mysql_redirect_append mysql_chmod
  mysql_mkdir_p mysql_chpasswd_root mysql_service_start mysql_mysql_e
  mysql_echo dirs_redirect dirs_redirect_append dirs_chmod dirs_mkdir_p
  dirs_chpasswd_root dirs_service_start dirs_mysql_e dirs_echo umask_redirect
  umask_redirect_append umask_chmod umask_mkdir_p umask_chpasswd_root
  umask_service_start umask_mysql_e umask_echo password_redirect
  password_chmod password_mkdir_p password_mysql_e password_service_start
  password_chpasswd_root password_echo password_redirect_append
  files_service_start files_chpasswd_root files_mysql_e files_echo
  files_mkdir_p services_service_start services_chpasswd_root services_mysql_e
  services_echo services_mkdir_p services_redirect services_redirect_append :
  sandbox.

Lemma append_assoc (a b c : string) : (a +:+ b) +:+ c = a +:+ (b +:+ c).
Proof. induction a as [|x a IH]; [reflexivity|]. rewrite !append_cons, IH. reflexivity. Qed.

Lemma after_init_files img g q :
  q <> secret_path -> q <> flag_path ->
  sb_files (fst (after_init img g)) !! q = sb_files img !! q.
Proof.
  intros Hs Hf.
  unfold after_init, init_secrets, sh_bind, run, draw, sh_ret. cbn [fst snd].
  rewrite lookup_chmod, decide_False by congruence.
  rewrite lookup_redirect, decide_False by congruence.
  rewrite lookup_chmod, decide_False by congruence.
  rewrite lookup_redirect, decide_False by congruence.
  reflexivity.
Qed.

(** The case statement, file by file: the ssh configuration is written
    in profile 1 only and the key file in profile 3 only. *)
Lemma profile_setup_files_exact code p s q :
  (p = 1%Z -> q <> sshd_config_path) -> (p = 3%Z -> q <> keys_path) ->
  sb_files (fst (snd (profile_setup code p s))) !! q = sb_files (fst s) !! q.
Proof.
  intros Hssh Hkeys.
  destruct (decide (p = 1%Z)) as [->|H1];
    [|destruct (decide (p = 2%Z)) as [->|H2];
      [|destruct (decide (p = 3%Z)) as [->|H3]]].
  - unfold profile_setup. script_steps.
    rewrite !lookup_redirect_append_ne by (intros <-; apply Hssh; reflexivity).
    reflexivity.
  - unfold profile_setup. script_steps. reflexivity.
  - unfold profile_setup. script_steps.
    rewrite lookup_redirect, decide_False by (intros <-; apply Hkeys; reflexivity).
    reflexivity.
  - rewrite profile_setup_other by assumption. reflexivity.
Qed.

Lemma provision_files_exact img g q :
  ~ In q (written_paths (profile img g)) ->
  sb_files (provision img g) !! q = sb_files img !! q.
Proof.
  intros Hq. unfold written_paths in Hq. rewrite in_app_iff in Hq. cbn [In] in Hq.
  rewrite provision_eq. cbv zeta. rewrite files_echo.
  rewrite profile_setup_files_exact.
  - cbn [fst]. rewrite lookup_redirect, decide_False by (intros <-; tauto).
    cbn [fst snd draw]. apply after_init_files; intros ->; tauto.
  - intros Hp ->. apply Hq. right. rewrite Hp, decide_True by reflexivity. left. reflexivity.
  - intros Hp ->. apply Hq. right. rewrite Hp, decide_False by discriminate.
    rewrite decide_True by reflexivity. left. reflexivity.
Qed.


Lemma provision_service_elem (img : sandbox) (g : rng) (n : string) :
  n ∈ sb_services (provision img g) <->
  n = "ssh" \/ (profile img g <> 1%Z /\ n = "apache2") \/
  (profile img g = 2%Z /\ n = "mariadb") \/ n ∈ sb_services img.
Proof.
  rewrite provision_services.
  destruct (profile_cases img g) as [Hp|[Hp|Hp]]; rewrite Hp.
  - rewrite decide_True by reflexivity.
    rewrite elem_of_union, elem_of_singleton.
    intuition (discriminate || congruence).
  - rewrite decide_False by discriminate. rewrite decide_True by reflexivity.
    rewrite !elem_of_union, !elem_of_singleton.
    intuition (discriminate || congruence).
  - rewrite !decide_False by discriminate.
    rewrite !elem_of_union, !elem_of_singleton.
    intuition (discriminate || congruence).
Qed.

(** X9: every run starts the ssh service; the web server is started in
    profiles 2 and 3 and not in profile 1, the database in profile 2
    only, and no other service is started. *)
Theorem services_by_profile (img : sandbox) (g : rng) :
  "ssh" ∈ sb_services (provision img g) /\
  ("apache2" ∈ sb_services (provision img g) <->
     profile img g <> 1%Z \/ "apache2" ∈ sb_services img) /\
  ("mariadb" ∈ sb_services (provision img g) <->
     profile img g = 2%Z \/ "mariadb" ∈ sb_services img) /\
  (forall n : string, n ∈ sb_services (provision img g) ->
     n = "ssh" \/ n = "apache2" \/ n = "mariadb" \/ n ∈ sb_services img).
Proof.
  split; [|split; [|split]].
  - apply provision_service_elem. left. reflexivity.
  - rewrite provision_service_elem. split.
    + intros [H|[[H _]|[[_ H]|H]]]; try discriminate H; tauto.
    + intros [H|H]; tauto.
  - rewrite provision_service_elem. split.
    + intros [H|[[_ H]|[[H _]|H]]]; try discriminate H; tauto.
    + intros [H|H]; tauto.
  - intros n Hn. apply provision_service_elem in Hn. tauto.
Qed.

Lemma mysql_after_init img g :
  sb_mysql (fst (snd (draw RANDOM (after_init img g)))) = sb_mysql img.
Proof. reflexivity. Qed.

Lemma PASSWORDS_short (w : string) : In w PASSWORDS -> String.length w <= 8.
Proof.
  unfold PASSWORDS. cbn [In].
  intros [<-|[<-|[<-|[<-|[<-|[<-|[<-|[<-|[]]]]]]]]]; cbn; lia.
Qed.

(** X10: outside profile 1 the root password is not a dictionary word:
    it is the hex encoding of the twelve random bytes that follow the
    eight of the admin code, twenty-four characters long, whatever
    [$RANDOM] yields. *)
Theorem root_password_outside_profile_1 (img : sandbox) (g : rng) :
  profile img g = 1%Z \/
  (sb_root_password (provision img g) =
     Some (hex_encode (take_bytes 12 (snd (openssl_rand_hex 8 g)))) /\
   String.length (hex_encode (take_bytes 12 (snd (openssl_rand_hex 8 g)))) = 24 /\
   ~ In (hex_encode (take_bytes 12 (snd (openssl_rand_hex 8 g)))) PASSWORDS).
Proof.
  destruct (profile_cases img g) as [Hp|Hp]; [left; exact Hp|right].
  assert (Hlen : String.length (hex_encode (take_bytes 12 (snd (openssl_rand_hex 8 g)))) = 24).
  { rewrite hex_encode_length, take_bytes_length. reflexivity. }
  split; [|split; [exact Hlen|]].
  - rewrite provision_eq. cbv zeta. rewrite password_echo.
    destruct Hp as [Hp|Hp]; rewrite Hp; unfold profile_setup; script_steps; reflexivity.
  - intros Hin. apply PASSWORDS_short in Hin. lia.
Qed.

(** X11: where the admin code is put. In profile 2 five statements are
    sent to the database, one of which inserts the code of the secret
    file into secrets.config; in profile 3 the key file holds the code
    and its directory exists. No statement is sent outside profile 2,
    and the key file is not written outside profile 3. *)
Theorem secret_placement (img : sandbox) (g : rng) :
  (profile img g = 2%Z ->
     In (insert_admin_code (admin_code img g)) (sb_mysql (provision img g)) /\
     length (sb_mysql (provision img g)) = length (sb_mysql img) + 5) /\
  (profile img g <> 2%Z -> sb_mysql (provision img g) = sb_mysql img) /\
  (profile img g = 3%Z ->
     file_get_contents keys_path (provision img g) =
       Some ("The admin code is: " +:+ admin_code img g +:+ LF) /\
     "/var/www/html/secret_ops" ∈ sb_dirs (provision img g)) /\
  (profile img g <> 3%Z ->
     sb_files (provision img g) !! keys_path = sb_files img !! keys_path).
Proof.
  split; [|split; [|split]].
  - intros Hp. rewrite provision_eq. cbv zeta. rewrite mysql_echo, Hp.
    unfold profile_setup. script_steps. rewrite mysql_after_init.
    rewrite !length_app. cbn [length].
    split; [|lia]. rewrite !in_app_iff. cbn [In]. unfold insert_admin_code. tauto.
  - intros Hp. rewrite provision_eq. cbv zeta. rewrite mysql_echo.
    destruct (profile_cases img g) as [Hq|[Hq|Hq]]; [|contradiction|];
      rewrite Hq; unfold profile_setup; script_steps; reflexivity.
  - intros Hp. split.
    + unfold file_get_contents. rewrite provision_eq. cbv zeta. rewrite files_echo, Hp.
      unfold profile_setup. script_steps.
      rewrite lookup_redirect, decide_True by reflexivity. reflexivity.
    + rewrite provision_eq. cbv zeta. rewrite dirs_echo, Hp.
      unfold profile_setup. script_steps.
      apply elem_of_union_l, elem_of_singleton. reflexivity.
  - intros Hp. apply provision_files_exact. unfold written_paths.
    rewrite in_app_iff. cbn [In]. intros [[H|[H|[H|[]]]]|H]; try discriminate H.
    destruct (decide (profile img g = 1%Z)); [destruct H as [H|[]]; discriminate H|].
    rewrite decide_False in H by exact Hp. destruct H.
Qed.

Lemma content_redirect_append (line path : string) (sb : sandbox) :
  f_content <$> sb_files (redirect_append line path sb) !! path =
  Some (default EmptyString (f_content <$> sb_files sb !! path) +:+ line +:+ LF).
Proof.
  unfold redirect_append.
  destruct (sb_files sb !! path) as [f|] eqn:Hf.
  - unfold with_files. cbn [sb_files]. rewrite lookup_insert_eq. reflexivity.
  - rewrite lookup_redirect, decide_True by reflexivity. reflexivity.
Qed.

(** X12: profile 1 appends the two lines that permit root and password
    logins to the ssh configuration, after whatever the image's file
    holds (or to a new file when the image has none); profiles 2 and 3
    leave the configuration as the image has it. *)
Theorem ssh_configuration (img : sandbox) (g : rng) :
  (profile img g = 1%Z ->
     file_get_contents sshd_config_path (provision img g) =
       Some (default EmptyString (file_get_contents sshd_config_path img) +:+ sshd_lines)) /\
  (profile img g <> 1%Z ->
     sb_files (provision img g) !! sshd_config_path = sb_files img !! sshd_config_path).
Proof.
  split.
  - intros Hp. unfold file_get_contents.
    rewrite provision_eq. cbv zeta. rewrite files_echo, Hp.
    unfold profile_setup. script_steps.
    fold sshd_config_path. rewrite !content_redirect_append.
    autorewrite with sandbox.
    rewrite lookup_redirect, decide_False by discriminate.
    cbn [fst snd draw]. rewrite after_init_files by discriminate.
    cbn [from_option]. unfold id, sshd_lines.
    rewrite !append_assoc. reflexivity.
  - intros Hp. apply provision_files_exact. unfold written_paths.
    rewrite in_app_iff. cbn [In]. intros [[H|[H|[H|[]]]]|H]; try discriminate H.
    rewrite decide_False in H by exact Hp.
    destruct (decide (profile img g = 3%Z)); [destruct H as [H|[]]; discriminate H|destruct H].
Qed.

End ProvisionExtras.

(* ===================================================================== *)
(** * The files a provisioning run leaves                                 *)
(* ===================================================================== *)

Module ProgramsExtras.
Import Php Shell Target TargetMore TargetFacts TargetPrograms.

(** *** Commands that keep a file *)

Lemma keeps_file_ret {A} (q : string) (a : A) : keeps_file q (sh_ret a).
Proof. intros s. reflexivity. Qed.

Lemma keeps_file_bind {A B} (q : string) (c : Sh A) (k : A -> Sh B) :
  keeps_file q c -> (forall x, keeps_file q (k x)) -> keeps_file q (sh_bind c k).
Proof.
  intros Hc Hk s. unfold sh_bind. cbv zeta. rewrite Hk. apply Hc.
Qed.

Lemma keeps_file_draw {A} (q : string) (f : rng -> A * rng) : keeps_file q (draw f).
Proof. intros s. reflexivity. Qed.

Lemma keeps_file_run (q : string) (f : sandbox -> sandbox) :
  (forall sb, sb_files (f sb) !! q = sb_files sb !! q) -> keeps_file q (run f).
Proof. intros Hf s. apply Hf. Qed.

Lemma keeps_file_redirect (q line path : string) :
  path <> q -> keeps_file q (run (redirect line path)).
Proof.
  intros Hne. apply keeps_file_run. intros sb.
  rewrite lookup_redirect. apply decide_False, Hne.
Qed.

Lemma keeps_file_redirect_append (q line path : string) :
  path <> q -> keeps_file q (run (redirect_append line path)).
Proof.
  intros Hne. apply keeps_file_run. intros sb.
  apply lookup_redirect_append_ne, Hne.
Qed.

Lemma keeps_file_chmod (q : string) (m : Z) (path : string) :
  path <> q -> keeps_file q (run (chmod m path)).
Proof.
  intros Hne. apply keeps_file_run. intros sb.
  rewrite lookup_chmod. apply decide_False, Hne.
Qed.

Lemma keeps_file_writes (q : string) (e : effect) :
  leaves_file q e -> keeps_file q (run (writes e)).
Proof. intros He. apply keeps_file_run. intros sb. apply He. Qed.

Lemma keeps_file_openssl (P : programs) (q : string) (n : nat) :
  programs_leave_file q P -> keeps_file q (openssl_rand_hex_with P n).
Proof.
  intros HP. unfold openssl_rand_hex_with.
  apply keeps_file_bind; [apply keeps_file_draw|]. intros x.
  apply keeps_file_bind; [|intros; apply keeps_file_ret].
  apply keeps_file_writes, HP.
Qed.

Lemma keeps_file_chpasswd (P : programs) (q pw : string) :
  programs_leave_file q P -> keeps_file q (chpasswd_root_with P pw).
Proof.
  intros HP. unfold chpasswd_root_with.
  apply keeps_file_bind; [apply keeps_file_run; reflexivity|]. intros _.
  apply keeps_file_writes, HP.
Qed.

Lemma keeps_file_service (P : programs) (q name : string) :
  programs_leave_file q P -> keeps_file q (service_start_with P name).
Proof.
  intros HP. unfold service_start_with.
  apply keeps_file_bind; [apply keeps_file_run; reflexivity|]. intros _.
  apply keeps_file_writes, HP.
Qed.

Lemma keeps_file_mysql (P : programs) (q stmt : string) :
  programs_leave_file q P -> keeps_file q (mysql_e_with P stmt).
Proof.
  intros HP. unfold mysql_e_with.
  apply keeps_file_bind; [apply keeps_file_run; reflexivity|]. intros _.
  apply keeps_file_writes, HP.
Qed.

(** One command of the script after the other. *)
Ltac keeps_step :=
  cbv zeta;
  lazymatch goal with
  | |- keeps_file _ (sh_bind _ _) => apply keeps_file_bind; [|intros ?]
  | |- keeps_file _ (sh_ret _) => apply keeps_file_ret
  | |- keeps_file _ (draw _) => apply keeps_file_draw
  | |- keeps_file _ (openssl_rand_hex_with _ _) => apply keeps_file_openssl; assumption
  | |- keeps_file _ (chpasswd_root_with _ _) => apply keeps_file_chpasswd; assumption
  | |- keeps_file _ (service_start_with _ _) => apply keeps_file_service; assumption
  | |- keeps_file _ (mysql_e_with _ _) => apply keeps_file_mysql; assumption
  | |- keeps_file _ (run (redirect _ _)) => apply keeps_file_redirect
  | |- keeps_file _ (run (redirect_append _ _)) => apply keeps_file_redirect_append
  | |- keeps_file _ (run (chmod _ _)) => apply keeps_file_chmod
  | |- keeps_file _ (run (echo _)) => apply keeps_file_run; reflexivity
  | |- keeps_file _ (run (mkdir_p _)) => apply keeps_file_run; reflexivity
  end.

Lemma keeps_file_init_secrets (P : programs) (q : string) :
  programs_leave_file q P ->
  q <> secret_path -> q <> flag_path -> keeps_file q (init_secrets_with P).
Proof.
  intros HP Hs Hf. unfold init_secrets_with. repeat keeps_step; congruence.
Qed.

Lemma keeps_file_select_profile (q : string) : keeps_file q select_profile.
Proof. intros s. reflexivity. Qed.

Lemma profile_setup_with_other (P : programs) (code : string) (p : Z) :
  p <> 1%Z -> p <> 2%Z -> p <> 3%Z -> profile_setup_with P code p = sh_ret tt.
Proof.
  intros H1 H2 H3. unfold profile_setup_with.
  destruct p as [|[[]|[]|]|]; try reflexivity; congruence.
Qed.

Lemma keeps_file_profile_setup (P : programs) (q code : string) (p : Z) :
  programs_leave_file q P ->
  (p = 1%Z -> q <> sshd_config_path) -> (p = 3%Z -> q <> keys_path) ->
  keeps_file q (profile_setup_with P code p).
Proof.
  intros HP Hssh Hkeys.
  destruct (decide (p = 1%Z)) as [->|H1];
    [|destruct (decide (p = 2%Z)) as [->|H2];
      [|destruct (decide (p = 3%Z)) as [->|H3]]].
  - unfold profile_setup_with. repeat keeps_step;
      intros <-; apply Hssh; reflexivity.
  - unfold profile_setup_with. repeat keeps_step.
  - unfold profile_setup_with. repeat keeps_step.
    intros <-. apply Hkeys; reflexivity.
  - rewrite profile_setup_with_other by assumption. apply keeps_file_ret.
Qed.

(** *** The run with and without what the programs write *)

Lemma same_outside_tree_refl (sb : sandbox) : same_outside_tree sb sb.
Proof. repeat split. Qed.

Lemma same_but_tree_ret {A} (a : A) : same_but_tree (sh_ret a) (sh_ret a).
Proof. intros s s' Hg Hsb. auto. Qed.

Lemma same_but_tree_bind {A B} (c c' : Sh A) (k k' : A -> Sh B) :
  same_but_tree c c' -> (forall x, same_but_tree (k x) (k' x)) ->
  same_but_tree (sh_bind c k) (sh_bind c' k').
Proof.
  intros Hc Hk s s' Hg Hsb. unfold sh_bind. cbv zeta.
  destruct (Hc s s' Hg Hsb) as (Hv & Hg' & Hsb').
  rewrite Hv. apply Hk.
  - destruct (c s) as [? []], (c' s') as [? []]. exact Hg'.
  - exact Hsb'.
Qed.

Lemma same_but_tree_draw {A} (f : rng -> A * rng) : same_but_tree (draw f) (draw f).
Proof.
  intros s s' Hg Hsb. unfold draw. cbn [fst snd]. rewrite Hg. auto.
Qed.

Lemma same_but_tree_run (f f' : sandbox -> sandbox) :
  (forall sb sb', same_outside_tree sb sb' -> same_outside_tree (f sb) (f' sb')) ->
  same_but_tree (run f) (run f').
Proof.
  intros Hf s s' Hg Hsb. unfold run. cbn [fst snd]. auto.
Qed.

Lemma same_outside_writes (e : effect) (sb sb' : sandbox) :
  same_outside_tree sb sb' -> same_outside_tree (writes e sb) sb'.
Proof. intros H. exact H. Qed.

Lemma same_outside_redirect_append (line path : string) (sb sb' : sandbox) :
  same_outside_tree sb sb' ->
  same_outside_tree (redirect_append line path sb) (redirect_append line path sb').
Proof.
  intros H. unfold redirect_append.
  destruct (sb_files sb !! path), (sb_files sb' !! path); exact H.
Qed.

Lemma same_outside_redirect (line path : string) (sb sb' : sandbox) :
  same_outside_tree sb sb' ->
  same_outside_tree (redirect line path sb) (redirect line path sb').
Proof. intros H. exact H. Qed.

Lemma same_outside_chmod (m : Z) (path : string) (sb sb' : sandbox) :
  same_outside_tree sb sb' ->
  same_outside_tree (chmod m path sb) (chmod m path sb').
Proof. intros H. exact H. Qed.

Lemma same_outside_mkdir_p (path : string) (sb sb' : sandbox) :
  same_outside_tree sb sb' ->
  same_outside_tree (mkdir_p path sb) (mkdir_p path sb').
Proof. intros H. exact H. Qed.

Lemma same_outside_echo (line : string) (sb sb' : sandbox) :
  same_outside_tree sb sb' ->
  same_outside_tree (echo line sb) (echo line sb').
Proof.
  intros (E1 & E2 & E3 & E4 & E5). repeat split; try assumption.
  cbn. rewrite E5. reflexivity.
Qed.

Lemma same_but_tree_openssl (P : programs) (n : nat) :
  same_but_tree (openssl_rand_hex_with P n) (draw (openssl_rand_hex n)).
Proof.
  intros s s' Hg Hsb. unfold openssl_rand_hex_with, sh_bind, run, draw, sh_ret.
  cbn [fst snd]. rewrite Hg. auto.
Qed.

Lemma same_but_tree_chpasswd (P : programs) (pw : string) :
  same_but_tree (chpasswd_root_with P pw) (run (chpasswd_root pw)).
Proof.
  intros s s' Hg (E1 & E2 & E3 & E4 & E5).
  unfold chpasswd_root_with, sh_bind, run. cbn [fst snd].
  repeat split; assumption.
Qed.

Lemma same_but_tree_service (P : programs) (name : string) :
  same_but_tree (service_start_with P name) (run (service_start name)).
Proof.
  intros s s' Hg (E1 & E2 & E3 & E4 & E5).
  unfold service_start_with, sh_bind, run. cbn [fst snd].
  repeat split; try assumption. cbn. rewrite E3. reflexivity.
Qed.

Lemma same_but_tree_mysql (P : programs) (stmt : string) :
  same_but_tree (mysql_e_with P stmt) (run (mysql_e stmt)).
Proof.
  intros s s' Hg (E1 & E2 & E3 & E4 & E5).
  unfold mysql_e_with, sh_bind, run. cbn [fst snd].
  repeat split; try assumption. cbn. rewrite E4. reflexivity.
Qed.

Ltac same_step :=
  cbv zeta;
  lazymatch goal with
  | |- same_but_tree (sh_bind _ _) (sh_bind _ _) => apply same_but_tree_bind; [|intros ?]
  | |- same_but_tree (sh_ret _) (sh_ret _) => apply same_but_tree_ret
  | |- same_but_tree (draw _) (draw _) => apply same_but_tree_draw
  | |- same_but_tree (openssl_rand_hex_with _ _) _ => apply same_but_tree_openssl
  | |- same_but_tree (chpasswd_root_with _ _) _ => apply same_but_tree_chpasswd
  | |- same_but_tree (service_start_with _ _) _ => apply same_but_tree_service
  | |- same_but_tree (mysql_e_with _ _) _ => apply same_but_tree_mysql
  | |- same_but_tree (run (redirect_append _ _)) _ =>
      apply same_but_tree_run; apply same_outside_redirect_append
  | |- same_but_tree (run (redirect _ _)) _ =>
      apply same_but_tree_run; apply same_outside_redirect
  | |- same_but_tree (run (chmod _ _)) _ =>
      apply same_but_tree_run; apply same_outside_chmod
  | |- same_but_tree (run (mkdir_p _)) _ =>
      apply same_but_tree_run; apply same_outside_mkdir_p
  | |- same_but_tree (run (echo _)) _ =>
      apply same_but_tree_run; apply same_outside_echo
  end.

Lemma same_but_tree_profile_setup (P : programs) (code : string) (p : Z) :
  same_but_tree (profile_setup_with P code p) (profile_setup code p).
Proof.
  destruct (decide (p = 1%Z)) as [->|H1];
    [|destruct (decide (p = 2%Z)) as [->|H2];
      [|destruct (decide (p = 3%Z)) as [->|H3]]].
  - unfold profile_setup_with, profile_setup. repeat same_step.
  - unfold profile_setup_with, profile_setup. repeat same_step.
  - unfold profile_setup_with, profile_setup. repeat same_step.
  - rewrite profile_setup_with_other, profile_setup_other by assumption.
    apply same_but_tree_ret.
Qed.

Lemma same_but_tree_entrypoint (P : programs) :
  same_but_tree (entrypoint_with P) entrypoint.
Proof.
  unfold entrypoint_with, entrypoint, init_secrets_with, init_secrets, select_profile.
  repeat same_step. apply same_but_tree_profile_setup.
Qed.

(** *** Programs that write nothing *)

Lemma writes_nothing (sb : sandbox) : writes (fun t => t) sb = sb.
Proof. destruct sb. reflexivity. Qed.

Lemma same_command_refl {A} (c : Sh A) : same_command c c.
Proof. intros s. reflexivity. Qed.

Lemma same_command_bind {A B} (c c' : Sh A) (k k' : A -> Sh B) :
  same_command c c' -> (forall x, same_command (k x) (k' x)) ->
  same_command (sh_bind c k) (sh_bind c' k').
Proof. intros Hc Hk s. unfold sh_bind. cbv zeta. rewrite Hc. apply Hk. Qed.

Lemma silent_openssl (n : nat) :
  same_command (openssl_rand_hex_with silent n) (draw (openssl_rand_hex n)).
Proof.
  intros [sb g]. unfold openssl_rand_hex_with, sh_bind, run, draw, sh_ret.
  cbn [fst snd silent openssl_writes]. rewrite writes_nothing. reflexivity.
Qed.

Lemma silent_chpasswd (pw : string) :
  same_command (chpasswd_root_with silent pw) (run (chpasswd_root pw)).
Proof.
  intros [sb g]. unfold chpasswd_root_with, sh_bind, run.
  cbn [fst snd silent chpasswd_writes]. rewrite writes_nothing. reflexivity.
Qed.

Lemma silent_service (name : string) :
  same_command (service_start_with silent name) (run (service_start name)).
Proof.
  intros [sb g]. unfold service_start_with, sh_bind, run.
  cbn [fst snd silent service_writes]. rewrite writes_nothing. reflexivity.
Qed.

Lemma silent_mysql (stmt : string) :
  same_command (mysql_e_with silent stmt) (run (mysql_e stmt)).
Proof.
  intros [sb g]. unfold mysql_e_with, sh_bind, run.
  cbn [fst snd silent mysql_writes]. rewrite writes_nothing. reflexivity.
Qed.

Ltac silent_step :=
  cbv zeta;
  lazymatch goal with
  | |- same_command (sh_bind _ _) (sh_bind _ _) => apply same_command_bind; [|intros ?]
  | |- same_command (openssl_rand_hex_with _ _) _ => apply silent_openssl
  | |- same_command (chpasswd_root_with _ _) _ => apply silent_chpasswd
  | |- same_command (service_start_with _ _) _ => apply silent_service
  | |- same_command (mysql_e_with _ _) _ => apply silent_mysql
  | |- same_command _ _ => apply same_command_refl
  end.

Lemma silent_profile_setup (code : string) (p : Z) :
  same_command (profile_setup_with silent code p) (profile_setup code p).
Proof.
  destruct (decide (p = 1%Z)) as [->|H1];
    [|destruct (decide (p = 2%Z)) as [->|H2];
      [|destruct (decide (p = 3%Z)) as [->|H3]]].
  - unfold profile_setup_with, profile_setup. repeat silent_step.
  - unfold profile_setup_with, profile_setup. repeat silent_step.
  - unfold profile_setup_with, profile_setup. repeat silent_step.
  - rewrite profile_setup_with_other, profile_setup_other by assumption.
    apply same_command_refl.
Qed.

Lemma silent_entrypoint : same_command (entrypoint_with silent) entrypoint.
Proof.
  unfold entrypoint_with, entrypoint, init_secrets_with, init_secrets.
  apply same_command_bind.
  { repeat silent_step. }
  intros code. apply same_command_bind; [apply same_command_refl|]. intros p.
  apply same_command_bind; [apply same_command_refl|]. intros _.
  apply same_command_bind; [apply silent_profile_setup|]. intros _.
  apply same_command_refl.
Qed.

(** *** The files of a run *)

Lemma provision_with_eq (P : programs) (img : sandbox) (g : rng) :
  provision_with P img g =
  let s1 := init_secrets_with P (img, g) in
  let s2 := select_profile (snd s1) in
  let s3 := (redirect ("Selected Profile: " +:+ pretty (fst s2)) "/profile.info"
               (fst (snd s2)), snd (snd s2)) in
  let s4 := snd (profile_setup_with P (fst s1) (fst s2) s3) in
  echo ("Container Ready. Profile " +:+ pretty (fst s2) +:+ " active.") (fst s4).
Proof. reflexivity. Qed.

Lemma entrypoint_with_result (P : programs) (img : sandbox) (g : rng) :
  fst (entrypoint_with P (img, g)) = (admin_code img g, profile img g).
Proof.
  destruct (same_but_tree_entrypoint P (img, g) (img, g) eq_refl
              (same_outside_tree_refl img)) as (Hv & _).
  rewrite Hv. reflexivity.
Qed.

(** X8: the files of a run, whatever the programs the script calls
    write on their own account. A path that openssl, chpasswd, service
    and mysql leave alone holds after the run what the image held,
    unless it is one the script itself writes: the secret file, the
    flag file and /profile.info, the ssh configuration in profile 1 and
    the key file in profile 3. What the programs write changes neither
    the admin code nor the profile, nor anything of the sandbox but its
    files and directories; and with programs that write nothing the run
    is the one the other statements are about. *)
Theorem provision_frame (P : programs) (img : sandbox) (g : rng) (q : string) :
  programs_leave_file q P ->
  (In q (written_paths (profile img g)) \/
   sb_files (provision_with P img g) !! q = sb_files img !! q) /\
  fst (entrypoint_with P (img, g)) = (admin_code img g, profile img g) /\
  same_outside_tree (provision_with P img g) (provision img g) /\
  provision_with silent img g = provision img g.
Proof.
  intros HP.
  pose proof (entrypoint_with_result P img g) as Hres.
  split; [|split; [exact Hres|split]].
  - destruct (in_dec String.string_dec q (written_paths (profile img g))) as [Hin|Hout];
      [left; exact Hin|right].
    unfold written_paths in Hout. rewrite in_app_iff in Hout. cbn [In] in Hout.
    rewrite provision_with_eq. cbv zeta. rewrite files_echo.
    assert (Hp : fst (select_profile (snd (init_secrets_with P (img, g)))) = profile img g).
    { change (snd (fst (entrypoint_with P (img, g))) = profile img g).
      rewrite Hres. reflexivity. }
    rewrite Hp.
    rewrite (keeps_file_profile_setup P q _ _ HP).
    + cbn [fst]. rewrite lookup_redirect, decide_False by (intros <-; tauto).
      rewrite (keeps_file_select_profile q (snd (init_secrets_with P (img, g)))).
      apply (keeps_file_init_secrets P q HP); intros ->; tauto.
    + intros H1 ->. apply Hout. right. rewrite H1, decide_True by reflexivity.
      left. reflexivity.
    + intros H3 ->. apply Hout. right. rewrite H3, decide_False by discriminate.
      rewrite decide_True by reflexivity. left. reflexivity.
  - apply (same_but_tree_entrypoint P (img, g) (img, g) eq_refl
             (same_outside_tree_refl img)).
  - unfold provision_with, provision. rewrite silent_entrypoint. reflexivity.
Qed.

End ProgramsExtras.

(* ===================================================================== *)
(** * Statements about the web client                                     *)
(* ===================================================================== *)

Module ClientExtras.
Import Client.

Lemma stored_token_not_empty (w : option browser) (t : string) :
  stored_token w = Some t -> t <> EmptyString.
Proof.
  destruct w as [b|]; [|discriminate]. cbn [stored_token].
  destruct (storage b !! "token") as [t'|]; [|discriminate].
  destruct (String.eqb t' EmptyString) eqn:E; [discriminate|].
  intros [= <-] ->. discriminate.
Qed.

Lemma stored_token_lookup (b : browser) :
  storage b !! "token" = None -> stored_token (Some b) = None.
Proof. intros H. cbn [stored_token]. rewrite H. reflexivity. Qed.

Lemma headers_no_token (opts : options) (w : option browser) :
  stored_token w = None ->
  call_headers opts w !! "Authorization" = headers opts ≫= (.!! "Authorization").
Proof.
  intros Hw. unfold call_headers. rewrite Hw.
  destruct (headers opts) as [existing|]; cbn [mbind option_bind].
  - rewrite lookup_union, lookup_singleton_ne by discriminate.
    destruct (existing !! "Authorization"); reflexivity.
  - apply lookup_singleton_ne. discriminate.
Qed.

Lemma headers_token (opts : options) (w : option browser) (t : string) :
  stored_token w = Some t ->
  call_headers opts w !! "Authorization" = Some ("Bearer " +:+ t).
Proof.
  intros Hw. unfold call_headers. rewrite Hw. apply lookup_insert_eq.
Qed.

Section Calls.

Variable login_path : string.
Variable configured_url : option string.
Variable fetch : fetch_request -> exn + response.

(** X13: the headers of every call. The Authorization header carries
    the stored token whenever one is stored and not empty, over anything
    the caller supplied; with no token, or outside a browser, only a
    caller's own header is sent. The content type is JSON unless the
    caller names another, and every other header is the caller's. *)
Theorem request_headers (endpoint : string) (opts : options) (w : option browser) :
  let sent := fr_headers (call_request configured_url endpoint opts w) in
  sent !! "Authorization" =
    match stored_token w with
    | Some token => Some ("Bearer " +:+ token)
    | None => headers opts ≫= (.!! "Authorization")
    end /\
  sent !! "Content-Type" =
    Some (default "application/json" (headers opts ≫= (.!! "Content-Type"))) /\
  (forall name : string, name <> "Authorization" -> name <> "Content-Type" ->
     sent !! name = headers opts ≫= (.!! name)).
Proof.
  cbn [call_request fr_headers]. split; [|split].
  - destruct (stored_token w) as [t|] eqn:Hw.
    + apply headers_token, Hw.
    + apply headers_no_token, Hw.
  - unfold call_headers.
    assert (Hbase : forall hs : gmap string string,
      match stored_token w with
      | Some token => <["Authorization" := "Bearer " +:+ token]> hs
      | None => hs
      end !! "Content-Type" = hs !! "Content-Type").
    { intros hs. destruct (stored_token w); [|reflexivity].
      apply lookup_insert_ne. discriminate. }
    rewrite Hbase. destruct (headers opts) as [existing|]; cbn [mbind option_bind].
    + rewrite lookup_union, lookup_singleton_eq.
      destruct (existing !! "Content-Type"); reflexivity.
    + rewrite lookup_singleton_eq. reflexivity.
  - intros name Ha Hc. unfold call_headers.
    assert (Hbase : forall hs : gmap string string,
      match stored_token w with
      | Some token => <["Authorization" := "Bearer " +:+ token]> hs
      | None => hs
      end !! name = hs !! name).
    { intros hs. destruct (stored_token w); [|reflexivity].
      apply lookup_insert_ne. congruence. }
    rewrite Hbase. destruct (headers opts) as [existing|]; cbn [mbind option_bind].
    + rewrite lookup_union, lookup_singleton_ne by congruence.
      destruct (existing !! name); reflexivity.
    + apply lookup_singleton_ne. congruence.
Qed.

Lemma apiCall_browser (endpoint : string) (opts : options) (w : option browser) :
  snd (apiCall login_path configured_url fetch endpoint opts w) =
  match fetch (call_request configured_url endpoint opts w) with
  | inr r => on_status login_path r w
  | inl _ => w
  end.
Proof.
  unfold apiCall.
  destruct (fetch (call_request configured_url endpoint opts w)) as [e|r].
  - reflexivity.
  - destruct (negb (ok r) && default true (throwOnError opts)); [reflexivity|].
    destruct (status r =? 401)%Z, (status r =? 204)%Z, (body r); reflexivity.
Qed.

(** X14: what a call does to the browser. Only a response with status
    401 changes it, whatever the endpoint and whether or not the call
    throws on errors: the token is removed, every other stored key (the
    user name too) is kept, the page is sent to the login path, and the
    calls that follow carry no stored token. A rejected fetch and every
    other response leave the browser as it was. *)
Theorem unauthorized_response (endpoint : string) (opts : options) (b : browser) :
  let after := snd (apiCall login_path configured_url fetch endpoint opts (Some b)) in
  match fetch (call_request configured_url endpoint opts (Some b)) with
  | inr r =>
      if (status r =? 401)%Z then
        exists b' : browser,
          after = Some b' /\ href b' = login_path /\
          storage b' !! "token" = None /\
          (forall key : string, key <> "token" -> storage b' !! key = storage b !! key) /\
          (forall (e : string) (o : options),
             fr_headers (call_request configured_url e o after) !! "Authorization" =
             headers o ≫= (.!! "Authorization"))
      else after = Some b
  | inl _ => after = Some b
  end.
Proof.
  cbn zeta. rewrite apiCall_browser.
  destruct (fetch (call_request configured_url endpoint opts (Some b))) as [e|r];
    [reflexivity|].
  unfold on_status. destruct (status r =? 401)%Z; [|reflexivity].
  eexists. split; [reflexivity|]. cbn [href storage].
  split; [reflexivity|]. split; [apply lookup_delete_eq|].
  split.
  - intros key Hkey. apply lookup_delete_ne. congruence.
  - intros e o. cbn [call_request fr_headers]. apply headers_no_token.
    apply stored_token_lookup. cbn [storage]. apply lookup_delete_eq.
Qed.

(** Outside a browser there is nothing to change. *)
Lemma apiCall_no_window (endpoint : string) (opts : options) :
  snd (apiCall login_path configured_url fetch endpoint opts None) = None.
Proof.
  rewrite apiCall_browser.
  destruct (fetch (call_request configured_url endpoint opts None)) as [e|r];
    [reflexivity|].
  unfold on_status. destruct (status r =? 401)%Z; reflexivity.
Qed.

Lemma error_of_shape (error : json) (r : response) :
  error_of error r = TypeError_null \/ exists m : string, error_of error r = Error m.
Proof.
  unfold error_of. destruct error; [left; reflexivity| right ..];
    match goal with
    | |- context [if ?c then _ else _] => destruct c
    end; eexists; reflexivity.
Qed.

(** X15: a call that throws on errors (the default) resolves only on a
    response with a status from 200 to 299: with null on 204, with the
    parsed body otherwise. It rejects when fetch rejects, with that
    reason; on every other status, with an Error (or the TypeError of
    reading a null body) and never with the body or its parse error; and
    on a successful status other than 204 whose body does not parse. *)
Theorem default_mode_outcome (endpoint : string) (opts : options) (w : option browser) :
  throwOnError opts <> Some false ->
  match fst (apiCall login_path configured_url fetch endpoint opts w) with
  | Resolved v =>
      exists r : response,
        fetch (call_request configured_url endpoint opts w) = inr r /\
        ok r = true /\
        (if (status r =? 204)%Z then v = JNull else body r = inr v)
  | Rejected e =>
      fetch (call_request configured_url endpoint opts w) = inl e \/
      exists r : response,
        fetch (call_request configured_url endpoint opts w) = inr r /\
        (if ok r then (status r =? 204)%Z = false /\ body r = inl e
         else e = TypeError_null \/ exists m : string, e = Error m)
  end.
Proof.
  intros Hmode.
  assert (Hthrows : default true (throwOnError opts) = true).
  { destruct (throwOnError opts) as [[|]|]; [reflexivity|congruence|reflexivity]. }
  unfold apiCall. rewrite Hthrows.
  destruct (fetch (call_request configured_url endpoint opts w)) as [e|r].
  - left. reflexivity.
  - destruct (ok r) eqn:Hok; cbn [negb andb fst].
    + destruct (status r =? 204)%Z eqn:H204; cbn [fst].
      * exists r. rewrite Hok, H204. auto.
      * destruct (body r) as [e|v] eqn:Hbody; cbn [fst].
        -- right. exists r. rewrite Hok. auto.
        -- exists r. rewrite Hok, H204. auto.
    + right. exists r. rewrite Hok. split; [reflexivity|]. apply error_of_shape.
Qed.

(** X16: the message of the Error a failed call throws (a status outside
    200 to 299, in a call that throws on errors). A body that is not
    JSON gives Unknown error; a JSON object whose detail is a non-empty
    string gives that string; a JSON value without a detail field, a
    string, a number, a boolean or an array, gives HTTP followed by the
    status; and a body that is JSON null gives no Error but a
    TypeError. *)
Theorem failure_message (endpoint : string) (opts : options) (w : option browser)
    (r : response) :
  throwOnError opts <> Some false ->
  fetch (call_request configured_url endpoint opts w) = inr r ->
  ok r = false ->
  let thrown := fst (apiCall login_path configured_url fetch endpoint opts w) in
  (forall e : exn, body r = inl e -> thrown = Rejected (Error "Unknown error")) /\
  (forall (fields : list (string * json)) (d : string),
     body r = inr (JObj fields) -> field "detail" fields = Some (JStr d) ->
     d <> EmptyString -> thrown = Rejected (Error d)) /\
  (forall v : json,
     body r = inr v -> v <> JNull ->
     (forall fields : list (string * json), v = JObj fields -> field "detail" fields = None) ->
     thrown = Rejected (Error ("HTTP " +:+ pretty (status r)))) /\
  (body r = inr JNull -> thrown = Rejected TypeError_null).
Proof.
  intros Hmode Hfetch Hok.
  assert (Hthrows : default true (throwOnError opts) = true).
  { destruct (throwOnError opts) as [[|]|]; [reflexivity|congruence|reflexivity]. }
  cbn zeta. unfold apiCall. rewrite Hfetch, Hok, Hthrows. cbn [negb andb fst].
  split; [|split; [|split]].
  - intros e ->. reflexivity.
  - intros fields d -> Hd Hne. unfold error_of. rewrite Hd. cbn [truthy].
    destruct (String.eqb d EmptyString) eqn:E.
    + apply String.eqb_eq in E. contradiction.
    + reflexivity.
  - intros v -> Hv Hnone. unfold error_of.
    destruct v as [|bv|z sh|sv|items|fields]; try reflexivity.
    + contradiction.
    + rewrite (Hnone fields eq_refl). reflexivity.
  - intros ->. reflexivity.
Qed.

(** X17: a call made with throwOnError false. A rejected fetch resolves
    with null, and any response whose body parses resolves with that
    body whatever its status, so an error body is handed back as data;
    no Error is built from the status. The call can still reject: the
    body of the final [return response.json()] is not awaited inside the
    try, so a response other than 204 whose body does not parse rejects
    with the parse error. *)
Theorem quiet_mode_outcome (endpoint : string) (opts : options) (w : option browser) :
  throwOnError opts = Some false ->
  match fetch (call_request configured_url endpoint opts w) with
  | inl _ =>
      apiCall login_path configured_url fetch endpoint opts w = (Resolved JNull, w)
  | inr r =>
      fst (apiCall login_path configured_url fetch endpoint opts w) =
      if (status r =? 204)%Z then Resolved JNull
      else match body r with
           | inr v => Resolved v
           | inl e => Rejected e
           end
  end.
Proof.
  intros Hmode. unfold apiCall. rewrite Hmode. cbn [default from_option].
  destruct (fetch (call_request configured_url endpoint opts w)) as [e|r].
  - reflexivity.
  - rewrite andb_false_r.
    destruct (status r =? 204)%Z; [reflexivity|].
    destruct (body r); reflexivity.
Qed.

End Calls.

(** X18: the stored session, from login to logout. Once the login page
    has stored a non-empty token and a user name, the navigation bar
    shows the user as logged in under that name, the guarded pages load,
    and every call carries the token. After the navigation bar's logout,
    whatever was stored, the bar shows no user, the guarded pages send
    the visitor to the login page, calls carry no stored token, and the
    page is the home page. A stored empty token counts as no token. *)
Theorem session_lifecycle (b : browser) (token username : string) :
  (token <> EmptyString ->
     navbar_state (store_session token username b) = (true, username) /\
     page_guard (store_session token username b) = None /\
     forall opts : options,
       call_headers opts (Some (store_session token username b)) !! "Authorization" =
       Some ("Bearer " +:+ token)) /\
  (navbar_state (store_session EmptyString username b) = (false, username) /\
   page_guard (store_session EmptyString username b) = Some "/auth/login") /\
  (navbar_state (handleLogout b) = (false, EmptyString) /\
   page_guard (handleLogout b) = Some "/auth/login" /\
   href (handleLogout b) = "/" /\
   (forall opts : options,
      call_headers opts (Some (handleLogout b)) !! "Authorization" =
      headers opts ≫= (.!! "Authorization")) /\
   storage (handleLogout (handleLogout b)) = storage (handleLogout b)).
Proof.
  assert (Hstored : forall t : string,
    storage (store_session t username b) !! "token" = Some t).
  { intros t. cbn [store_session storage].
    rewrite lookup_insert_ne by discriminate. apply lookup_insert_eq. }
  assert (Hname : forall t : string,
    storage (store_session t username b) !! "username" = Some username).
  { intros t. cbn [store_session storage]. apply lookup_insert_eq. }
  assert (Hout : storage (handleLogout b) !! "token" = None).
  { cbn [handleLogout storage].
    rewrite lookup_delete_ne by discriminate. apply lookup_delete_eq. }
  split; [|split].
  - intros Hne.
    assert (Htok : stored_token (Some (store_session token username b)) = Some token).
    { cbn [stored_token]. rewrite Hstored.
      destruct (String.eqb token EmptyString) eqn:E; [|reflexivity].
      apply String.eqb_eq in E. contradiction. }
    unfold navbar_state, page_guard. rewrite Htok, Hname.
    split; [reflexivity|]. split; [reflexivity|].
    intros opts. apply headers_token, Htok.
  - assert (Htok : stored_token (Some (store_session EmptyString username b)) = None).
    { cbn [stored_token]. rewrite Hstored. reflexivity. }
    unfold navbar_state, page_guard. rewrite Htok, Hname. split; reflexivity.
  - pose proof (stored_token_lookup _ Hout) as Htok.
    unfold navbar_state, page_guard. rewrite Htok.
    split.
    { cbn [handleLogout storage]. rewrite lookup_delete_eq. reflexivity. }
    split; [reflexivity|]. split; [reflexivity|].
    split.
    { intros opts. apply headers_no_token, Htok. }
    cbn [handleLogout storage].
    rewrite (delete_id (delete "username" (delete "token" (storage b))) "token").
    + apply delete_id. apply lookup_delete_eq.
    + rewrite lookup_delete_ne by discriminate. apply lookup_delete_eq.
Qed.

End ClientExtras.

(* ===================================================================== *)
(** * Statements about the terminal of the home page                      *)
(* ===================================================================== *)

Module TerminalExtras.
Import Terminal.

(** *** Characters *)

Lemma space_is_white (c : ascii) : Ascii.eqb c " " = true -> white_space c = true.
Proof. intros ->%Ascii.eqb_eq. reflexivity. Qed.

Lemma visible_not_space (c : ascii) : white_space c = false -> Ascii.eqb c " " = false.
Proof.
  intros Hc. destruct (Ascii.eqb c " ") eqn:E; [|reflexivity].
  apply space_is_white in E. congruence.
Qed.

Lemma lower_space (c : ascii) : Ascii.eqb (lower c) " " = Ascii.eqb c " ".
Proof. destruct c as [[] [] [] [] [] [] [] []]; reflexivity. Qed.

(** *** [trim] *)

Lemma trimStart_shape (s : string) :
  trimStart s = EmptyString \/ first_visible (trimStart s) = true.
Proof.
  induction s as [|c s IH]; [left; reflexivity|]. cbn [trimStart].
  destruct (white_space c) eqn:Hc; [exact IH|].
  right. cbn [first_visible]. rewrite Hc. reflexivity.
Qed.

Lemma trimEnd_first_visible (s : string) :
  first_visible s = true ->
  first_visible (trimEnd s) = true.
Proof.
  destruct s as [|c s]; [discriminate|]. cbn [first_visible trimEnd].
  intros Hc. destruct (trimEnd s); [|exact Hc].
  destruct (white_space c) eqn:E; [discriminate|].
  cbn [first_visible]. rewrite E. reflexivity.
Qed.

Lemma trim_shape (s : string) :
  trim s = EmptyString \/ first_visible (trim s) = true.
Proof.
  unfold trim. destruct (trimStart_shape s) as [->|H].
  - left. reflexivity.
  - right. apply trimEnd_first_visible, H.
Qed.

Lemma trimStart_first_visible (s : string) : first_visible s = true -> trimStart s = s.
Proof.
  destruct s as [|c s]; [reflexivity|]. cbn [first_visible trimStart].
  destruct (white_space c); [discriminate|reflexivity].
Qed.

Lemma trimEnd_idem (s : string) : trimEnd (trimEnd s) = trimEnd s.
Proof.
  induction s as [|c s IH]; [reflexivity|]. cbn [trimEnd].
  destruct (trimEnd s) as [|c' t] eqn:E.
  - destruct (white_space c) eqn:Hc; [reflexivity|].
    cbn [trimEnd]. rewrite Hc. reflexivity.
  - change (trimEnd (String c (String c' t))) with
      (match trimEnd (String c' t) with
       | EmptyString => if white_space c then EmptyString else String c EmptyString
       | t' => String c t'
       end).
    rewrite IH. reflexivity.
Qed.

Lemma js_trim_idem (s : string) : trim (trim s) = trim s.
Proof.
  destruct (trim_shape s) as [H|H].
  - rewrite H. reflexivity.
  - unfold trim at 1. rewrite (trimStart_first_visible _ H).
    unfold trim. apply trimEnd_idem.
Qed.

Lemma trimStart_app_white (l s : string) :
  all_white_space l = true -> trimStart (l +:+ s) = trimStart s.
Proof.
  induction l as [|c l IH]; [reflexivity|]. cbn [all_white_space].
  intros [Hc Hl]%andb_true_iff.
  change (String c l +:+ s) with (String c (l +:+ s)).
  cbn [trimStart]. rewrite Hc. auto.
Qed.

Lemma trimEnd_all_white (r : string) : all_white_space r = true -> trimEnd r = EmptyString.
Proof.
  induction r as [|c r IH]; [reflexivity|]. cbn [all_white_space trimEnd].
  intros [Hc Hr]%andb_true_iff. rewrite (IH Hr), Hc. reflexivity.
Qed.

Lemma trimEnd_last_visible (s : string) : last_visible s = true -> trimEnd s = s.
Proof.
  induction s as [|c s IH]; [discriminate|].
  destruct s as [|c' s'].
  - cbn [last_visible trimEnd]. destruct (white_space c); [discriminate|reflexivity].
  - intros H.
    change (trimEnd (String c (String c' s'))) with
      (match trimEnd (String c' s') with
       | EmptyString => if white_space c then EmptyString else String c EmptyString
       | t' => String c t'
       end).
    rewrite (IH H). reflexivity.
Qed.

Lemma trimEnd_app_white (s r : string) :
  last_visible s = true -> all_white_space r = true -> trimEnd (s +:+ r) = s.
Proof.
  intros Hs Hr. induction s as [|c s IH]; [discriminate|].
  change (String c s +:+ r) with (String c (s +:+ r)).
  destruct s as [|c' s'].
  - cbn [last_visible] in Hs. change (EmptyString +:+ r) with r.
    cbn [trimEnd]. rewrite (trimEnd_all_white _ Hr).
    destruct (white_space c); [discriminate|reflexivity].
  - cbn [trimEnd]. cbn [trimEnd] in IH. rewrite (IH Hs). reflexivity.
Qed.

Lemma js_trim_spec (l s r : string) :
  all_white_space l = true -> all_white_space r = true ->
  first_visible s = true -> last_visible s = true ->
  trim (l +:+ s +:+ r) = s.
Proof.
  intros Hl Hr Hf Hlast. unfold trim.
  rewrite (trimStart_app_white _ _ Hl).
  rewrite trimStart_first_visible.
  - apply trimEnd_app_white; assumption.
  - destruct s; [discriminate|]. exact Hf.
Qed.

(** *** [split] and the words of an input *)

Lemma split_not_nil (sep : ascii) (s : string) : split sep s <> [].
Proof.
  induction s as [|c s IH]; cbn [split]; [discriminate|].
  destruct (Ascii.eqb c sep); [discriminate|].
  destruct (split sep s); discriminate.
Qed.

Lemma split_visible (c : ascii) (s : string) :
  Ascii.eqb c " " = false ->
  exists (w : string) (ws : list string), split " " (String c s) = String c w :: ws.
Proof.
  intros Hc. cbn [split]. rewrite Hc.
  destruct (split " " s) as [|w ws]; eauto.
Qed.

Lemma split_no_space (w : string) : no_space w = true -> split " " w = [w].
Proof.
  induction w as [|c w IH]; [reflexivity|]. cbn [no_space split].
  intros [Hc Hw]%andb_true_iff. apply negb_true_iff in Hc.
  rewrite Hc, (IH Hw). reflexivity.
Qed.

Lemma split_app (a b : string) :
  split " " (a +:+ String " " b) = split " " a ++ split " " b.
Proof.
  induction a as [|c a IH]; [reflexivity|].
  change (String c a +:+ String " " b) with (String c (a +:+ String " " b)).
  cbn [split]. rewrite IH.
  destruct (Ascii.eqb c " "); [reflexivity|].
  destruct (split " " a) as [|w ws] eqn:E; [destruct (split_not_nil _ _ E)|].
  reflexivity.
Qed.

Lemma words_of (s : string) :
  words s = filter (fun a => Boolean a = true) (split " " (trim s)).
Proof. reflexivity. Qed.

Lemma filter_split_spaces (n : nat) (s : string) :
  filter (fun a => Boolean a = true) (split " " (spaces n +:+ s)) =
  filter (fun a => Boolean a = true) (split " " s).
Proof.
  induction n as [|n IH]; [reflexivity|].
  change (spaces (S n) +:+ s) with (String " " (spaces n +:+ s)).
  cbn [split Ascii.eqb Bool.eqb]. rewrite filter_cons_False; [exact IH|].
  discriminate.
Qed.

Lemma Boolean_true (s : string) : Boolean s = true <-> s <> EmptyString.
Proof.
  unfold Boolean. rewrite negb_true_iff. split.
  - intros H ->. discriminate.
  - intros H. destruct s; [contradiction|reflexivity].
Qed.

Lemma words_first (s : string) :
  Boolean (trim s) = true ->
  exists (first : string) (rest : list string), words s = first :: rest.
Proof.
  intros Hb. destruct (trim_shape s) as [H|H].
  - rewrite H in Hb. discriminate.
  - rewrite words_of. destruct (trim s) as [|c t]; [discriminate|].
    cbn [first_visible] in H. apply negb_true_iff, visible_not_space in H.
    destruct (split_visible c t H) as (w & ws & ->).
    rewrite filter_cons_True by reflexivity. eauto.
Qed.

Lemma words_trim (s : string) : words (trim s) = words s.
Proof. rewrite !words_of, js_trim_idem. reflexivity. Qed.

(** *** [processCommand] *)

Lemma processCommand_trim (s : string) : processCommand (trim s) = processCommand s.
Proof. unfold processCommand. rewrite js_trim_idem. reflexivity. Qed.

Lemma processCommand_blank (s : string) :
  Boolean (trim s) = false -> processCommand s = Returned None None.
Proof. intros H. unfold processCommand. rewrite H. reflexivity. Qed.

Lemma includes_In (items : list string) (x : string) :
  includes items x = true <-> In x items.
Proof.
  unfold includes. rewrite existsb_exists. split.
  - intros (y & Hy & ->%String.eqb_eq). exact Hy.
  - intros H. exists x. split; [exact H|apply String.eqb_refl].
Qed.

(** The element is never null on an input that is not blank, and a
    route is pushed by the cd command only. *)
Lemma processCommand_visible (s : string) :
  Boolean (trim s) = true ->
  exists (out : node) (pushed : option string),
    processCommand s = Returned (Some out) pushed /\
    (pushed = None \/
     exists (page first target : string) (rest : list string),
       In page availablePages /\ pushed = Some ("/" +:+ page) /\
       out = Navigating page /\
       words s = first :: target :: rest /\ toLowerCase first = "cd" /\
       replace_trailing_slash target = page).
Proof.
  intros Hb. destruct (words_first s Hb) as (first & rest & Hw).
  unfold processCommand. rewrite Hb. cbn [negb]. cbn zeta.
  rewrite <- words_of, Hw.
  destruct (String.eqb (toLowerCase first) "help"); [eauto 6|].
  destruct (String.eqb (toLowerCase first) "ls"); [eauto 6|].
  destruct (String.eqb (toLowerCase first) "cd") eqn:Hcd.
  - apply String.eqb_eq in Hcd.
    destruct rest as [|target rest]; [eauto 6|].
    destruct (negb (Boolean target) || String.eqb target "~"); [eauto 6|].
    destruct (includes availablePages (replace_trailing_slash target)) eqn:Hin.
    + apply includes_In in Hin. eexists _, _. split; [reflexivity|]. right.
      exists (replace_trailing_slash target), first, target, rest. auto 7.
    + destruct (String.eqb (replace_trailing_slash target) ".."); eauto 6.
  - destruct (String.eqb (toLowerCase first) "whoami"); [eauto 6|].
    destruct (String.eqb (toLowerCase first) "rawr"); eauto 6.
Qed.

(** X19: [processCommand] never throws: the word whose lower case it
    takes always exists. It returns null exactly on a blank input, an
    element on every other, and gives the same result on an input and on
    the input trimmed. *)
Theorem processCommand_returns (cmdStr : string) :
  is_ascii cmdStr = true ->
  exists (element : option node) (pushed : option string),
    processCommand cmdStr = Returned element pushed /\
    (element = None <-> trim cmdStr = EmptyString) /\
    processCommand (trim cmdStr) = processCommand cmdStr.
Proof.
  intros _. destruct (Boolean (trim cmdStr)) eqn:Hb.
  - destruct (processCommand_visible cmdStr Hb) as (out & pushed & Heq & _).
    exists (Some out), pushed. split; [exact Heq|].
    split; [|apply processCommand_trim].
    apply Boolean_true in Hb. split; [discriminate|contradiction].
  - exists None, None. split; [apply processCommand_blank, Hb|].
    split; [|apply processCommand_trim].
    split; [|reflexivity]. intros _.
    destruct (trim cmdStr); [reflexivity|discriminate].
Qed.

(** X20: the only routes the terminal pushes are those of the listed
    pages, and only the cd command pushes one: its second word, without
    one trailing slash, is the page. *)
Theorem navigation_targets (cmdStr : string) (element : option node) (route : string) :
  is_ascii cmdStr = true ->
  processCommand cmdStr = Returned element (Some route) ->
  exists (page first target : string) (rest : list string),
    In page availablePages /\ route = "/" +:+ page /\
    element = Some (Navigating page) /\
    words cmdStr = first :: target :: rest /\ toLowerCase first = "cd" /\
    replace_trailing_slash target = page.
Proof.
  intros _ Heq. destruct (Boolean (trim cmdStr)) eqn:Hb.
  - destruct (processCommand_visible cmdStr Hb)
      as (out & pushed & Heq' & [->|(page & first & target & rest & Hin & -> & -> & Hw & Hcd & Hpage)]);
      rewrite Heq' in Heq; [discriminate|].
    injection Heq as <- <-. exists page, first, target, rest. auto 6.
  - rewrite (processCommand_blank _ Hb) in Heq. discriminate.
Qed.

(** *** Inputs built from their words *)

Lemma lower_white_space (c : ascii) : white_space (lower c) = white_space c.
Proof. destruct c as [[] [] [] [] [] [] [] []]; reflexivity. Qed.

Lemma toLowerCase_no_space (w : string) : no_space (toLowerCase w) = no_space w.
Proof.
  induction w as [|c w IH]; [reflexivity|].
  cbn [toLowerCase no_space]. rewrite lower_space, IH. reflexivity.
Qed.

Lemma toLowerCase_first_visible (w : string) :
  first_visible (toLowerCase w) = first_visible w.
Proof.
  destruct w as [|c w]; [reflexivity|].
  cbn [toLowerCase first_visible]. rewrite lower_white_space. reflexivity.
Qed.

Lemma first_visible_app (a b : string) :
  first_visible a = true -> first_visible (a +:+ b) = true.
Proof. destruct a; [discriminate|]. intros H. exact H. Qed.

Lemma last_visible_app (a b : string) :
  Boolean b = true -> last_visible (a +:+ b) = last_visible b.
Proof.
  intros Hb. induction a as [|c a IH]; [reflexivity|].
  change (String c a +:+ b) with (String c (a +:+ b)).
  destruct (a +:+ b) as [|c' s'] eqn:E.
  - destruct a; [|discriminate]. change (b = EmptyString) in E.
    rewrite E in Hb. discriminate.
  - exact IH.
Qed.

Lemma page_facts (page : string) (slash : bool) :
  In page availablePages ->
  let target := page +:+ (if slash then "/" else EmptyString) in
  no_space target = true /\ last_visible target = true /\
  Boolean target = true /\ String.eqb target "~" = false /\
  replace_trailing_slash target = page /\ includes availablePages page = true.
Proof.
  intros Hin. cbn [availablePages In] in Hin.
  repeat (destruct Hin as [<-|Hin]); try (destruct Hin);
    destruct slash; vm_compute; auto 6.
Qed.

(** X21: the cd command reaches every listed page. Whatever white space
    surrounds the input, however cd is capitalised, however many spaces
    separate the two words and with or without a slash after the page,
    the route of the page is pushed. *)
Theorem cd_navigates (l r cd page : string) (gap : nat) (slash : bool) :
  all_white_space l = true -> all_white_space r = true ->
  toLowerCase cd = "cd" -> In page availablePages ->
  processCommand
    (l +:+ (cd +:+ " " +:+ spaces gap +:+ page +:+ (if slash then "/" else EmptyString)) +:+ r)
  = Returned (Some (Navigating page)) (Some ("/" +:+ page)).
Proof.
  intros Hl Hr Hcd Hin.
  destruct (page_facts page slash Hin) as (Hns & Hlast & Hb & Htilde & Hclean & Hinc).
  set (target := page +:+ (if slash then "/" else EmptyString)) in *.
  assert (Hcd_ns : no_space cd = true).
  { rewrite <- toLowerCase_no_space, Hcd. reflexivity. }
  assert (Hcd_fv : first_visible cd = true).
  { rewrite <- toLowerCase_first_visible, Hcd. reflexivity. }
  assert (Hcd_b : Boolean cd = true).
  { destruct cd; [discriminate|reflexivity]. }
  set (line := cd +:+ " " +:+ spaces gap +:+ target).
  assert (Htrim : trim (l +:+ line +:+ r) = line).
  { apply js_trim_spec; [exact Hl|exact Hr| |].
    - apply first_visible_app, Hcd_fv.
    - unfold line. rewrite last_visible_app by reflexivity.
      change (" " +:+ spaces gap +:+ target) with (String " " (spaces gap) +:+ target).
      rewrite last_visible_app by exact Hb. exact Hlast. }
  assert (Hwords : words (l +:+ line +:+ r) = [cd; target]).
  { rewrite words_of, Htrim. unfold line.
    change (" " +:+ spaces gap +:+ target) with (String " " (spaces gap +:+ target)).
    rewrite split_app, filter_app, filter_split_spaces.
    rewrite (split_no_space _ Hcd_ns), (split_no_space _ Hns).
    rewrite !filter_cons_True by assumption. reflexivity. }
  assert (Hline : Boolean line = true).
  { unfold line. destruct cd; [discriminate|reflexivity]. }
  unfold processCommand. rewrite Htrim at 1. rewrite Hline. cbn [negb]. cbn zeta.
  rewrite <- words_of, Hwords, Hcd.
  change (String.eqb "cd" "help") with false.
  change (String.eqb "cd" "ls") with false.
  change (String.eqb "cd" "cd") with true. cbn match.
  rewrite Hb, Htilde, Hclean, Hinc. reflexivity.
Qed.

(** *** The key handler *)

Lemma handle_keeps (ev : event) (t : terminal) :
  Forall item_shown (history t) ->
  exists (t' : terminal) (pushed : option string),
    handle ev t = Done t' pushed /\
    Forall item_shown (history t') /\
    (forall route : string, pushed = Some route -> In route page_routes).
Proof.
  intros Hinv. destruct ev as [value|key]; cbn [handle].
  - unfold onChange. eexists _, _. split; [reflexivity|].
    split; [exact Hinv|discriminate].
  - unfold handleKeyDown.
    destruct (String.eqb key "Enter").
    2:{ eexists _, _. split; [reflexivity|]. split; [exact Hinv|discriminate]. }
    destruct (String.eqb (toLowerCase (trim (input t))) "clear") eqn:Hclear.
    { eexists _, _. split; [reflexivity|]. split; [constructor|discriminate]. }
    destruct (Boolean (trim (input t))) eqn:Hb.
    2:{ eexists _, _. split; [reflexivity|]. split; [exact Hinv|discriminate]. }
    assert (Hb' : Boolean (trim (trim (input t))) = true) by (rewrite js_trim_idem; exact Hb).
    destruct (processCommand_visible _ Hb') as (out & pushed & Heq & Hpushed).
    rewrite Heq. eexists _, _. split; [reflexivity|]. cbn [history]. split.
    + apply Forall_app. split; [exact Hinv|]. constructor; [|constructor].
      unfold item_shown. cbn [command output].
      split; [exact Hb|]. split.
      { intros H. rewrite H in Hclear. discriminate. }
      split; [discriminate|].
      exists pushed. rewrite <- processCommand_trim. exact Heq.
    + intros route ->.
      destruct Hpushed as [Hnone|(page & _ & _ & _ & Hin & [= ->] & _)]; [discriminate|].
      unfold page_routes. apply in_map_iff. exists page. split; [reflexivity|exact Hin].
Qed.

Lemma run_keeps (events : list event) (t : terminal) (routes : list string) :
  Forall item_shown (history t) ->
  Forall (fun route => In route page_routes) routes ->
  exists (t' : terminal) (routes' : list string),
    run events t routes = Some (t', routes') /\
    Forall item_shown (history t') /\
    Forall (fun route => In route page_routes) routes'.
Proof.
  revert t routes. induction events as [|ev events IH]; intros t routes Hinv Hroutes.
  - exists t, routes. auto.
  - cbn [run]. destruct (handle_keeps ev t Hinv) as (t' & pushed & -> & Hinv' & Hpushed).
    apply IH; [exact Hinv'|].
    apply Forall_app. split; [exact Hroutes|].
    destruct pushed as [route|]; cbn [option_list]; [|constructor].
    constructor; [|constructor]. apply Hpushed. reflexivity.
Qed.

(** X22: whatever is typed and whichever keys are pressed, no handler
    throws, every item of the history has an output that is not null
    (the element [processCommand] gives for its command, which is
    neither blank nor the clear command), and every route pushed is the
    route of a listed page. *)
Theorem history_invariant (events : list event) :
  forallb ascii_event events = true ->
  exists (t : terminal) (routes : list string),
    run events initial [] = Some (t, routes) /\
    Forall item_shown (history t) /\
    Forall (fun route => In route page_routes) routes.
Proof.
  intros _. apply run_keeps.
  - cbn [initial history]. constructor.
  - constructor.
Qed.

(** X23: the clear command is the key handler's, not [processCommand]'s.
    Enter on an input that is the one word clear, in any capitals and
    with white space around it, empties the history and adds nothing.
    With anything after the word, nothing is cleared: the line is added
    to the history with the output clear: command not found. *)
Theorem clear_command (t : terminal) :
  is_ascii (input t) = true ->
  (toLowerCase (trim (input t)) = "clear" ->
     words (input t) = [trim (input t)] /\
     handleKeyDown "Enter" t = Done initial None) /\
  (forall (first second : string) (rest : list string),
     words (input t) = first :: second :: rest -> toLowerCase first = "clear" ->
     handleKeyDown "Enter" t =
     Done (Terminal (history t ++ [Item (input t) (Some (NotFound "clear"))]) EmptyString)
          None).
Proof.
  intros _.
  assert (Hone : toLowerCase (trim (input t)) = "clear" ->
                 words (input t) = [trim (input t)]).
  { intros Hclear. rewrite words_of.
    assert (Hns : no_space (trim (input t)) = true).
    { rewrite <- toLowerCase_no_space, Hclear. reflexivity. }
    rewrite (split_no_space _ Hns). rewrite filter_cons_True; [reflexivity|].
    destruct (trim (input t)); [discriminate|reflexivity]. }
  split.
  - intros Hclear. split; [apply Hone, Hclear|].
    unfold handleKeyDown. rewrite Hclear. reflexivity.
  - intros first second rest Hw Hfirst.
    assert (Hclear : String.eqb (toLowerCase (trim (input t))) "clear" = false).
    { destruct (String.eqb (toLowerCase (trim (input t))) "clear") eqn:E; [|reflexivity].
      apply String.eqb_eq, Hone in E. rewrite Hw in E. discriminate. }
    assert (Hb : Boolean (trim (input t)) = true).
    { destruct (Boolean (trim (input t))) eqn:E; [reflexivity|].
      rewrite words_of in Hw. destruct (trim (input t)); [|discriminate].
      discriminate. }
    unfold handleKeyDown. cbn [String.eqb Ascii.eqb Bool.eqb]. cbn match.
    rewrite Hclear, Hb, processCommand_trim.
    unfold processCommand. rewrite Hb. cbn [negb]. cbn zeta.
    rewrite <- words_of, Hw, Hfirst. reflexivity.
Qed.

End TerminalExtras.

Module ExtrasExamples.
Import Php Shell Target TargetMore.

(** A secret file with a leading space and a trailing carriage return
    and line feed still verifies the bare code. *)
Lemma secret_file_whitespace_witness :
  actual_code padded_secret = "c0ffee" /\
  fst (admin_php true (Request (Some (PhpString "c0ffee")) None) padded_secret)
    <> MSG_DENIED.
Proof.
  destruct (HandlerExtras.secret_file_whitespace padded_secret
              " " "c0ffee" (String "013"%char LF) mode_644) as [Hcode Hok].
  - vm_compute; reflexivity.
  - reflexivity.
  - reflexivity.
  - reflexivity.
  - reflexivity.
  - split; [exact Hcode|].
    apply Hok; discriminate.
Defined.

(** With the sample programs, a run in profile 2 leaves /etc/passwd as
    the image has it. *)
Lemma provision_frame_witness :
  In "/etc/passwd" (written_paths (profile bare_image run_sqli)) \/
  sb_files (TargetPrograms.provision_with TargetPrograms.sample_programs
              bare_image run_sqli) !! "/etc/passwd" =
  sb_files bare_image !! "/etc/passwd".
Proof.
  apply (ProgramsExtras.provision_frame TargetPrograms.sample_programs
           bare_image run_sqli "/etc/passwd").
  repeat split; intros x t; cbn [TargetPrograms.sample_programs
    TargetPrograms.openssl_writes TargetPrograms.chpasswd_writes
    TargetPrograms.service_writes TargetPrograms.mysql_writes fst snd];
    try reflexivity; apply lookup_insert_ne; discriminate.
Defined.

(** The same run rewrites /etc/shadow, which chpasswd writes, and the
    database server makes its directory. *)
Example programs_write_elsewhere :
  sb_files (TargetPrograms.provision_with TargetPrograms.sample_programs
              bare_image run_sqli) !! "/etc/shadow" =
    Some (File ("root:2a2a2a2a2a2a2a2a2a2a2a2a" +:+ LF) 416) /\
  sb_files bare_image !! "/etc/shadow" = None /\
  "/var/lib/mysql/secrets" ∈
    sb_dirs (TargetPrograms.provision_with TargetPrograms.sample_programs
               bare_image run_sqli).
Proof.
  split; [vm_compute; reflexivity|]. split; [reflexivity|].
  vm_compute. repeat constructor.
Qed.

(** A call in the default mode against a server that answers 200. *)
Lemma default_mode_outcome_witness :
  exists r : Client.response,
    Client.always Client.pong
      (Client.call_request None "/health" Client.no_options (Some Client.signed_in)) = inr r /\
    Client.ok r = true /\
    Client.body r = inr (Client.JObj [("status", Client.JStr "ok")]).
Proof.
  destruct (ClientExtras.default_mode_outcome "/auth/login" None (Client.always Client.pong)
              "/health" Client.no_options (Some Client.signed_in))
    as (r & Hfetch & Hok & Hbody).
  - discriminate.
  - exists r. split; [exact Hfetch|]. split; [exact Hok|].
    injection Hfetch as <-. exact Hbody.
Defined.

(** A 404 with a detail: the Error carries the detail. *)
Lemma failure_message_witness :
  fst (Client.apiCall "/auth/login" None (Client.always Client.not_found)
         "/community/posts/7" Client.no_options (Some Client.signed_in)) =
  Client.Rejected (Client.Error "Post not found").
Proof.
  refine (proj1 (proj2 (ClientExtras.failure_message "/auth/login" None
            (Client.always Client.not_found) "/community/posts/7" Client.no_options
            (Some Client.signed_in) Client.not_found _ _ _))
            [("detail", Client.JStr "Post not found")] "Post not found" _ _ _).
  - discriminate.
  - reflexivity.
  - reflexivity.
  - reflexivity.
  - reflexivity.
  - discriminate.
Defined.

(** A quiet call against a gateway that answers 502 with a page that is
    not JSON: the call rejects all the same. *)
Lemma quiet_mode_outcome_witness :
  fst (Client.apiCall "/auth/login" None (Client.always Client.bad_gateway)
         "/agents/models" Client.quiet (Some Client.signed_in)) =
  Client.Rejected Client.SyntaxError.
Proof.
  refine (ClientExtras.quiet_mode_outcome "/auth/login" None
            (Client.always Client.bad_gateway) "/agents/models" Client.quiet
            (Some Client.signed_in) _).
  reflexivity.
Defined.

(** A command in capitals, with spaces around it. *)
Lemma processCommand_returns_witness :
  exists (element : option Terminal.node) (pushed : option string),
    Terminal.processCommand "  RAWR " = Terminal.Returned element pushed /\
    (element = None <-> Terminal.trim "  RAWR " = EmptyString) /\
    Terminal.processCommand (Terminal.trim "  RAWR ") = Terminal.processCommand "  RAWR ".
Proof.
  apply (TerminalExtras.processCommand_returns "  RAWR ").
  reflexivity.
Defined.

Lemma navigation_targets_witness :
  exists (page first target : string) (rest : list string),
    In page Terminal.availablePages /\ "/play" = "/" +:+ page /\
    Some (Terminal.Navigating "play") = Some (Terminal.Navigating page) /\
    Terminal.words "cd play/ now" = first :: target :: rest /\
    Terminal.toLowerCase first = "cd" /\
    Terminal.replace_trailing_slash target = page.
Proof.
  apply (TerminalExtras.navigation_targets "cd play/ now").
  - reflexivity.
  - vm_compute; reflexivity.
Defined.

Lemma cd_navigates_witness :
  Terminal.processCommand " CD   leaderboard/ " =
  Terminal.Returned (Some (Terminal.Navigating "leaderboard")) (Some "/leaderboard").
Proof.
  refine (TerminalExtras.cd_navigates " " " " "CD" "leaderboard" 2 true _ _ _ _).
  - reflexivity.
  - reflexivity.
  - reflexivity.
  - vm_compute; auto.
Defined.

Lemma history_invariant_witness :
  exists (t : Terminal.terminal) (routes : list string),
    Terminal.run Terminal.demo_session Terminal.initial [] = Some (t, routes) /\
    Forall Terminal.item_shown (Terminal.history t) /\
    Forall (fun route => In route Terminal.page_routes) routes.
Proof.
  apply (TerminalExtras.history_invariant Terminal.demo_session).
  reflexivity.
Defined.

(** The session of the example: the history holds the line after the
    clear and the one after it, and one route was pushed. *)
Example demo_session_result :
  Terminal.run Terminal.demo_session Terminal.initial [] =
  Some (Terminal.Terminal
          [Terminal.Item "clear now" (Some (Terminal.NotFound "clear"));
           Terminal.Item "cd .." (Some Terminal.PermissionDenied)]
          EmptyString,
        ["/leaderboard"]).
Proof. vm_compute; reflexivity. Qed.

Lemma clear_command_witness :
  Terminal.handleKeyDown "Enter" Terminal.typed_clear = Terminal.Done Terminal.initial None.
Proof.
  apply (TerminalExtras.clear_command Terminal.typed_clear); reflexivity.
Defined.

End ExtrasExamples.
